(** * Candidate enrichment and historical backtest engine (aiw-evidence)

    A shallow embedding of four batch scripts of the repository:

    - [aiw_backtest_1y_h7_top200_stopfirst.py]  (module [Backtest])
    - [aiw_profile_metrics_enricher_v2.py]      (module [EnricherV2])
    - [aiw_profile_metrics_enricher_v1.py]      (module [EnricherV1])
    - [aiw_expand_creamy_to_all_profiles_v1.py] (module [Expand])

    Modelling conventions.

    - The SQLite tables are lists of records in stored order; a
      [SELECT ... WHERE] is a [filter], [ORDER BY] a sort (stable on
      the stored order where rows that compare equal are cut by a
      top-N), [LIMIT] a [take], an [UPDATE ... WHERE] a [map] that rewrites the matching
      rows and an [INSERT ... SELECT] appends the selected rows.
    - A nullable numeric column is an [option Q], a nullable text column
      an [option string]; the key columns are plain strings.
    - Python floats are idealised as exact rationals ([Q]): every
      arithmetic operation is the exact one, comparisons are the
      rational comparisons.  [round] and ["%.2f"] round half to even.
    - Python integers are [Z]; dictionaries are [gmap]s, sets [gset]s. *)

From Stdlib Require Import ZArith QArith Qround Qabs Lia Lqa.
From Stdlib Require Import Ascii String.
From stdpp Require Import base option list sorting gmap strings pretty.

Local Open Scope Z_scope.

(** ** Numeric helpers shared by the scripts *)

Module Num.

(** Strict comparison on rationals as a boolean. *)
Definition Qlt_bool (x y : Q) : bool := negb (Qle_bool y x).

(** Python's [round(x)]: nearest integer, ties to the even one. *)
Definition round_half_even (x : Q) : Z :=
  let fl := Qfloor x in
  let d := (x - inject_Z fl)%Q in
  if Qlt_bool d (1 # 2) then fl
  else if Qlt_bool (1 # 2) d then fl + 1
  else if Z.even fl then fl else fl + 1.

(** Python's [round(x, k)] for a non-negative number of digits [k]. *)
Definition round_digits (x : Q) (k : nat) : Q :=
  let scale := 10 ^ Z.of_nat k in
  (inject_Z (round_half_even (x * inject_Z scale)) / inject_Z scale)%Q.

(** [max(a, b)] and [min(a, b)] of Python on two numbers: the first
    argument is kept unless the second is strictly better. *)
Definition max2 (a b : Q) : Q := if Qlt_bool a b then b else a.
Definition min2 (a b : Q) : Q := if Qlt_bool b a then b else a.

(** [max(xs)] and [min(xs)] over a non-empty sequence, head given apart. *)
Definition max_of (x : Q) (xs : list Q) : Q := fold_left max2 xs x.
Definition min_of (x : Q) (xs : list Q) : Q := fold_left min2 xs x.

End Num.

Export Num.

(** ** Text helpers: the string operations of Python the scripts use *)

Module Text.

(** [str.upper()] on the ASCII letters. *)
Definition upper_ascii (c : ascii) : ascii :=
  let k := nat_of_ascii c in
  if ((97 <=? k) && (k <=? 122))%nat then ascii_of_nat (k - 32) else c.

Fixpoint upper (s : string) : string :=
  match s with
  | EmptyString => EmptyString
  | String c s' => String (upper_ascii c) (upper s')
  end.

(** [needle in s]. *)
Fixpoint contains (needle s : string) : bool :=
  String.prefix needle s ||
  match s with
  | EmptyString => false
  | String _ s' => contains needle s'
  end.

(** ["%d" % z]. *)
Definition fmt_int (z : Z) : string := pretty z.

(** Two decimal digits, zero padded. *)
Definition two_digits (k : Z) : string :=
  (if k <? 10 then "0" else "") +:+ pretty k.

(** ["%.2f" % x], with the rounding of [round_half_even] applied to the
    rational [x]; Python rounds the double nearest to [x], which can
    differ in the last digit when [x] lies on a tie of the hundredths. *)
Definition fmt2 (x : Q) : string :=
  let h := round_half_even (Qabs x * 100) in
  (if Qlt_bool x 0 then "-" else "")
    +:+ pretty (h / 100) +:+ "." +:+ two_digits (h mod 100).

(** The characters [str.rstrip()] removes, within ASCII. *)
Definition is_space (c : ascii) : bool :=
  let k := nat_of_ascii c in
  ((9 <=? k) && (k <=? 13) || (28 <=? k) && (k <=? 32))%nat.

Fixpoint rstrip (s : string) : string :=
  match s with
  | EmptyString => EmptyString
  | String c s' =>
    match rstrip s' with
    | EmptyString => if is_space c then EmptyString else String c EmptyString
    | t => String c t
    end
  end.

End Text.

Export Text.

(** ** The stored tables *)

(** One row of [AIW_A_CREAMY_LAYER], with the columns the scripts read
    or write. *)
Record CreamyRow := mkCreamy {
  ENV_CODE : string;
  RUN_DATE : string;
  PROFILE_ID : string;
  INSTRUMENT_ID : string;
  BROKER_CODE : option string;
  DIRECTION : option string;
  QUANTITY : option Q;
  ENTRY_PRICE : option Q;
  TARGET_PRICE : option Q;
  STOP_LOSS : option Q;
  CONFIDENCE : option Q;
  EXPECTED_RETURN_PCT : option Q;
  AI_RECOMMENDATION : option string;
  AI_REASON : option string;
  RANKING_SCORE : option Q;
  IS_CREAMY : Z;
  DISPLAY_RANK : option Z;
  CREATED_AT : option string;
  UPDATED_AT : option string
}.

(** One row of [AIW_H_PRICE_EOD]. *)
Record EodRow := mkEod {
  EOD_INSTRUMENT_ID : string;
  TRADE_DATE : string;
  HIGH_PRICE : option Q;
  LOW_PRICE : option Q;
  CLOSE_PRICE : option Q
}.

(** [WHERE ENV_CODE=? AND RUN_DATE=? AND IS_CREAMY=1], the selection
    every script starts from. *)
Definition creamy_of (env date : string) (r : CreamyRow) : bool :=
  String.eqb (ENV_CODE r) env && String.eqb (RUN_DATE r) date
  && Z.eqb (IS_CREAMY r) 1.

(** A selected row of environment SIM and run date 2025-12-01 with the
    columns the enrichers read; the sample tables are built from it. *)
Definition plain_row (pid instrument : string) (entry score : option Q)
    (rank : option Z) (reason : option string) : CreamyRow :=
  mkCreamy "SIM" "2025-12-01" pid instrument None None None
           entry None None None None None reason score 1 rank None None.

(** SQLite orders [NULL] before every integer. *)
Definition rank_leb (a b : option Z) : bool :=
  match a, b with
  | None, _ => true
  | Some _, None => false
  | Some x, Some y => Z.leb x y
  end.

(** [d.setdefault(pid, []).append(r)] on a dictionary of lists keyed by
    profile; a Python dictionary keeps its keys in the order they were
    first inserted, which an association list records. *)
Fixpoint setdefault_append (d : list (string * list CreamyRow)) (r : CreamyRow)
    : list (string * list CreamyRow) :=
  match d with
  | [] => [(PROFILE_ID r, [r])]
  | (p, l) :: rest =>
    if String.eqb p (PROFILE_ID r) then (p, l ++ [r]) :: rest
    else (p, l) :: setdefault_append rest r
  end.

(** The four risk classes. *)
Inductive Risk := CONSERVATIVE | BALANCED | AGGRESSIVE | ULTRA_AGGRESSIVE.

Definition risk_name (r : Risk) : string :=
  match r with
  | CONSERVATIVE => "CONSERVATIVE"
  | BALANCED => "BALANCED"
  | AGGRESSIVE => "AGGRESSIVE"
  | ULTRA_AGGRESSIVE => "ULTRA_AGGRESSIVE"
  end.

(** The parameters of the [UPDATE AIW_A_CREAMY_LAYER SET ... WHERE ...]
    both enrichers execute: six new column values and the four key
    values of the [WHERE] clause. *)
Record Update := mkUpdate {
  u_target : Q;
  u_stop : Q;
  u_conf : Q;
  u_roi : Q;
  u_reason : string;
  u_now : string;
  u_env : string;
  u_date : string;
  u_pid : string;
  u_instrument : string
}.

(** [WHERE ENV_CODE=? AND RUN_DATE=? AND PROFILE_ID=? AND INSTRUMENT_ID=?]. *)
Definition update_matches (u : Update) (r : CreamyRow) : bool :=
  String.eqb (ENV_CODE r) (u_env u) && String.eqb (RUN_DATE r) (u_date u)
  && String.eqb (PROFILE_ID r) (u_pid u)
  && String.eqb (INSTRUMENT_ID r) (u_instrument u).

(** [SET TARGET_PRICE=?, STOP_LOSS=?, CONFIDENCE=?, EXPECTED_RETURN_PCT=?,
    AI_REASON=?, UPDATED_AT=?]. *)
Definition set_metrics (u : Update) (r : CreamyRow) : CreamyRow :=
  mkCreamy (ENV_CODE r) (RUN_DATE r) (PROFILE_ID r) (INSTRUMENT_ID r)
           (BROKER_CODE r) (DIRECTION r) (QUANTITY r) (ENTRY_PRICE r)
           (Some (u_target u)) (Some (u_stop u)) (Some (u_conf u))
           (Some (u_roi u))
           (AI_RECOMMENDATION r) (Some (u_reason u)) (RANKING_SCORE r)
           (IS_CREAMY r) (DISPLAY_RANK r) (CREATED_AT r) (Some (u_now u)).

(** One [UPDATE] statement on the table. *)
Definition execute_update (creamy : list CreamyRow) (u : Update) : list CreamyRow :=
  map (fun r => if update_matches u r then set_metrics u r else r) creamy.

(** [executemany], and a sequence of [execute] calls alike. *)
Definition executemany (updates : list Update) (creamy : list CreamyRow)
    : list CreamyRow :=
  fold_left execute_update updates creamy.

(** ** The historical outcome simulator
    ([aiw_backtest_1y_h7_top200_stopfirst.py]) *)

Module Backtest.

(** [--amb_rule], one of the three [choices]. *)
Inductive AmbRule := stop_first | skip | half_half.

(** [f(x)]: a stored number as a float, [NULL] coerced to 0.0. *)
Definition f (x : option Q) : Q :=
  match x with
  | None => 0
  | Some v => v
  end.

(** [pct(a, b)]: [a / b * 100.0] if [b] is non-zero, else 0.0. *)
Definition pct (a b : Q) : Q :=
  if Qeq_bool b 0 then 0 else (a / b * 100)%Q.

(** The per-profile accumulator created by [S(profile)]. *)
Record Stat := mkStat {
  days : gset string;
  n : Z;
  sum_edge : Q;
  sum_conf : Q;
  sum_roi : Q;
  tgt_hit : Z;
  sl_hit : Z;
  amb : Z;
  none : Z;
  win : Z;
  lose : Z;
  sum_realized : Q
}.

Definition new_stat : Stat :=
  mkStat ∅ 0 0 0 0 0 0 0 0 0 0 0.

(** [S(profile)]: the profile's accumulator, fresh if there is none. *)
Definition S (stats : gmap string Stat) (profile : string) : Stat :=
  default new_stat (stats !! profile).

(** Lines 78-93: the candidate is counted and its edge, confidence and
    expected return are summed, before its price bars are fetched. *)
Definition count_candidate (rd : string) (edge conf roi : Q) (st : Stat) : Stat :=
  mkStat ({[rd]} ∪ days st) (n st + 1)
         (sum_edge st + edge) (sum_conf st + conf) (sum_roi st + roi)
         (tgt_hit st) (sl_hit st) (amb st) (none st) (win st) (lose st)
         (sum_realized st).

(** The increments of one branch of lines 104-145 to the outcome
    counters; [realized] is [None] on the branches that [continue]
    before [st["sum_realized"] += realized]. *)
Definition bump (st : Stat) (d_tgt d_sl d_amb d_none d_win d_lose : Z)
    (realized : option Q) : Stat :=
  mkStat (days st) (n st) (sum_edge st) (sum_conf st) (sum_roi st)
         (tgt_hit st + d_tgt) (sl_hit st + d_sl) (amb st + d_amb)
         (none st + d_none) (win st + d_win) (lose st + d_lose)
         (match realized with
          | None => sum_realized st
          | Some x => (sum_realized st + x)%Q
          end).

(** [pct(x - entry, entry) if entry else 0.0]. *)
Definition ret_pct (x entry : Q) : Q :=
  if Qeq_bool entry 0 then 0 else pct (x - entry) entry.

(** Lines 112-113. *)
Definition hit_t (target max_high : Q) : bool :=
  Qlt_bool 0 target && Qle_bool target max_high.
Definition hit_s (stop min_low : Q) : bool :=
  Qlt_bool 0 stop && Qle_bool min_low stop.

(** Lines 108-110, on the non-empty list of bars [x :: xs]. *)
Definition max_high (x : EodRow) (xs : list EodRow) : Q :=
  max_of (f (HIGH_PRICE x)) (map (fun y => f (HIGH_PRICE y)) xs).
Definition min_low (x : EodRow) (xs : list EodRow) : Q :=
  min_of (f (LOW_PRICE x)) (map (fun y => f (LOW_PRICE y)) xs).
Definition close_last (x : EodRow) (xs : list EodRow) : Q :=
  f (CLOSE_PRICE (List.last xs x)).

(** Lines 104-145: classification of the forward window and the
    realized return. *)
Definition outcome (amb_rule : AmbRule) (entry target stop : Q)
    (eods : list EodRow) (st : Stat) : Stat :=
  match eods with
  | [] => bump st 0 0 0 1 0 0 None
  | x :: xs =>
    let max_high := max_high x xs in
    let min_low := min_low x xs in
    let close_last := close_last x xs in
    if hit_t target max_high && hit_s stop min_low then
      match amb_rule with
      | skip => bump st 0 0 1 0 0 0 None
      | half_half =>
        let r_t := ret_pct target entry in
        let r_s := ret_pct stop entry in
        bump st 0 0 1 0 0 0 (Some ((1 # 2) * (r_t + r_s))%Q)
      | stop_first => bump st 0 1 1 0 0 1 (Some (ret_pct stop entry))
      end
    else if hit_t target max_high then
      bump st 1 0 0 0 1 0 (Some (ret_pct target entry))
    else if hit_s stop min_low then
      bump st 0 1 0 0 0 1 (Some (ret_pct stop entry))
    else bump st 0 0 0 1 0 0 (Some (ret_pct close_last entry))
  end.

(** Lines 77-145, the body of [for r in take], given the price bars
    [eods] the query of lines 96-102 returned for [r]. *)
Definition trade (amb_rule : AmbRule) (rd : string) (eods : list EodRow)
    (r : CreamyRow) (st : Stat) : Stat :=
  let entry := f (ENTRY_PRICE r) in
  let target := f (TARGET_PRICE r) in
  let stop := f (STOP_LOSS r) in
  let roi := f (EXPECTED_RETURN_PCT r) in
  let conf := f (CONFIDENCE r) in
  let downside := if Qeq_bool entry 0 then 0%Q else pct (entry - stop) entry in
  let edge := (roi - downside)%Q in
  outcome amb_rule entry target stop eods (count_candidate rd edge conf roi st).

(** *** The queries *)

(** Lines 96-102: the next [horizon] bars of the instrument strictly
    after the run date.  A negative [LIMIT] is no limit in SQLite. *)
Definition eod_le (a b : EodRow) : Prop := String.le (TRADE_DATE a) (TRADE_DATE b).
#[global] Instance eod_le_dec : RelDecision eod_le.
Proof. intros a b. unfold eod_le. apply _. Defined.

Definition limit {A} (k : Z) (l : list A) : list A :=
  if k <? 0 then l else take (Z.to_nat k) l.

Definition next_eods (eod : list EodRow) (instrument rd : string) (horizon : Z)
    : list EodRow :=
  limit horizon
    (merge_sort eod_le
       (filter (fun x => Is_true (String.eqb (EOD_INSTRUMENT_ID x) instrument
                                  && String.ltb rd (TRADE_DATE x))) eod)).

(** Lines 59-67: the selected candidates of one run date, ordered by
    profile and display rank. *)
Definition row_leb (a b : CreamyRow) : bool :=
  match String.compare (PROFILE_ID a) (PROFILE_ID b) with
  | Lt => true
  | Eq => rank_leb (DISPLAY_RANK a) (DISPLAY_RANK b)
  | Gt => false
  end.
Definition row_le (a b : CreamyRow) : Prop := Is_true (row_leb a b).
#[global] Instance row_le_dec : RelDecision row_le.
Proof. intros a b. unfold row_le. apply _. Defined.

(** The sort of the [ORDER BY]: rows that compare equal stay in stored
    order (a stable insertion sort). *)
Fixpoint insert_by {A} (leb : A -> A -> bool) (x : A) (l : list A) : list A :=
  match l with
  | [] => [x]
  | y :: l' => if leb x y then x :: l else y :: insert_by leb x l'
  end.

Definition sort_by {A} (leb : A -> A -> bool) (l : list A) : list A :=
  foldr (insert_by leb) [] l.

Definition day_rows (creamy : list CreamyRow) (env rd : string) : list CreamyRow :=
  sort_by row_leb (filter (fun r => Is_true (creamy_of env rd r)) creamy).

(** [lst[:k]]: a negative [k] drops the last [-k] elements. *)
Definition slice_to {A} (k : Z) (l : list A) : list A :=
  if k <? 0 then take (length l - Z.to_nat (- k))%nat l else take (Z.to_nat k) l.

(** *** The main loop *)

Record Args := mkArgs {
  arg_env : string;
  arg_days : Z;
  arg_horizon : Z;
  arg_topn : Z;
  arg_amb_rule : AmbRule
}.

(** Lines 76-145: [for r in take]. *)
Definition run_take (a : Args) (eod : list EodRow) (rd pid : string)
    (take : list CreamyRow) (stats : gmap string Stat) : gmap string Stat :=
  fold_left
    (fun stats r =>
       <[pid := trade (arg_amb_rule a) rd
                  (next_eods eod (INSTRUMENT_ID r) rd (arg_horizon a)) r
                  (S stats pid)]> stats)
    take stats.

(** Lines 57-145: the body of [for rd in run_dates]. *)
Definition run_day (a : Args) (creamy : list CreamyRow) (eod : list EodRow)
    (stats : gmap string Stat) (rd : string) : gmap string Stat :=
  let rows := day_rows creamy (arg_env a) rd in
  let byp := fold_left setdefault_append rows [] in
  fold_left
    (fun stats (item : string * list CreamyRow) =>
       run_take a eod rd (fst item) (slice_to (arg_topn a) (snd item)) stats)
    byp stats.

Definition run_stats (a : Args) (creamy : list CreamyRow) (eod : list EodRow)
    (run_dates : list string) : gmap string Stat :=
  fold_left (run_day a creamy eod) run_dates ∅.

(** Lines 147-168: one row of the summary. *)
Record SummaryRow := mkRow {
  row_profile : string;
  row_days : Z;
  row_trades : Z;
  avg_edge : Q;
  avg_conf : Q;
  avg_roi : Q;
  tgt_hit_pct : Q;
  sl_hit_pct : Q;
  amb_pct : Q;
  none_pct : Q;
  win_pct : Q;
  lose_pct : Q;
  realized7d_avg : Q;
  row_amb_rule : AmbRule
}.

Definition summary_row (rule : AmbRule) (pid : string) (st : Stat) : SummaryRow :=
  let nQ := inject_Z (n st) in
  mkRow pid (Z.of_nat (size (days st))) (n st)
        (round_digits (sum_edge st / nQ) 3)
        (round_digits (sum_conf st / nQ) 3)
        (round_digits (sum_roi st / nQ) 3)
        (round_digits (pct (inject_Z (tgt_hit st)) nQ) 3)
        (round_digits (pct (inject_Z (sl_hit st)) nQ) 3)
        (round_digits (pct (inject_Z (amb st)) nQ) 3)
        (round_digits (pct (inject_Z (none st)) nQ) 3)
        (round_digits (pct (inject_Z (win st)) nQ) 3)
        (round_digits (pct (inject_Z (lose st)) nQ) 3)
        (round_digits (sum_realized st / inject_Z (Z.max 1 (n st))) 3)
        rule.

Definition item_le (a b : string * Stat) : Prop := String.le (fst a) (fst b).
#[global] Instance item_le_dec : RelDecision item_le.
Proof. intros a b. unfold item_le. apply _. Defined.

(** [for pid, st in sorted(stats.items())], skipping [n == 0]. *)
Definition rows_out (rule : AmbRule) (stats : gmap string Stat) : list SummaryRow :=
  map (fun item => summary_row rule (fst item) (snd item))
      (filter (fun item => n (snd item) ≠ 0)
              (merge_sort item_le (map_to_list stats))).

(** How a run ends: the [SystemExit] of line 32, the summary, or an
    exception of the date arithmetic of lines 33-35 that nothing
    catches ([Raised]). *)
Inductive Result :=
  | SystemExit (msg : string)
  | Summary (rows : list SummaryRow)
  | Raised.

Section main.

(** Lines 33-35: [strptime], [timedelta] and [strftime] of the standard
    library, the date [days] calendar days before [mx]; [None] when
    [strptime] raises [ValueError] ([mx] is not of the form YYYY-MM-DD)
    or the subtraction raises [OverflowError]. *)
Variable minus_days : string -> Z -> option string.

(** Line 30: [SELECT MAX(RUN_DATE) ... WHERE ENV_CODE=? AND IS_CREAMY=1]. *)
Definition max_run_date (creamy : list CreamyRow) (env : string) : option string :=
  match map RUN_DATE
          (filter (fun r => Is_true (String.eqb (ENV_CODE r) env
                                     && Z.eqb (IS_CREAMY r) 1)) creamy) with
  | [] => None
  | d :: ds => Some (fold_left (fun m x => if String.ltb m x then x else m) ds d)
  end.

(** Lines 37-42: the distinct run dates of the window, in order. *)
Definition window_run_dates (creamy : list CreamyRow) (env start : string)
    : list string :=
  merge_sort String.le
    (remove_dups
       (map RUN_DATE
          (filter (fun r => Is_true (String.eqb (ENV_CODE r) env
                                     && Z.eqb (IS_CREAMY r) 1
                                     && String.leb start (RUN_DATE r))) creamy))).

Definition main (a : Args) (creamy : list CreamyRow) (eod : list EodRow) : Result :=
  match max_run_date creamy (arg_env a) with
  | None => SystemExit "ERROR: No RUN_DATE found in AIW_A_CREAMY_LAYER."
  | Some mx =>
    if String.eqb mx "" then
      SystemExit "ERROR: No RUN_DATE found in AIW_A_CREAMY_LAYER."
    else
      match minus_days mx (arg_days a) with
      | None => Raised
      | Some start =>
        let run_dates := window_run_dates creamy (arg_env a) start in
        Summary (rows_out (arg_amb_rule a) (run_stats a creamy eod run_dates))
      end
  end.

End main.

(** The rows a run reports, and the same run under another policy. *)
Definition result_rows (res : Result) : list SummaryRow :=
  match res with
  | SystemExit _ => []
  | Summary rows => rows
  | Raised => []
  end.

Definition with_rule (a : Args) (rule : AmbRule) : Args :=
  mkArgs (arg_env a) (arg_days a) (arg_horizon a) (arg_topn a) rule.

(** *** The scenario of one candidate and one bar *)

Definition cand_for (instrument : string) (rank : Z)
    (entry target stop roi conf : Q) : CreamyRow :=
  mkCreamy "SIM" "2025-12-01" "P1" instrument None None None
           (Some entry) (Some target) (Some stop) (Some conf) (Some roi)
           None None None 1 (Some rank) None None.

Definition bar_for (instrument : string) (high low close : Q) : EodRow :=
  mkEod instrument "2025-12-02" (Some high) (Some low) (Some close).

Definition cand (entry target stop roi conf : Q) : CreamyRow :=
  cand_for "I1" 1 entry target stop roi conf.

Definition bar (high low close : Q) : EodRow := bar_for "I1" high low close.

(** [--env SIM --days 365 --horizon 7 --topn 200], the defaults. *)
Definition default_args (rule : AmbRule) : Args := mkArgs "SIM" 365 7 200 rule.

(** Three candidates of one profile and their bars: a target hit, a
    stop hit and a trade that reaches neither level. *)
Definition three_trades : list CreamyRow :=
  [cand_for "I1" 1 100 110 95 8 70; cand_for "I2" 2 100 110 95 8 70;
   cand_for "I3" 3 100 110 95 8 70].

Definition three_bars : list EodRow :=
  [bar_for "I1" 112 97 111; bar_for "I2" 105 94 96; bar_for "I3" 105 97 101].

(** A stand-in for the date arithmetic on the scenario's table. *)
Definition year_before (mx : string) (days : Z) : option string :=
  Some "2024-12-01".

End Backtest.

(** ** The display-rank enricher ([aiw_profile_metrics_enricher_v2.py]) *)

Module EnricherV2.

Record Baseline := mkBase { roi : Q; rr : Q; conf : Z }.

(** [BASE]: profile baselines, reward:risk targets, confidence baselines. *)
Definition BASE (risk : Risk) : Baseline :=
  match risk with
  | CONSERVATIVE => mkBase 2.75 1.40 80
  | BALANCED => mkBase 4.50 1.80 76
  | AGGRESSIVE => mkBase 7.50 1.50 72
  | ULTRA_AGGRESSIVE => mkBase 11.0 1.35 70
  end.

Definition clamp (x lo hi : Q) : Q :=
  if Qlt_bool x lo then lo else if Qlt_bool hi x then hi else x.

Definition risk_from_profile_id (pid : string) : Risk :=
  let u := upper pid in
  if contains "ULTRA" u then ULTRA_AGGRESSIVE
  else if contains "CONSERV" u then CONSERVATIVE
  else if contains "AGGRESS" u then AGGRESSIVE
  else if contains "BALANC" u then BALANCED
  else BALANCED.

(** [MAX(DISPLAY_RANK)] of SQL: [NULL]s are ignored, and the maximum of
    no value is [NULL]. *)
Definition sql_max (xs : list (option Z)) : option Z :=
  fold_left
    (fun acc x =>
       match acc, x with
       | None, _ => x
       | Some a, None => Some a
       | Some a, Some b => Some (Z.max a b)
       end)
    xs None.

(** Lines 39-46: [maxr], the largest display rank of every profile that
    has a selected row, 0 if all its ranks are [NULL]. *)
Definition maxr (rows : list CreamyRow) : gmap string Z :=
  fold_left
    (fun m r =>
       <[PROFILE_ID r :=
           default 0
             (sql_max
                (map DISPLAY_RANK
                   (filter (fun x => PROFILE_ID x = PROFILE_ID r) rows)))]> m)
    rows ∅.

(** Lines 72-78: the strength of display rank [dr] in a group whose
    largest rank is [mx]. *)
Definition strength (dr mx : Z) : Q :=
  let mx := if mx <=? 1 then 200 else mx in
  (1 - inject_Z (Z.max 1 dr - 1) / inject_Z (mx - 1))%Q.

(** Lines 80-99: the economics of one candidate. *)
Record Metrics := mkMetrics {
  m_roi : Q;
  m_downside : Q;
  m_target : Q;
  m_stop : Q;
  m_rr : Q;
  m_conf : Q;
  m_conf_int : Z
}.

Definition metrics (b : Baseline) (entry strength : Q) : Metrics :=
  let roi0 := (roi b * (0.70 + 0.60 * strength))%Q in
  let roi1 := clamp roi0 (roi b * 0.60) (roi b * 1.50) in
  let rr_target := rr b in
  let downside0 := (roi1 / rr_target)%Q in
  let downside := clamp downside0 0.75 15.0 in
  let target := (entry * (1.0 + roi1 / 100.0))%Q in
  let stop := (entry * (1.0 - downside / 100.0))%Q in
  let rr1 := ((target - entry) / max2 1e-9 (entry - stop))%Q in
  let c0 := inject_Z (conf b) in
  let c1 := (c0 + (strength - 0.5) * 10.0)%Q in
  let c2 := (c1 + (clamp rr1 0.5 3.0 - 1.5) * 4)%Q in
  let c3 := (c2 - max2 0.0 (downside - 6.0) * 1.2)%Q in
  let c4 := clamp c3 35.0 95.0 in
  mkMetrics roi1 downside target stop rr1 c4 (round_half_even c4).

(** Lines 101-105. *)
Definition reason (pid : string) (risk : Risk) (entry : Q) (m : Metrics) : string :=
  "Profile=" +:+ pid +:+ " (" +:+ risk_name risk +:+ "). "
  +:+ "Exp " +:+ fmt2 (m_roi m) +:+ "% / Down " +:+ fmt2 (m_downside m)
  +:+ "% / R:R " +:+ fmt2 (m_rr m) +:+ ". "
  +:+ "Conf " +:+ fmt_int (m_conf_int m) +:+ "/100. Entry " +:+ fmt2 entry
  +:+ ", Target " +:+ fmt2 (m_target m) +:+ ", SL " +:+ fmt2 (m_stop m) +:+ ".".

(** Lines 63-110: the body of [for r in rows]; [None] is the [continue]
    of line 67, otherwise the tuple appended to [updates]. *)
Definition enrich_row (maxr : gmap string Z) (now env run_date : string)
    (r : CreamyRow) : option Update :=
  let pid := PROFILE_ID r in
  let entry := default 0%Q (ENTRY_PRICE r) in
  if Qle_bool entry 0 then None
  else
    let risk := risk_from_profile_id pid in
    let b := BASE risk in
    let dr := default 0 (DISPLAY_RANK r) in
    let mx := default 0 (maxr !! pid) in
    let m := metrics b entry (strength dr mx) in
    Some (mkUpdate (m_target m) (m_stop m) (m_conf m) (m_roi m)
                   (reason pid risk entry m) now
                   env run_date pid (INSTRUMENT_ID r)).

(** [main], from the table before to the table after the commit; [now]
    is the clock reading of line 61. *)
Definition main (now env run_date : string) (creamy : list CreamyRow)
    : list CreamyRow :=
  let rows := filter (fun r => Is_true (creamy_of env run_date r)) creamy in
  match rows with
  | [] => creamy
  | _ =>
    let updates := omap (enrich_row (maxr rows) now env run_date) rows in
    executemany updates creamy
  end.

End EnricherV2.

(** ** Regular expressions: the fragment of Python's [re] that
    [patch_reason] uses *)

Module Regex.

Definition backslash : ascii := ascii_of_nat 92.
Definition newline : ascii := ascii_of_nat 10.

Inductive Rx :=
  | Eps
  | Lit (c : ascii)
  | Dot
  | Class (members : list ascii) (ranges : list (ascii * ascii))
  | Seq (a b : Rx)
  | Repeat (a : Rx) (lo : nat) (hi : option nat)
  | Eol.

Definition in_class (members : list ascii) (ranges : list (ascii * ascii))
    (c : ascii) : bool :=
  existsb (Ascii.eqb c) members
  || existsb (fun rg => (nat_of_ascii (fst rg) <=? nat_of_ascii c)%nat
                        && (nat_of_ascii c <=? nat_of_ascii (snd rg))%nat) ranges.

Definition more_allowed (hi : option nat) (count : nat) : bool :=
  match hi with
  | None => true
  | Some h => (count <? h)%nat
  end.

(** The loop of a greedy repetition [a{lo,hi}] whose item is matched by
    [m]: one more iteration is tried first, then the continuation [k].
    An iteration has to consume input, which every repeated item of the
    scripts' patterns does; [fuel] bounds the iterations by the length
    of the input. *)
Section repeat.

Variable m : list ascii -> (list ascii -> option (list ascii)) -> option (list ascii).
Variable lo : nat.
Variable hi : option nat.
Variable k : list ascii -> option (list ascii).

Fixpoint rep_go (fuel count : nat) (s : list ascii) : option (list ascii) :=
  let stop := if (lo <=? count)%nat then k s else None in
  match fuel with
  | O => stop
  | Datatypes.S fuel' =>
    if more_allowed hi count then
      match m s (fun s' => if (length s' <? length s)%nat
                           then rep_go fuel' (Datatypes.S count) s' else None) with
      | Some rest => Some rest
      | None => stop
      end
    else stop
  end.

End repeat.

(** Backtracking matcher: [rx_match r s k] matches [r] at the head of
    [s], greedily, and hands the rest of the input to [k]; the result is
    the input left after the whole match. *)
Fixpoint rx_match (r : Rx) (s : list ascii)
    (k : list ascii -> option (list ascii)) {struct r} : option (list ascii) :=
  match r with
  | Eps => k s
  | Lit c =>
    match s with
    | x :: s' => if Ascii.eqb x c then k s' else None
    | [] => None
    end
  | Dot =>
    match s with
    | x :: s' => if Ascii.eqb x newline then None else k s'
    | [] => None
    end
  | Class members ranges =>
    match s with
    | x :: s' => if in_class members ranges x then k s' else None
    | [] => None
    end
  | Seq a b => rx_match a s (fun s' => rx_match b s' k)
  | Repeat a lo hi => rep_go (rx_match a) lo hi k (length s) 0%nat s
  | Eol =>
    match s with
    | [] => k s
    | [x] => if Ascii.eqb x newline then k s else None
    | _ => None
    end
  end.

(** [re.sub(pattern, repl, s)]: the leftmost matches, left to right,
    without overlap, are replaced by [repl]. *)
Fixpoint sub_go (fuel : nat) (r : Rx) (repl s : list ascii) : list ascii :=
  match fuel with
  | O => s
  | Datatypes.S fuel' =>
    match rx_match r s Some with
    | Some rest =>
      if (length rest <? length s)%nat then repl ++ sub_go fuel' r repl rest
      else
        match s with
        | [] => repl
        | c :: s' => repl ++ c :: sub_go fuel' r repl s'
        end
    | None =>
      match s with
      | [] => []
      | c :: s' => c :: sub_go fuel' r repl s'
      end
    end
  end.

Definition re_sub (r : Rx) (repl s : string) : string :=
  string_of_list_ascii
    (sub_go (Datatypes.S (String.length s)) r
            (list_ascii_of_string repl) (list_ascii_of_string s)).

(** Pattern syntax. *)
Fixpoint lit (s : string) : Rx :=
  match s with
  | EmptyString => Eps
  | String c s' => Seq (Lit c) (lit s')
  end.
Definition star (a : Rx) : Rx := Repeat a 0 None.
Definition plus (a : Rx) : Rx := Repeat a 1 None.
Definition opt (a : Rx) : Rx := Repeat a 0 (Some 1%nat).
Definition chr (s : string) : Rx :=
  match s with
  | String c _ => Lit c
  | EmptyString => Eps
  end.
Definition range (lo hi : string) : ascii * ascii :=
  match lo, hi with
  | String a _, String b _ => (a, b)
  | _, _ => (zero, zero)
  end.
Definition digit : Rx := Class [] [range "0" "9"].
Fixpoint seq (rs : list Rx) : Rx :=
  match rs with
  | [] => Eps
  | r :: rs' => Seq r (seq rs')
  end.

End Regex.

(** ** The min-max enricher ([aiw_profile_metrics_enricher_v1.py]) *)

Module EnricherV1.

Import Regex.

Definition clamp (x lo hi : Q) : Q :=
  if Qlt_bool x lo then lo else if Qlt_bool hi x then hi else x.

Record Meta := mkMeta { code : string; name : string; risk_class : Risk }.

(** Lines 62-70: the risk class from the keywords of code and name. *)
Definition infer_risk_class (code name : string) : Risk :=
  let txt := upper (code +:+ " " +:+ name) in
  if contains "ULTRA" txt || contains "HIGH" txt then ULTRA_AGGRESSIVE
  else if contains "AGGR" txt then AGGRESSIVE
  else if contains "CONS" txt || contains "SAFE" txt then CONSERVATIVE
  else BALANCED.

(** Lines 57-72 of [load_profiles], on the rows the [SELECT] of line 56
    returned: the profile identifier and the further selected columns
    (code and name, as far as [guess_col] found them). *)
Definition load_profiles (rows : list (string * list string)) : gmap string Meta :=
  fold_left
    (fun profiles row =>
       let pid := fst row in
       let code := nth 0 (snd row) pid in
       let name := nth 1 (snd row) code in
       <[pid := mkMeta code name (infer_risk_class code name)]> profiles)
    rows ∅.

(** *** Choosing the columns of [AIW_C_PROFILE]

    A pattern of [guess_col]: the literal patterns of lines 42-44 carry
    at most a leading [^], which [search] honours by trying the first
    position only, and a trailing [$], which is [Eol].  Under [re.I] the
    upper-case letters of these patterns match the upper-cased column
    names exactly as without it (column names are taken to be ASCII). *)
Record Pat := mkPat { at_start : bool; body : Rx }.

(** [rx.search(s)] for an unanchored pattern: the leftmost position at
    which the pattern matches. *)
Fixpoint search_go (r : Rx) (s : list ascii) : bool :=
  match rx_match r s Some with
  | Some _ => true
  | None =>
    match s with
    | [] => false
    | _ :: s' => search_go r s'
    end
  end.

Definition search (p : Pat) (s : string) : bool :=
  if at_start p
  then match rx_match (body p) (list_ascii_of_string s) Some with
       | Some _ => true
       | None => false
       end
  else search_go (body p) (list_ascii_of_string s).

(** [d[k] = v] on a dictionary in insertion order: a key already
    present keeps its place and takes the new value. *)
Fixpoint dict_set (d : list (string * string)) (k v : string)
    : list (string * string) :=
  match d with
  | [] => [(k, v)]
  | (k', v') :: d' =>
    if String.eqb k' k then (k', v) :: d' else (k', v') :: dict_set d' k v
  end.

(** Lines 18-20: [cols_u]. *)
Definition cols_u (cols : list string) : list (string * string) :=
  fold_left (fun d c => dict_set d (upper c) c) cols [].

(** Lines 21-26: the first pattern, in order, that some column matches,
    and for it the first such column of [cols_u]. *)
Fixpoint guess_go (d : list (string * string)) (patterns : list Pat) : string :=
  match patterns with
  | [] => ""
  | pat :: rest =>
    match find (fun item => search pat (fst item)) d with
    | Some item => snd item
    | None => guess_go d rest
    end
  end.

Definition guess_col (cols : list string) (patterns : list Pat) : string :=
  guess_go (cols_u cols) patterns.

(** The pattern lists of lines 42-44. *)
Definition pats_profile_id : list Pat :=
  [mkPat true (Seq (lit "PROFILE_ID") Eol); mkPat false (lit "PROFILE_ID");
   mkPat true (Seq (lit "ID") Eol)].
Definition pats_code : list Pat :=
  [mkPat false (lit "PROFILE_CODE"); mkPat false (lit "CODE");
   mkPat false (lit "PROFILE")].
Definition pats_name : list Pat :=
  [mkPat false (lit "PROFILE_NAME"); mkPat false (lit "NAME");
   mkPat false (lit "DESCRIPTION")].

(** The value of column [c] in a row of the table whose columns are
    [cols] (SQLite compares column names without regard to ASCII case);
    the values are given as [str] renders them. *)
Fixpoint column (cols : list string) (row : list string) (c : string) : string :=
  match cols, row with
  | c' :: cols', v :: row' =>
    if String.eqb (upper c') (upper c) then v else column cols' row' c
  | _, _ => ""
  end.

(** Lines 32-74: [load_profiles(conn)], on the columns [table_cols]
    returns for [AIW_C_PROFILE] and the rows of that table. *)
Definition load_profiles_db (cols : list string) (table : list (list string))
    : gmap string Meta :=
  match cols with
  | [] => ∅
  | _ =>
    let c_profile_id := guess_col cols pats_profile_id in
    let c_code := guess_col cols pats_code in
    let c_name := guess_col cols pats_name in
    if String.eqb c_profile_id "" then ∅
    else
      let sel :=
        (if String.eqb c_code "" then [] else [c_code])
          ++ (if String.eqb c_name "" then [] else [c_name]) in
      load_profiles
        (map (fun row => (column cols row c_profile_id, map (column cols row) sel))
             table)
  end.

(** [risk_params]: (min_roi_pct, max_roi_pct, rr_target). *)
Definition risk_params (risk_class : Risk) : Q * Q * Q :=
  match risk_class with
  | CONSERVATIVE => (1.5, 4.0, 2.2)%Q
  | BALANCED => (2.0, 7.0, 1.8)%Q
  | AGGRESSIVE => (3.0, 12.0, 1.5)%Q
  | ULTRA_AGGRESSIVE => (4.0, 18.0, 1.3)%Q
  end.

(** [norm_score], on rationals: the overflow of [smax - smin] for
    doubles of opposite sign near 1e308, and the NaN that follows, have
    no counterpart here. *)
Definition norm_score (score smin smax : Q) : Q :=
  if Qle_bool smax smin then 0.5%Q
  else clamp ((score - smin) / (smax - smin)) 0.0 1.0.

(** The five patterns of [patch_reason], read the way [re] reads them:
    in the raw strings of the source every backslash is doubled, which
    [re] takes as one literal backslash followed by an ordinary [s] or
    [d], or, in the last pattern, by a character class. *)
Definition bs : Rx := Lit backslash.

Definition rx_expected : Rx :=
  seq [lit "Expected return about"; bs; plus (chr "s"); plus digit;
       opt (seq [bs; Dot; plus digit]); chr "%"].

Definition rx_conf_float : Rx :=
  seq [lit "confidence"; bs; plus (chr "s"); star digit; bs; Dot; plus digit].

Definition rx_conf_int : Rx :=
  seq [lit "confidence"; bs; plus (chr "s"); bs;
       Repeat (chr "d") 1 (Some 3%nat); lit "/100"].

Definition rx_bucket : Rx :=
  seq [lit "Risk bucket:"; bs; star (chr "s");
       plus (Class (list_ascii_of_string "_") [range "A" "Z"])].

Definition rx_conf_tag : Rx :=
  seq [bs; star (chr "s"); bs;
       Class (list_ascii_of_string "CONF=" ++ [backslash]
              ++ list_ascii_of_string "d+/100" ++ [backslash]) [];
       bs; star (chr "s"); Eol].

(** The text line 101 appends. *)
Definition reason_tag (conf : Z) (bucket : string) (rr : Q) : string :=
  " [CONF=" +:+ fmt_int conf +:+ "/100][RR=" +:+ fmt2 rr +:+ "][RB="
  +:+ bucket +:+ "]".

Definition patch_reason (reason : string) (roi : Q) (conf : Z)
    (bucket : string) (rr : Q) : string :=
  let r := reason in
  let r := re_sub rx_expected ("Expected return about " +:+ fmt2 roi +:+ "%") r in
  let r := re_sub rx_conf_float ("confidence " +:+ fmt_int conf +:+ "/100") r in
  let r := re_sub rx_conf_int ("confidence " +:+ fmt_int conf +:+ "/100") r in
  let r := re_sub rx_bucket ("Risk bucket: " +:+ bucket) r in
  let r := re_sub rx_conf_tag "" r in
  rstrip r +:+ reason_tag conf bucket rr.

(** Lines 150-162: the economics of one candidate from its normalised
    score [n]. *)
Record Metrics := mkMetrics {
  m_roi : Q;
  m_target : Q;
  m_stop : Q;
  m_conf : Z;
  m_rr : Q
}.

Definition metrics (risk_class : Risk) (entry n : Q) : Metrics :=
  let '(roi_min, roi_max, rr_target) := risk_params risk_class in
  let roi := round_digits (roi_min + (roi_max - roi_min) * n) 2 in
  let sl_pct := (roi / rr_target)%Q in
  let target := (entry * (1.0 + roi / 100.0))%Q in
  let stop := (entry * (1.0 - sl_pct / 100.0))%Q in
  let conf0 := (50.0 + n * 35.0 + (rr_target - 1.0) * 10.0)%Q in
  let conf := round_half_even (clamp conf0 1.0 99.0) in
  let rr := if Qlt_bool stop entry && Qlt_bool entry target
            then ((target - entry) / (entry - stop))%Q else 0.0%Q in
  mkMetrics roi target stop conf rr.

(** Lines 149-195: the body of [for r in plist], the parameters of the
    [UPDATE] it executes. *)
Definition enrich_row (now env date pid : string) (risk_class : Risk)
    (smin smax : Q) (r : CreamyRow) : Update :=
  let entry := default 0%Q (ENTRY_PRICE r) in
  let score := default 0%Q (RANKING_SCORE r) in
  let n := norm_score score smin smax in
  let m := metrics risk_class entry n in
  let new_reason :=
    patch_reason (default "" (AI_REASON r)) (m_roi m) (m_conf m)
                 (risk_name risk_class) (m_rr m) in
  mkUpdate (m_target m) (m_stop m) (inject_Z (m_conf m)) (m_roi m)
           new_reason now env date pid (INSTRUMENT_ID r).

(** Lines 139-195: the body of [for pid, plist in by_profile.items()]. *)
Definition enrich_group (now env date : string) (profiles : gmap string Meta)
    (item : string * list CreamyRow) : list Update :=
  let pid := fst item in
  let plist := snd item in
  let meta := default (mkMeta pid pid BALANCED) (profiles !! pid) in
  let scores := map (fun x => default 0%Q (RANKING_SCORE x)) plist in
  match scores with
  | [] => []
  | s0 :: ss =>
    let smin := min_of s0 ss in
    let smax := max_of s0 ss in
    map (enrich_row now env date pid (risk_class meta) smin smax) plist
  end.

(** [main], from the table before to the table after the commit; [now]
    stands for the readings of [now_iso()]. *)
Definition main (now env date : string) (profiles : gmap string Meta)
    (creamy : list CreamyRow) : list CreamyRow :=
  let rows := filter (fun r => Is_true (creamy_of env date r)) creamy in
  match rows with
  | [] => creamy
  | _ =>
    let by_profile := fold_left setdefault_append rows [] in
    executemany (concat (map (enrich_group now env date profiles) by_profile))
                creamy
  end.

End EnricherV1.

(** ** Profile expansion ([aiw_expand_creamy_to_all_profiles_v1.py]) *)

Module Expand.

(** Lines 18-25: the selected rows grouped by profile with their count,
    [ORDER BY c DESC, PROFILE_ID ASC LIMIT 1]. *)
Definition count_of (rows : list CreamyRow) (pid : string) : nat :=
  length (filter (fun r => PROFILE_ID r = pid) rows).

Definition group_leb (a b : string * nat) : bool :=
  (snd b <? snd a)%nat
  || ((snd a =? snd b)%nat && String.leb (fst a) (fst b)).
Definition group_le (a b : string * nat) : Prop := Is_true (group_leb a b).
#[global] Instance group_le_dec : RelDecision group_le.
Proof. intros a b. unfold group_le. apply _. Defined.

Definition base_profile (creamy : list CreamyRow) (env date : string)
    : option string :=
  let rows := filter (fun r => Is_true (creamy_of env date r)) creamy in
  let groups :=
    map (fun pid => (pid, count_of rows pid))
        (remove_dups (map PROFILE_ID rows)) in
  fst <$> head (merge_sort group_le groups).

(** Lines 62-68: the row cloned for profile [pid]. *)
Definition clone (pid now : string) (r : CreamyRow) : CreamyRow :=
  mkCreamy (ENV_CODE r) (RUN_DATE r) pid (INSTRUMENT_ID r)
           (BROKER_CODE r) (DIRECTION r) (QUANTITY r) (ENTRY_PRICE r)
           (TARGET_PRICE r) (STOP_LOSS r) (CONFIDENCE r)
           (EXPECTED_RETURN_PCT r) (AI_RECOMMENDATION r) (AI_REASON r)
           (RANKING_SCORE r) (IS_CREAMY r) (DISPLAY_RANK r)
           (Some (default now (CREATED_AT r))) (Some now).

(** Lines 42-70: the body of [for pid in all_profiles], on the table
    and the counter [created]. *)
Definition expand_profile (env date base now : string)
    (state : list CreamyRow * nat) (pid : string) : list CreamyRow * nat :=
  let '(creamy, created) := state in
  if String.eqb pid base then state
  else
    let exists_ :=
      length (filter (fun r => Is_true (creamy_of env date r
                                        && String.eqb (PROFILE_ID r) pid)) creamy) in
    if (0 <? exists_)%nat then state
    else
      let cloned :=
        map (clone pid now)
            (filter (fun r => Is_true (creamy_of env date r
                                       && String.eqb (PROFILE_ID r) base)) creamy) in
      (creamy ++ cloned, (created + length cloned)%nat).

(** [main]: [profiles] is the [PROFILE_ID] column of [AIW_C_PROFILE];
    the result is the table after the commit and the count printed. *)
Definition main (now env date : string) (profiles : list string)
    (creamy : list CreamyRow) : list CreamyRow * nat :=
  match base_profile creamy env date with
  | None => (creamy, 0%nat)
  | Some base =>
    let all_profiles := merge_sort String.le profiles in
    match all_profiles with
    | [] => (creamy, 0%nat)
    | _ => fold_left (expand_profile env date base now) all_profiles (creamy, 0%nat)
    end
  end.

End Expand.

(** ** Vocabulary of the statements *)

(** What the outcome counters of a profile add up to, by policy: under
    [stop_first] an ambiguous trade is counted as ambiguous and as a
    stop hit. *)
Definition counted (rule : Backtest.AmbRule) (st : Backtest.Stat) : Prop :=
  match rule with
  | Backtest.stop_first =>
    Backtest.tgt_hit st + Backtest.sl_hit st + Backtest.none st = Backtest.n st
  | _ =>
    Backtest.tgt_hit st + Backtest.sl_hit st + Backtest.amb st + Backtest.none st
    = Backtest.n st
  end.

Definition all_counted (rule : Backtest.AmbRule)
    (stats : gmap string Backtest.Stat) : Prop :=
  forall pid st, stats !! pid = Some st -> counted rule st.

(** The key of the candidates table. *)
Definition row_key (r : CreamyRow) : string * string * string * string :=
  (ENV_CODE r, RUN_DATE r, PROFILE_ID r, INSTRUMENT_ID r).

(** The table is keyed: no two rows share a key. *)
Definition keyed (creamy : list CreamyRow) : Prop :=
  forall r1 r2, r1 ∈ creamy -> r2 ∈ creamy -> row_key r1 = row_key r2 -> r1 = r2.

(** What a sequence of updates does to one row. *)
Definition apply_updates (us : list Update) (r : CreamyRow) : CreamyRow :=
  fold_left (fun r u => if update_matches u r then set_metrics u r else r) us r.

(** The last update of a sequence that addresses the row. *)
Definition last_match (us : list Update) (r : CreamyRow) : option Update :=
  fold_left (fun acc u => if update_matches u r then Some u else acc) us None.

(** The columns no update touches. *)
Definition same_inputs (r r' : CreamyRow) : Prop :=
  row_key r = row_key r' /\ IS_CREAMY r = IS_CREAMY r'
  /\ ENTRY_PRICE r = ENTRY_PRICE r' /\ DISPLAY_RANK r = DISPLAY_RANK r'
  /\ RANKING_SCORE r = RANKING_SCORE r'.

Definition set_now (now : string) (u : Update) : Update :=
  mkUpdate (u_target u) (u_stop u) (u_conf u) (u_roi u) (u_reason u) now
           (u_env u) (u_date u) (u_pid u) (u_instrument u).

(** A row without its update timestamp. *)
Definition forget_timestamp (r : CreamyRow) : CreamyRow :=
  mkCreamy (ENV_CODE r) (RUN_DATE r) (PROFILE_ID r) (INSTRUMENT_ID r)
           (BROKER_CODE r) (DIRECTION r) (QUANTITY r) (ENTRY_PRICE r)
           (TARGET_PRICE r) (STOP_LOSS r) (CONFIDENCE r)
           (EXPECTED_RETURN_PCT r) (AI_RECOMMENDATION r) (AI_REASON r)
           (RANKING_SCORE r) (IS_CREAMY r) (DISPLAY_RANK r) (CREATED_AT r) None.

(** The profile has a selected row for the pair in the table. *)
Definition has_selected (env date pid : string) (creamy : list CreamyRow) : Prop :=
  exists r, r ∈ creamy
            /\ Is_true (creamy_of env date r && String.eqb (PROFILE_ID r) pid).

(** The characters of a string. *)
Definition chars (s : string) : list ascii := list_ascii_of_string s.

(** Every match of the pattern consumes the character [c]. *)
Fixpoint demands (c : ascii) (r : Regex.Rx) : bool :=
  match r with
  | Regex.Lit c' => Ascii.eqb c' c
  | Regex.Seq a b => demands c a || demands c b
  | Regex.Repeat a lo _ => (0 <? lo)%nat && demands c a
  | _ => false
  end.

(** The two tests of lines 43-52 of the expansion script on the table
    before the run: the profile is not the base profile and has no
    selected row. *)
Definition to_clone (env date base : string) (creamy : list CreamyRow)
    (pid : string) : bool :=
  negb (String.eqb pid base)
  && negb (0 <? length (filter (fun r => Is_true (creamy_of env date r
                                   && String.eqb (PROFILE_ID r) pid)) creamy))%nat.

(** The thirteen columns the enrichers' [UPDATE] does not set. *)
Definition untouched (r r' : CreamyRow) : Prop :=
  ENV_CODE r' = ENV_CODE r /\ RUN_DATE r' = RUN_DATE r
  /\ PROFILE_ID r' = PROFILE_ID r /\ INSTRUMENT_ID r' = INSTRUMENT_ID r
  /\ BROKER_CODE r' = BROKER_CODE r /\ DIRECTION r' = DIRECTION r
  /\ QUANTITY r' = QUANTITY r /\ ENTRY_PRICE r' = ENTRY_PRICE r
  /\ AI_RECOMMENDATION r' = AI_RECOMMENDATION r
  /\ RANKING_SCORE r' = RANKING_SCORE r /\ IS_CREAMY r' = IS_CREAMY r
  /\ DISPLAY_RANK r' = DISPLAY_RANK r /\ CREATED_AT r' = CREATED_AT r.

(** * Properties *)

(** ** Numeric facts *)

Section NumFacts.

Lemma Qlt_bool_iff x y : Qlt_bool x y = true <-> (x < y)%Q.
Proof.
  unfold Qlt_bool. rewrite negb_true_iff.
  destruct (Qle_bool y x) eqn:E.
  - apply Qle_bool_iff in E. split; [discriminate | intros H; exfalso; lra].
  - split; [intros _ | reflexivity].
    apply Qnot_le_lt. intros H. apply Qle_bool_iff in H. congruence.
Qed.

Lemma Qlt_bool_false x y : Qlt_bool x y = false <-> (y <= x)%Q.
Proof.
  unfold Qlt_bool. rewrite negb_false_iff. apply Qle_bool_iff.
Qed.

Lemma Qeq_bool_false x y : Qeq_bool x y = false <-> ~ (x == y)%Q.
Proof.
  split.
  - apply Qeq_bool_neq.
  - intros H. destruct (Qeq_bool x y) eqn:E; [|reflexivity].
    apply Qeq_bool_iff in E. contradiction.
Qed.

Lemma Qlt_bool_comp x x' y y' :
  (x == x')%Q -> (y == y')%Q -> Qlt_bool x y = Qlt_bool x' y'.
Proof.
  intros Hx Hy.
  destruct (Qlt_bool x y) eqn:E, (Qlt_bool x' y') eqn:E'; try reflexivity.
  - apply Qlt_bool_iff in E. apply Qlt_bool_false in E'. lra.
  - apply Qlt_bool_false in E. apply Qlt_bool_iff in E'. lra.
Qed.

(** Rounding does not depend on the fraction that represents the
    number. *)
Lemma round_half_even_comp x y :
  (x == y)%Q -> round_half_even x = round_half_even y.
Proof.
  intros E. unfold round_half_even.
  assert (Ef : Qfloor x = Qfloor y) by (by rewrite E).
  rewrite Ef.
  assert (Ed : (x - inject_Z (Qfloor y) == y - inject_Z (Qfloor y))%Q)
    by (by rewrite E).
  rewrite (Qlt_bool_comp _ _ _ _ Ed (Qeq_refl (1 # 2))).
  rewrite (Qlt_bool_comp _ _ _ _ (Qeq_refl (1 # 2)) Ed).
  reflexivity.
Qed.

Lemma round_digits_comp x y k :
  (x == y)%Q -> round_digits x k = round_digits y k.
Proof.
  intros E. unfold round_digits.
  set (scale := inject_Z (10 ^ Z.of_nat k)).
  assert (Es : (x * scale == y * scale)%Q) by (by rewrite E).
  by rewrite (round_half_even_comp _ _ Es).
Qed.

End NumFacts.

(** ** The simulator *)

Section BacktestFacts.

Import Backtest.

Lemma hit_t_nonpositive target mh : (target <= 0)%Q -> hit_t target mh = false.
Proof.
  intros H. unfold hit_t. apply Qlt_bool_false in H. rewrite H. reflexivity.
Qed.

Lemma hit_s_nonpositive stop ml : (stop <= 0)%Q -> hit_s stop ml = false.
Proof.
  intros H. unfold hit_s. apply Qlt_bool_false in H. rewrite H. reflexivity.
Qed.

(** The counters [count_candidate] leaves alone. *)
Lemma trade_unfold rule rd eods r st :
  trade rule rd eods r st =
  outcome rule (f (ENTRY_PRICE r)) (f (TARGET_PRICE r)) (f (STOP_LOSS r)) eods
    (count_candidate rd
       (f (EXPECTED_RETURN_PCT r)
        - (if Qeq_bool (f (ENTRY_PRICE r)) 0 then 0
           else pct (f (ENTRY_PRICE r) - f (STOP_LOSS r)) (f (ENTRY_PRICE r))))%Q
       (f (CONFIDENCE r)) (f (EXPECTED_RETURN_PCT r)) st).
Proof. reflexivity. Qed.

(** The four branches of the classification. *)
Lemma outcome_no_bars rule e t s st :
  outcome rule e t s [] st = bump st 0 0 0 1 0 0 None.
Proof. reflexivity. Qed.

Lemma outcome_ambiguous rule e t s x xs st :
  hit_t t (max_high x xs) = true -> hit_s s (min_low x xs) = true ->
  outcome rule e t s (x :: xs) st =
  match rule with
  | skip => bump st 0 0 1 0 0 0 None
  | half_half => bump st 0 0 1 0 0 0 (Some ((1 # 2) * (ret_pct t e + ret_pct s e))%Q)
  | stop_first => bump st 0 1 1 0 0 1 (Some (ret_pct s e))
  end.
Proof. intros Ht Hs. unfold outcome. rewrite Ht, Hs. reflexivity. Qed.

Lemma outcome_target_hit rule e t s x xs st :
  hit_t t (max_high x xs) = true -> hit_s s (min_low x xs) = false ->
  outcome rule e t s (x :: xs) st = bump st 1 0 0 0 1 0 (Some (ret_pct t e)).
Proof. intros Ht Hs. unfold outcome. rewrite Ht, Hs. reflexivity. Qed.

Lemma outcome_stop_hit rule e t s x xs st :
  hit_t t (max_high x xs) = false -> hit_s s (min_low x xs) = true ->
  outcome rule e t s (x :: xs) st = bump st 0 1 0 0 0 1 (Some (ret_pct s e)).
Proof. intros Ht Hs. unfold outcome. rewrite Ht, Hs. reflexivity. Qed.

Lemma outcome_none rule e t s x xs st :
  hit_t t (max_high x xs) = false -> hit_s s (min_low x xs) = false ->
  outcome rule e t s (x :: xs) st =
  bump st 0 0 0 1 0 0 (Some (ret_pct (close_last x xs) e)).
Proof. intros Ht Hs. unfold outcome. rewrite Ht, Hs. reflexivity. Qed.

(** Goals on the fields of a bumped accumulator. *)
Ltac stat_field :=
  cbn [bump count_candidate days n sum_edge sum_conf sum_roi tgt_hit sl_hit
       amb none win lose sum_realized andb];
  try lia; try reflexivity.

(** C1. The scenario of one candidate with entry 100, target 110 and
    stop 95 and one forward bar, evaluated on the loop body for every
    stored expected return, confidence, closing price and accumulator.
    With high 112 and low 97 the trade is a target hit with realized
    return +10 under every policy.  With low 94 it is ambiguous: the
    realized return is -5 under [stop_first] and 2.5 under [half_half].
    Under [skip] nothing is added to the realized sum, but the trade has
    already been counted: the trade count grows by one and the edge,
    confidence and expected-return sums receive the candidate's values,
    so it is not excluded from all sums. *)
Theorem C1_scenario (rule : AmbRule) (rd : string) (roi conf close : Q) (st : Stat) :
  let c := cand 100 110 95 roi conf in
  let hit := trade rule rd [bar 112 97 close] c st in
  let both := fun r => trade r rd [bar 112 94 close] c st in
  (tgt_hit hit = tgt_hit st + 1 /\ win hit = win st + 1
   /\ sl_hit hit = sl_hit st /\ amb hit = amb st /\ none hit = none st
   /\ lose hit = lose st /\ (sum_realized hit == sum_realized st + 10)%Q)
  /\ (amb (both stop_first) = amb st + 1
      /\ sl_hit (both stop_first) = sl_hit st + 1
      /\ (sum_realized (both stop_first) == sum_realized st + -5)%Q)
  /\ (amb (both half_half) = amb st + 1
      /\ (sum_realized (both half_half) == sum_realized st + 2.5)%Q)
  /\ (amb (both skip) = amb st + 1
      /\ sum_realized (both skip) = sum_realized st
      /\ n (both skip) = n st + 1
      /\ (sum_edge (both skip) == sum_edge st + (roi - 5))%Q
      /\ (sum_conf (both skip) == sum_conf st + conf)%Q
      /\ (sum_roi (both skip) == sum_roi st + roi)%Q
      /\ rd ∈ days (both skip)).
Proof.
  intros c hit both. subst c hit both.
  rewrite !trade_unfold. cbn [cand bar ENTRY_PRICE TARGET_PRICE STOP_LOSS
    EXPECTED_RETURN_PCT CONFIDENCE f].
  rewrite (outcome_target_hit rule) by reflexivity.
  rewrite !outcome_ambiguous by reflexivity.
  repeat split; stat_field.
  - apply Qplus_comp; reflexivity.
  - apply Qplus_comp; reflexivity.
  - apply Qplus_comp; reflexivity.
  - apply Qplus_comp; [reflexivity|]. apply Qplus_comp; reflexivity.
  - set_solver.
Qed.

(** C2. Under [skip], a candidate whose forward window touches both its
    target and its stop adds nothing to the realized-return sum and to
    the target-hit, stop-hit, none, win and loss counters.  It is not
    excluded from the aggregates, though: lines 78-93 have counted it
    before the window is looked at, so the trade count and the
    ambiguous counter grow by one, its run date is recorded, and the
    edge, confidence and expected-return sums receive its values. *)
Theorem C2_skip_counted (rd : string) (r : CreamyRow) (x : EodRow)
    (xs : list EodRow) (st : Stat) :
  hit_t (f (TARGET_PRICE r)) (max_high x xs) = true ->
  hit_s (f (STOP_LOSS r)) (min_low x xs) = true ->
  let st' := trade skip rd (x :: xs) r st in
  let entry := f (ENTRY_PRICE r) in
  let downside := if Qeq_bool entry 0 then 0%Q
                  else pct (entry - f (STOP_LOSS r)) entry in
  (sum_realized st' = sum_realized st /\ tgt_hit st' = tgt_hit st
   /\ sl_hit st' = sl_hit st /\ none st' = none st
   /\ win st' = win st /\ lose st' = lose st)
  /\ n st' = n st + 1
  /\ amb st' = amb st + 1
  /\ days st' = {[rd]} ∪ days st
  /\ sum_edge st' = (sum_edge st + (f (EXPECTED_RETURN_PCT r) - downside))%Q
  /\ sum_conf st' = (sum_conf st + f (CONFIDENCE r))%Q
  /\ sum_roi st' = (sum_roi st + f (EXPECTED_RETURN_PCT r))%Q.
Proof.
  intros Ht Hs st' entry downside. subst st' entry downside.
  rewrite trade_unfold, outcome_ambiguous by assumption.
  repeat split; stat_field.
Qed.

Lemma C2_skip_counted_witness :
  let st' := trade skip "2025-12-01" [bar 112 94 100] (cand 100 110 95 8 70) new_stat in
  n st' = 1 /\ amb st' = 1 /\ (sum_edge st' == 3)%Q /\ (sum_conf st' == 70)%Q
  /\ (sum_roi st' == 8)%Q /\ sum_realized st' = 0%Q.
Proof.
  destruct (C2_skip_counted "2025-12-01" (cand 100 110 95 8 70)
              (bar 112 94 100) [] new_stat eq_refl eq_refl)
    as [[Hr _] [Hn [Ha [_ [He [Hc Hroi]]]]]].
  cbv zeta. rewrite Hn, Ha, He, Hc, Hroi, Hr.
  repeat split; reflexivity.
Defined.

Lemma outcome_target_nonpositive rule e t s eods st :
  (t <= 0)%Q ->
  tgt_hit (outcome rule e t s eods st) = tgt_hit st
  /\ win (outcome rule e t s eods st) = win st.
Proof.
  intros Ht. destruct eods as [|x xs]; [rewrite outcome_no_bars; split; stat_field|].
  pose proof (hit_t_nonpositive _ (max_high x xs) Ht) as Hf.
  destruct (hit_s s (min_low x xs)) eqn:Es;
    [rewrite outcome_stop_hit by assumption
    |rewrite outcome_none by assumption]; split; stat_field.
Qed.

Lemma outcome_stop_nonpositive rule e t s eods st :
  (s <= 0)%Q ->
  sl_hit (outcome rule e t s eods st) = sl_hit st
  /\ lose (outcome rule e t s eods st) = lose st.
Proof.
  intros Hs. destruct eods as [|x xs]; [rewrite outcome_no_bars; split; stat_field|].
  pose proof (hit_s_nonpositive _ (min_low x xs) Hs) as Hf.
  destruct (hit_t t (max_high x xs)) eqn:Et;
    [rewrite outcome_target_hit by assumption
    |rewrite outcome_none by assumption]; split; stat_field.
Qed.

(** [eods[-1]] is the last bar of the list. *)
Lemma close_last_snoc (x : EodRow) (xs pre : list EodRow) (last : EodRow) :
  x :: xs = pre ++ [last] -> close_last x xs = f (CLOSE_PRICE last).
Proof.
  unfold close_last. intros E. f_equal. f_equal.
  destruct pre as [|p pre]; cbn in E.
  - injection E as -> ->. reflexivity.
  - injection E as -> ->. apply List.last_last.
Qed.

Lemma outcome_both_nonpositive rule e t s eods st :
  (t <= 0)%Q -> (s <= 0)%Q ->
  none (outcome rule e t s eods st) = none st + 1
  /\ amb (outcome rule e t s eods st) = amb st
  /\ forall pre last, eods = pre ++ [last] ->
       sum_realized (outcome rule e t s eods st) =
       (sum_realized st + ret_pct (f (CLOSE_PRICE last)) e)%Q.
Proof.
  intros Ht Hs. destruct eods as [|x xs].
  - rewrite outcome_no_bars. repeat split; stat_field.
    intros pre last E. by destruct pre.
  - rewrite outcome_none
      by (apply hit_t_nonpositive || apply hit_s_nonpositive; assumption).
    repeat split; stat_field. intros pre last E.
    by rewrite (close_last_snoc x xs pre last E).
Qed.

(** C10. A stored target price that is not positive ([NULL] counting as
    0) never yields a target hit, and a stored stop that is not
    positive never yields a stop hit, whatever the bars are; when both
    are not positive the outcome is "none", and with at least one bar
    the realized return is the one computed from the close of the last
    bar of the window. *)
Theorem C10_nonpositive_levels (rule : AmbRule) (rd : string) (r : CreamyRow)
    (eods : list EodRow) (st : Stat) :
  let st' := trade rule rd eods r st in
  ((f (TARGET_PRICE r) <= 0)%Q ->
     tgt_hit st' = tgt_hit st /\ win st' = win st
     /\ forall mh, hit_t (f (TARGET_PRICE r)) mh = false)
  /\ ((f (STOP_LOSS r) <= 0)%Q ->
        sl_hit st' = sl_hit st /\ lose st' = lose st
        /\ forall ml, hit_s (f (STOP_LOSS r)) ml = false)
  /\ ((f (TARGET_PRICE r) <= 0)%Q -> (f (STOP_LOSS r) <= 0)%Q ->
        none st' = none st + 1 /\ amb st' = amb st
        /\ forall pre last, eods = pre ++ [last] ->
             sum_realized st' =
             (sum_realized st
              + ret_pct (f (CLOSE_PRICE last)) (f (ENTRY_PRICE r)))%Q).
Proof.
  intros st'. subst st'. rewrite trade_unfold.
  split; [|split].
  - intros Ht.
    destruct (outcome_target_nonpositive rule (f (ENTRY_PRICE r)) _
                (f (STOP_LOSS r)) eods (count_candidate rd
       (f (EXPECTED_RETURN_PCT r)
        - (if Qeq_bool (f (ENTRY_PRICE r)) 0 then 0
           else pct (f (ENTRY_PRICE r) - f (STOP_LOSS r)) (f (ENTRY_PRICE r))))%Q
       (f (CONFIDENCE r)) (f (EXPECTED_RETURN_PCT r)) st) Ht) as [-> ->].
    repeat split. intros mh. by apply hit_t_nonpositive.
  - intros Hs.
    destruct (outcome_stop_nonpositive rule (f (ENTRY_PRICE r))
                (f (TARGET_PRICE r)) _ eods (count_candidate rd
       (f (EXPECTED_RETURN_PCT r)
        - (if Qeq_bool (f (ENTRY_PRICE r)) 0 then 0
           else pct (f (ENTRY_PRICE r) - f (STOP_LOSS r)) (f (ENTRY_PRICE r))))%Q
       (f (CONFIDENCE r)) (f (EXPECTED_RETURN_PCT r)) st) Hs) as [-> ->].
    repeat split. intros ml. by apply hit_s_nonpositive.
  - intros Ht Hs.
    destruct (outcome_both_nonpositive rule (f (ENTRY_PRICE r)) _ _ eods
                (count_candidate rd
       (f (EXPECTED_RETURN_PCT r)
        - (if Qeq_bool (f (ENTRY_PRICE r)) 0 then 0
           else pct (f (ENTRY_PRICE r) - f (STOP_LOSS r)) (f (ENTRY_PRICE r))))%Q
       (f (CONFIDENCE r)) (f (EXPECTED_RETURN_PCT r)) st) Ht Hs) as (-> & -> & H).
    repeat split. intros pre last E. by rewrite (H pre last E).
Qed.

Lemma C10_nonpositive_levels_witness :
  let later := mkEod "I1" "2025-12-03" (Some 111%Q) (Some 96%Q) (Some 105%Q) in
  let st' := trade stop_first "2025-12-01" [bar 112 94 103; later]
               (cand 100 0 (-1) 8 70) new_stat in
  tgt_hit st' = 0 /\ sl_hit st' = 0 /\ none st' = 1
  /\ (sum_realized st' == 5)%Q.
Proof.
  intros later.
  pose proof (C10_nonpositive_levels stop_first "2025-12-01"
                (cand 100 0 (-1) 8 70) [bar 112 94 103; later] new_stat) as H.
  cbv zeta in H. destruct H as (H1 & H2 & H3).
  assert (Ht : (f (TARGET_PRICE (cand 100 0 (-1) 8 70)) <= 0)%Q) by (cbn; lra).
  assert (Hs : (f (STOP_LOSS (cand 100 0 (-1) 8 70)) <= 0)%Q) by (cbn; lra).
  destruct (H1 Ht) as (T1 & _ & _). destruct (H2 Hs) as (S1 & _ & _).
  destruct (H3 Ht Hs) as (N1 & _ & R1).
  cbv zeta. rewrite T1, S1, N1, (R1 [bar 112 94 103] later eq_refl).
  repeat split; reflexivity.
Defined.

(** *** The counters of a whole run *)

Lemma fold_left_preserves {A B} (P : A -> Prop) (g : A -> B -> A) l a :
  P a -> (forall a x, P a -> P (g a x)) -> P (fold_left g l a).
Proof.
  intros Ha Hg. revert a Ha.
  induction l as [|x l IH]; intros a Ha; cbn; [assumption|].
  apply IH, Hg, Ha.
Qed.

Lemma trade_counted rule rd eods r st :
  counted rule st -> counted rule (trade rule rd eods r st).
Proof.
  intros H. rewrite trade_unfold.
  set (st0 := count_candidate _ _ _ _ _).
  assert (H0 : n st0 = n st + 1 /\ tgt_hit st0 = tgt_hit st
               /\ sl_hit st0 = sl_hit st /\ amb st0 = amb st
               /\ none st0 = none st) by (repeat split; reflexivity).
  clearbody st0. destruct H0 as (E1 & E2 & E3 & E4 & E5).
  destruct eods as [|x xs].
  - rewrite outcome_no_bars. destruct rule; unfold counted in *; stat_field.
  - destruct (hit_t (f (TARGET_PRICE r)) (max_high x xs)) eqn:Et,
             (hit_s (f (STOP_LOSS r)) (min_low x xs)) eqn:Es.
    + rewrite outcome_ambiguous by assumption.
      destruct rule; unfold counted in *; stat_field.
    + rewrite outcome_target_hit by assumption.
      destruct rule; unfold counted in *; stat_field.
    + rewrite outcome_stop_hit by assumption.
      destruct rule; unfold counted in *; stat_field.
    + rewrite outcome_none by assumption.
      destruct rule; unfold counted in *; stat_field.
Qed.

Lemma trade_n rule rd eods r st : n (trade rule rd eods r st) = n st + 1.
Proof.
  rewrite trade_unfold.
  set (st0 := count_candidate _ _ _ _ _).
  assert (H0 : n st0 = n st + 1) by reflexivity. clearbody st0.
  unfold outcome. destruct eods as [|x xs]; [stat_field|]. cbv zeta.
  destruct (hit_t _ _), (hit_s _ _), rule; stat_field.
Qed.

Lemma counted_new rule : counted rule new_stat.
Proof. destruct rule; reflexivity. Qed.

Lemma counted_S rule stats pid :
  all_counted rule stats -> counted rule (S stats pid).
Proof.
  intros H. unfold S. destruct (stats !! pid) as [st|] eqn:E; cbn.
  - by apply (H pid).
  - apply counted_new.
Qed.

Lemma run_stats_counted a creamy eod run_dates :
  all_counted (arg_amb_rule a) (run_stats a creamy eod run_dates).
Proof.
  unfold run_stats. apply fold_left_preserves.
  - intros pid st. rewrite lookup_empty. discriminate.
  - intros stats rd Hs. unfold run_day. apply fold_left_preserves; [assumption|].
    intros stats1 item Hs1. unfold run_take.
    apply fold_left_preserves; [assumption|].
    intros stats2 r Hs2 pid st.
    destruct (decide (item.1 = pid)) as [->|Hne].
    + rewrite lookup_insert_eq. intros [= <-].
      by apply trade_counted, counted_S.
    + rewrite lookup_insert_ne by assumption. apply Hs2.
Qed.

(** The rows of the summary are the profiles with a non-zero count. *)
Lemma elem_of_rows_out rule stats row :
  row ∈ rows_out rule stats <->
  exists pid st, stats !! pid = Some st /\ n st <> 0
                 /\ row = summary_row rule pid st.
Proof.
  unfold rows_out.
  change (map ?g ?l) with (g <$> l).
  rewrite list_elem_of_fmap. split.
  - intros ([pid st] & -> & Hin).
    apply list_elem_of_filter in Hin as [Hn Hin].
    rewrite merge_sort_Permutation in Hin.
    apply elem_of_map_to_list in Hin. by exists pid, st.
  - intros (pid & st & Hl & Hn & ->).
    exists (pid, st). split; [reflexivity|].
    apply list_elem_of_filter. split; [assumption|].
    rewrite merge_sort_Permutation. by apply elem_of_map_to_list.
Qed.

Lemma main_rows md a creamy eod row :
  row ∈ result_rows (main md a creamy eod) ->
  exists mx start,
    max_run_date creamy (arg_env a) = Some mx /\ mx <> EmptyString
    /\ md mx (arg_days a) = Some start
    /\ row ∈ rows_out (arg_amb_rule a)
              (run_stats a creamy eod
                 (window_run_dates creamy (arg_env a) start)).
Proof.
  unfold main. destruct (max_run_date creamy (arg_env a)) as [mx|]; cbn.
  - destruct (String.eqb mx "") eqn:E; cbn; [by intros ?%elem_of_nil|].
    apply String.eqb_neq in E.
    destruct (md mx (arg_days a)) as [start|] eqn:Hmd;
      [|by intros ?%elem_of_nil].
    intros H. exists mx, start.
    split; [reflexivity|]. split; [exact E|].
    split; [first [exact Hmd|reflexivity]|exact H].
  - by intros ?%elem_of_nil.
Qed.

Lemma pct_nonzero (c k : Z) :
  k <> 0 -> (pct (inject_Z c) (inject_Z k) == inject_Z c / inject_Z k * 100)%Q.
Proof.
  intros Hk. unfold pct.
  destruct (Qeq_bool (inject_Z k) 0) eqn:E; [|reflexivity].
  apply Qeq_bool_iff in E. unfold Qeq in E. cbn in E. lia.
Qed.

Lemma inject_Z_nonzero (k : Z) : k <> 0 -> ~ (inject_Z k == 0)%Q.
Proof. intros Hk E. unfold Qeq in E. cbn in E. lia. Qed.

Lemma pct_sum3 (a b c k : Z) :
  k <> 0 -> a + b + c = k ->
  (pct (inject_Z a) (inject_Z k) + pct (inject_Z b) (inject_Z k)
   + pct (inject_Z c) (inject_Z k) == 100)%Q.
Proof.
  intros Hk E. rewrite !pct_nonzero by assumption.
  pose proof (inject_Z_nonzero k Hk) as Hq.
  rewrite <- E in *. rewrite !inject_Z_plus in *. field. assumption.
Qed.

Lemma pct_sum4 (a b c d k : Z) :
  k <> 0 -> a + b + c + d = k ->
  (pct (inject_Z a) (inject_Z k) + pct (inject_Z b) (inject_Z k)
   + pct (inject_Z c) (inject_Z k) + pct (inject_Z d) (inject_Z k) == 100)%Q.
Proof.
  intros Hk E. rewrite !pct_nonzero by assumption.
  pose proof (inject_Z_nonzero k Hk) as Hq.
  rewrite <- E in *. rewrite !inject_Z_plus in *. field. assumption.
Qed.

(** C3, as amended.  Every emitted row has a non-zero trade count [n],
    and each emitted rate is its counter divided by [n] times 100,
    rounded to three decimals.  Before that rounding, the target-hit,
    stop-hit, ambiguous and none rates add up to 100 under [skip] and
    [half_half]; under [stop_first] an ambiguous trade is counted as a
    stop hit as well, so the target-hit, stop-hit and none rates add up
    to 100 and the four rates to 100 plus the ambiguous rate. *)
Theorem C3_rates_sum (md : string -> Z -> option string) (a : Args)
    (creamy : list CreamyRow) (eod : list EodRow) (row : SummaryRow) :
  row ∈ result_rows (main md a creamy eod) ->
  exists st : Stat,
    row = summary_row (arg_amb_rule a) (row_profile row) st
    /\ row_trades row = n st /\ n st <> 0
    /\ let rate := fun c : Z => (inject_Z c / inject_Z (n st) * 100)%Q in
       (tgt_hit_pct row == round_digits (rate (tgt_hit st)) 3)%Q
       /\ (sl_hit_pct row == round_digits (rate (sl_hit st)) 3)%Q
       /\ (amb_pct row == round_digits (rate (amb st)) 3)%Q
       /\ (none_pct row == round_digits (rate (none st)) 3)%Q
       /\ match arg_amb_rule a with
          | stop_first =>
            (rate (tgt_hit st) + rate (sl_hit st) + rate (none st) == 100)%Q
            /\ (rate (tgt_hit st) + rate (sl_hit st) + rate (amb st)
                + rate (none st) == 100 + rate (amb st))%Q
          | _ =>
            (rate (tgt_hit st) + rate (sl_hit st) + rate (amb st)
             + rate (none st) == 100)%Q
          end.
Proof.
  intros Hrow. apply main_rows in Hrow as (mx & start & _ & _ & _ & Hrow).
  apply elem_of_rows_out in Hrow.
  destruct Hrow as (pid & st & Hl & Hn & ->).
  exists st. split; [reflexivity|]. split; [reflexivity|]. split; [assumption|].
  pose proof (run_stats_counted _ _ _ _ pid st Hl) as Hc.
  intros rate. subst rate. cbn [summary_row tgt_hit_pct sl_hit_pct amb_pct none_pct].
  assert (Hround : forall c, (round_digits (pct (inject_Z c) (inject_Z (n st))) 3
                              == round_digits (inject_Z c / inject_Z (n st) * 100) 3)%Q).
  { intros c. by rewrite (round_digits_comp _ _ 3 (pct_nonzero c (n st) Hn)). }
  repeat (split; [apply Hround|]).
  destruct (arg_amb_rule a); unfold counted in Hc.
  - assert (H3 : (inject_Z (tgt_hit st) / inject_Z (n st) * 100
                  + inject_Z (sl_hit st) / inject_Z (n st) * 100
                  + inject_Z (none st) / inject_Z (n st) * 100 == 100)%Q)
      by (rewrite <- !pct_nonzero by assumption; by apply pct_sum3).
    split; [exact H3|].
    revert H3.
    generalize (inject_Z (tgt_hit st) / inject_Z (n st) * 100)%Q
               (inject_Z (sl_hit st) / inject_Z (n st) * 100)%Q
               (inject_Z (amb st) / inject_Z (n st) * 100)%Q
               (inject_Z (none st) / inject_Z (n st) * 100)%Q.
    intros q1 q2 q3 q4 H3. lra.
  - rewrite <- !pct_nonzero by assumption. by apply pct_sum4.
  - rewrite <- !pct_nonzero by assumption. by apply pct_sum4.
Qed.

Lemma C3_rates_sum_witness :
  let row := summary_row half_half "P1"
               (S (run_stats (default_args half_half) three_trades three_bars
                     ["2025-12-01"]) "P1") in
  exists st : Stat,
    row = summary_row half_half (row_profile row) st
    /\ row_trades row = n st /\ n st <> 0
    /\ let rate := fun c : Z => (inject_Z c / inject_Z (n st) * 100)%Q in
       (tgt_hit_pct row == round_digits (rate (tgt_hit st)) 3)%Q
       /\ (sl_hit_pct row == round_digits (rate (sl_hit st)) 3)%Q
       /\ (amb_pct row == round_digits (rate (amb st)) 3)%Q
       /\ (none_pct row == round_digits (rate (none st)) 3)%Q
       /\ (rate (tgt_hit st) + rate (sl_hit st) + rate (amb st)
           + rate (none st) == 100)%Q.
Proof.
  intros row.
  assert (Hin : row ∈ result_rows
                  (main year_before (default_args half_half) three_trades three_bars)).
  { apply list_elem_of_In. vm_compute. left. reflexivity. }
  exact (C3_rates_sum year_before (default_args half_half) three_trades
           three_bars row Hin).
Defined.

(** C3 as stated fails: under [stop_first] one ambiguous trade gives a
    stop-hit rate and an ambiguous rate of 100 each, the four emitted
    rates adding up to 200. *)
Lemma C3_counterexample :
  ~ (forall (md : string -> Z -> option string) (a : Args) (creamy : list CreamyRow)
            (eod : list EodRow) (row : SummaryRow),
        row ∈ result_rows (main md a creamy eod) -> row_trades row <> 0 ->
        (tgt_hit_pct row + sl_hit_pct row + amb_pct row + none_pct row == 100)%Q).
Proof.
  intros H.
  set (row := summary_row stop_first "P1"
                (S (run_stats (default_args stop_first) [cand 100 110 95 8 70]
                      [bar 112 94 100] ["2025-12-01"]) "P1")).
  assert (Hin : row ∈ result_rows
                  (main year_before (default_args stop_first)
                     [cand 100 110 95 8 70] [bar 112 94 100])).
  { apply list_elem_of_In. vm_compute. left. reflexivity. }
  specialize (H _ _ _ _ row Hin).
  assert (Hn : row_trades row <> 0) by (vm_compute; discriminate).
  specialize (H Hn). vm_compute in H. discriminate.
Qed.

(** The rounding alone breaks the sum as well: three trades under
    [half_half], one target hit, one stop hit and one none, are emitted
    as 33.333 each, which add up to 99.999. *)
Lemma rates_rounding_example :
  exists row,
    result_rows (main year_before (default_args half_half) three_trades three_bars)
    = [row]
    /\ row_trades row = 3
    /\ (tgt_hit_pct row == 33.333)%Q /\ (sl_hit_pct row == 33.333)%Q
    /\ (amb_pct row == 0)%Q /\ (none_pct row == 33.333)%Q
    /\ (tgt_hit_pct row + sl_hit_pct row + amb_pct row + none_pct row == 99.999)%Q.
Proof.
  eexists. split; [vm_compute; reflexivity|].
  repeat split; vm_compute; reflexivity.
Qed.

(** *** The policies compared *)

Lemma ret_pct_mono (e x y : Q) :
  (0 <= e)%Q -> (x <= y)%Q -> (ret_pct x e <= ret_pct y e)%Q.
Proof.
  intros He Hxy. unfold ret_pct, pct.
  destruct (Qeq_bool e 0) eqn:E; [lra|].
  apply Qeq_bool_false in E.
  assert (Hpos : (0 < e)%Q) by (destruct (Qlt_le_dec 0 e); [assumption|]; exfalso; apply E; lra).
  apply Qmult_le_compat_r; [|lra].
  unfold Qdiv. apply Qmult_le_compat_r; [lra|].
  apply Qlt_le_weak, Qinv_lt_0_compat, Hpos.
Qed.

Lemma realized_order rd r x xs st :
  hit_t (f (TARGET_PRICE r)) (max_high x xs) = true ->
  hit_s (f (STOP_LOSS r)) (min_low x xs) = true ->
  (0 <= f (ENTRY_PRICE r))%Q ->
  (f (STOP_LOSS r) <= f (TARGET_PRICE r))%Q ->
  (sum_realized (trade stop_first rd (x :: xs) r st)
   <= sum_realized (trade half_half rd (x :: xs) r st))%Q.
Proof.
  intros Ht Hs He Hst.
  rewrite !trade_unfold, !outcome_ambiguous by assumption. stat_field.
  pose proof (ret_pct_mono _ _ _ He Hst) as Hm.
  revert Hm. generalize (ret_pct (f (STOP_LOSS r)) (f (ENTRY_PRICE r)))
                        (ret_pct (f (TARGET_PRICE r)) (f (ENTRY_PRICE r))).
  intros s t Hm. lra.
Qed.

(** The trade count does not depend on the policy. *)
Lemma run_stats_n a1 a2 creamy eod run_dates pid :
  arg_env a1 = arg_env a2 -> arg_horizon a1 = arg_horizon a2 ->
  arg_topn a1 = arg_topn a2 ->
  n <$> (run_stats a1 creamy eod run_dates !! pid)
  = n <$> (run_stats a2 creamy eod run_dates !! pid).
Proof.
  intros Eenv Ehor Etop. unfold run_stats.
  set (R := fun s1 s2 : gmap string Stat =>
              forall p, n <$> (s1 !! p) = n <$> (s2 !! p)).
  enough (H : R (fold_left (run_day a1 creamy eod) run_dates ∅)
                (fold_left (run_day a2 creamy eod) run_dates ∅)) by apply H.
  assert (H0 : R ∅ ∅) by (intros p; reflexivity).
  revert H0. generalize (∅ : gmap string Stat) at 1 3.
  generalize (∅ : gmap string Stat).
  induction run_dates as [|rd rds IH]; intros s2 s1 H; cbn; [exact H|].
  apply IH. unfold run_day. rewrite Eenv, Etop.
  revert s1 s2 H.
  induction (fold_left setdefault_append (day_rows creamy (arg_env a2) rd) [])
    as [|item items IHi]; intros s1 s2 H; cbn; [exact H|].
  apply IHi. unfold run_take. rewrite Ehor.
  revert s1 s2 H.
  induction (slice_to (arg_topn a2) item.2) as [|r take IHt];
    intros s1 s2 H; cbn; [exact H|].
  apply IHt. intros p.
  destruct (decide (item.1 = p)) as [->|Hne].
  - rewrite !lookup_insert_eq. cbn. rewrite !trade_n. f_equal. f_equal.
    specialize (H p). unfold S.
    destruct (s1 !! p), (s2 !! p); cbn in *; congruence.
  - rewrite !lookup_insert_ne by assumption. apply H.
Qed.

Lemma main_rows_with_rule md a rule creamy eod mx start row :
  max_run_date creamy (arg_env a) = Some mx -> mx <> EmptyString ->
  md mx (arg_days a) = Some start ->
  row ∈ rows_out rule
          (run_stats (with_rule a rule) creamy eod
             (window_run_dates creamy (arg_env a) start)) ->
  row ∈ result_rows (main md (with_rule a rule) creamy eod).
Proof.
  intros Hmx Hne Hmd Hin. unfold main.
  cbn [with_rule arg_env arg_days arg_amb_rule].
  rewrite Hmx. apply String.eqb_neq in Hne. rewrite Hne, Hmd. exact Hin.
Qed.

(** C7.  For a candidate that satisfies the Candidate invariant
    (stop < entry < target) and whose forward window touches both
    target and stop, the realized return added under [stop_first] is at
    most the one added under [half_half]; and for every input, every
    row reported under [skip] has a row for the same profile under any
    policy whose trade count is at least as large. *)
Theorem C7_policy_order :
  (forall (rd : string) (r : CreamyRow) (x : EodRow) (xs : list EodRow) (st : Stat),
      hit_t (f (TARGET_PRICE r)) (max_high x xs) = true ->
      hit_s (f (STOP_LOSS r)) (min_low x xs) = true ->
      (f (STOP_LOSS r) < f (ENTRY_PRICE r))%Q ->
      (f (ENTRY_PRICE r) < f (TARGET_PRICE r))%Q ->
      (sum_realized (trade stop_first rd (x :: xs) r st)
       <= sum_realized (trade half_half rd (x :: xs) r st))%Q)
  /\ (forall (md : string -> Z -> option string) (a : Args)
             (creamy : list CreamyRow) (eod : list EodRow) (rule : AmbRule)
             (row : SummaryRow),
         row ∈ result_rows (main md (with_rule a skip) creamy eod) ->
         exists row',
           row' ∈ result_rows (main md (with_rule a rule) creamy eod)
           /\ row_profile row' = row_profile row
           /\ row_trades row <= row_trades row').
Proof.
  split.
  - intros rd r x xs st Ht Hs Hse Het.
    apply realized_order; [assumption..| |lra].
    unfold hit_s in Hs. apply andb_true_iff in Hs as [Hs _].
    apply Qlt_bool_iff in Hs. lra.
  - intros md a creamy eod rule row Hrow.
    apply main_rows in Hrow as (mx & start & Hmx & Hne & Hmd & Hrow).
    apply elem_of_rows_out in Hrow.
    cbn [with_rule arg_env arg_days arg_amb_rule] in *.
    destruct Hrow as (pid & st & Hl & Hn & ->).
    pose proof (run_stats_n (with_rule a skip) (with_rule a rule) creamy eod
                  (window_run_dates creamy (arg_env a) start)
                  pid eq_refl eq_refl eq_refl) as E.
    rewrite Hl in E. cbn in E.
    destruct (run_stats (with_rule a rule) creamy eod _ !! pid) as [st'|] eqn:Hl';
      [|discriminate].
    cbn in E. injection E as E.
    exists (summary_row rule pid st'). split; [|split].
    + apply (main_rows_with_rule md a rule creamy eod mx start); [assumption..|].
      apply elem_of_rows_out. exists pid, st'. split; [exact Hl'|].
      split; [congruence|reflexivity].
    + reflexivity.
    + cbn. lia.
Qed.

Lemma C7_policy_order_witness :
  let c := cand 100 110 95 8 70 in
  let row := summary_row skip "P1"
               (S (run_stats (default_args skip) [c] [bar 112 94 100]
                     ["2025-12-01"]) "P1") in
  (sum_realized (trade stop_first "2025-12-01" [bar 112 94 100] c new_stat)
   <= sum_realized (trade half_half "2025-12-01" [bar 112 94 100] c new_stat))%Q
  /\ exists row',
       row' ∈ result_rows (main year_before
                             (with_rule (default_args stop_first) half_half)
                             [c] [bar 112 94 100])
       /\ row_profile row' = row_profile row
       /\ row_trades row <= row_trades row'.
Proof.
  intros c row. split.
  - apply (proj1 C7_policy_order "2025-12-01" c (bar 112 94 100) [] new_stat);
      [reflexivity | reflexivity | cbn; lra | cbn; lra].
  - apply (proj2 C7_policy_order year_before (default_args stop_first) [c]
             [bar 112 94 100] half_half row).
    apply list_elem_of_In. vm_compute. left. reflexivity.
Defined.

(** The order of the two policies rests on the levels lying on either
    side of the entry: a stored row with entry 100, target 90 and stop
    95, which the invariant excludes, and a bar with high 100 and low 90
    touch both levels, and the realized return is -5 under [stop_first]
    but -7.5 under [half_half]. *)
Lemma stop_above_target_order :
  let r := cand 100 90 95 8 70 in
  let x := bar 100 90 95 in
  hit_t (f (TARGET_PRICE r)) (max_high x []) = true
  /\ hit_s (f (STOP_LOSS r)) (min_low x []) = true
  /\ (sum_realized (trade stop_first "2025-12-01" [x] r new_stat) == -5)%Q
  /\ (sum_realized (trade half_half "2025-12-01" [x] r new_stat) == -7.5)%Q
  /\ ~ (sum_realized (trade stop_first "2025-12-01" [x] r new_stat)
        <= sum_realized (trade half_half "2025-12-01" [x] r new_stat))%Q.
Proof.
  cbv zeta. repeat split; try reflexivity.
  intros H. apply Qle_bool_iff in H. vm_compute in H. discriminate.
Qed.

(** The scenario of C1 run through [main], queries and summary
    included: the row emitted under [skip] still reports one trade, with
    the candidate's edge, confidence and expected return as averages. *)
Lemma scenario_end_to_end :
  (exists row,
      result_rows (main year_before (default_args stop_first)
                     [cand 100 110 95 8 70] [bar 112 97 105]) = [row]
      /\ row_trades row = 1 /\ (tgt_hit_pct row == 100)%Q
      /\ (win_pct row == 100)%Q /\ (realized7d_avg row == 10)%Q)
  /\ (exists row,
         result_rows (main year_before (default_args stop_first)
                        [cand 100 110 95 8 70] [bar 112 94 105]) = [row]
         /\ row_trades row = 1 /\ (amb_pct row == 100)%Q
         /\ (sl_hit_pct row == 100)%Q /\ (realized7d_avg row == -5)%Q)
  /\ (exists row,
         result_rows (main year_before (default_args half_half)
                        [cand 100 110 95 8 70] [bar 112 94 105]) = [row]
         /\ row_trades row = 1 /\ (amb_pct row == 100)%Q
         /\ (realized7d_avg row == 2.5)%Q)
  /\ (exists row,
         result_rows (main year_before (default_args skip)
                        [cand 100 110 95 8 70] [bar 112 94 105]) = [row]
         /\ row_trades row = 1 /\ (amb_pct row == 100)%Q
         /\ (avg_edge row == 3)%Q /\ (avg_conf row == 70)%Q
         /\ (avg_roi row == 8)%Q /\ (realized7d_avg row == 0)%Q).
Proof.
  repeat split; eexists; (split; [vm_compute; reflexivity|]);
    repeat split; vm_compute; reflexivity.
Qed.

End BacktestFacts.

(** ** The [UPDATE] statements of the enrichers *)

Section UpdateFacts.

Lemma executemany_map us creamy :
  executemany us creamy = map (apply_updates us) creamy.
Proof.
  unfold executemany. revert creamy.
  induction us as [|u us IH]; intros creamy; cbn.
  - induction creamy as [|r l IHl]; cbn; [reflexivity|]. by rewrite <- IHl.
  - rewrite IH. unfold execute_update. rewrite map_map. reflexivity.
Qed.

Lemma update_matches_key u r :
  update_matches u r = true <->
  row_key r = (u_env u, u_date u, u_pid u, u_instrument u).
Proof.
  unfold update_matches, row_key. rewrite !andb_true_iff, !String.eqb_eq.
  split; [intros [[[-> ->] ->] ->]; reflexivity|intros [= -> -> -> ->]; auto].
Qed.

Lemma update_matches_same_key u r r' :
  row_key r = row_key r' -> update_matches u r = update_matches u r'.
Proof.
  intros E. unfold update_matches. unfold row_key in E.
  injection E as -> -> -> ->. reflexivity.
Qed.

Lemma set_metrics_key u r : row_key (set_metrics u r) = row_key r.
Proof. reflexivity. Qed.

Lemma apply_updates_key us r : row_key (apply_updates us r) = row_key r.
Proof.
  unfold apply_updates. revert r.
  induction us as [|u us IH]; intros r; cbn; [reflexivity|].
  rewrite IH. destruct (update_matches u r); reflexivity.
Qed.

Lemma apply_updates_no_match us r :
  (forall u, u ∈ us -> update_matches u r = false) -> apply_updates us r = r.
Proof.
  unfold apply_updates. induction us as [|u us IH]; intros H; cbn; [reflexivity|].
  rewrite (H u) by left. apply IH. intros u' Hu'. apply H. by right.
Qed.

Lemma apply_updates_snoc us u r :
  apply_updates (us ++ [u]) r =
  if update_matches u r then set_metrics u (apply_updates us r)
  else apply_updates us r.
Proof.
  unfold apply_updates at 1. rewrite fold_left_app. cbn.
  fold (apply_updates us r).
  by rewrite (update_matches_same_key u _ r (apply_updates_key us r)).
Qed.

Lemma set_metrics_apply_updates u us r :
  set_metrics u (apply_updates us r) = set_metrics u r.
Proof.
  induction us as [|u' us IH] using rev_ind; [reflexivity|].
  rewrite apply_updates_snoc. destruct (update_matches u' r); [|exact IH].
  rewrite <- IH. reflexivity.
Qed.

Lemma apply_updates_last us r :
  apply_updates us r =
  match last_match us r with
  | Some u => set_metrics u r
  | None => r
  end.
Proof.
  induction us as [|u us IH] using rev_ind; [reflexivity|].
  rewrite apply_updates_snoc. unfold last_match. rewrite fold_left_app. cbn.
  fold (last_match us r).
  destruct (update_matches u r); [|exact IH].
  apply set_metrics_apply_updates.
Qed.

Lemma apply_updates_inputs us r : same_inputs (apply_updates us r) r.
Proof.
  rewrite apply_updates_last. destruct (last_match us r); repeat split.
Qed.

Lemma creamy_of_inputs env date r r' :
  same_inputs r r' -> creamy_of env date r = creamy_of env date r'.
Proof.
  intros (K & C & _). unfold creamy_of. unfold row_key in K.
  injection K as -> -> _ _. by rewrite C.
Qed.

Lemma filter_creamy_map env date (g : CreamyRow -> CreamyRow) l :
  (forall r, same_inputs (g r) r) ->
  filter (fun r => Is_true (creamy_of env date r)) (map g l)
  = map g (filter (fun r => Is_true (creamy_of env date r)) l).
Proof.
  intros Hg. induction l as [|r l IH]; [reflexivity|].
  cbn [map]. rewrite !filter_cons, IH.
  rewrite (creamy_of_inputs env date _ _ (Hg r)).
  destruct (decide (Is_true (creamy_of env date r))); reflexivity.
Qed.

Lemma last_match_snoc us u r :
  last_match (us ++ [u]) r = if update_matches u r then Some u else last_match us r.
Proof. unfold last_match. by rewrite fold_left_app. Qed.

Lemma last_match_elem us r u :
  last_match us r = Some u -> u ∈ us /\ update_matches u r = true.
Proof.
  induction us as [|u' us IH] using rev_ind; [discriminate|].
  rewrite last_match_snoc. destruct (update_matches u' r) eqn:E.
  - intros [= <-]. split; [|assumption]. apply elem_of_app. right. left.
  - intros H. destruct (IH H) as [Hin Hm]. split; [|assumption].
    apply elem_of_app. by left.
Qed.

Lemma last_match_some us r u :
  u ∈ us -> update_matches u r = true -> is_Some (last_match us r).
Proof.
  induction us as [|u' us IH] using rev_ind; [by intros ?%elem_of_nil|].
  rewrite last_match_snoc. intros Hin Hm.
  destruct (update_matches u' r) eqn:E; [by eexists|].
  apply elem_of_app in Hin as [Hin|Hin]; [by apply IH|].
  apply list_elem_of_singleton in Hin. congruence.
Qed.

(** A row that some update of the sequence addresses ends up with the
    values of one of them. *)
Lemma executemany_lookup us creamy (i : nat) r u0 :
  creamy !! i = Some r -> u0 ∈ us -> update_matches u0 r = true ->
  exists u, u ∈ us /\ executemany us creamy !! i = Some (set_metrics u r).
Proof.
  intros Hi Hin Hm. rewrite executemany_map.
  change (map ?g ?l) with (g <$> l). rewrite list_lookup_fmap, Hi. cbn.
  rewrite apply_updates_last.
  destruct (last_match_some us r u0 Hin Hm) as [u Hu]. rewrite Hu.
  exists u. split; [|reflexivity]. by apply last_match_elem in Hu as [? _].
Qed.

(** The groups [setdefault_append] builds: every row is in the group of
    its profile. *)
Lemma setdefault_append_keeps d x r :
  (exists item, item ∈ d /\ item.1 = PROFILE_ID r /\ r ∈ item.2) ->
  exists item, item ∈ setdefault_append d x
               /\ item.1 = PROFILE_ID r /\ r ∈ item.2.
Proof.
  induction d as [|[p l] d IH]; intros (item & Hin & Hp & Hr).
  - by apply elem_of_nil in Hin.
  - cbn [setdefault_append]. apply elem_of_cons in Hin as [->|Hin].
    + destruct (String.eqb p (PROFILE_ID x)).
      * exists (p, l ++ [x]). split; [left|]. split; [assumption|].
        apply elem_of_app. by left.
      * exists (p, l). split; [left|]. by split.
    + destruct (String.eqb p (PROFILE_ID x)).
      * exists item. split; [by right|]. by split.
      * destruct IH as (item' & Hin' & Hp' & Hr'); [by exists item|].
        exists item'. split; [by right|]. by split.
Qed.

Lemma setdefault_append_adds d x :
  exists item, item ∈ setdefault_append d x
               /\ item.1 = PROFILE_ID x /\ x ∈ item.2.
Proof.
  induction d as [|[p l] d IH]; cbn [setdefault_append].
  - exists (PROFILE_ID x, [x]). split; [left|]. split; [reflexivity|left].
  - destruct (String.eqb p (PROFILE_ID x)) eqn:E.
    + apply String.eqb_eq in E. exists (p, l ++ [x]).
      split; [left|]. split; [assumption|]. apply elem_of_app. right. left.
    + destruct IH as (item & Hin & Hp & Hx).
      exists item. split; [by right|]. by split.
Qed.

Lemma grouped rows r :
  r ∈ rows ->
  exists item, item ∈ fold_left setdefault_append rows []
               /\ item.1 = PROFILE_ID r /\ r ∈ item.2.
Proof.
  assert (H : forall rows d,
             r ∈ rows \/ (exists item, item ∈ d /\ item.1 = PROFILE_ID r /\ r ∈ item.2) ->
             exists item, item ∈ fold_left setdefault_append rows d
                          /\ item.1 = PROFILE_ID r /\ r ∈ item.2).
  { clear rows. induction rows as [|x rows IH]; intros d [Hin|Hd]; cbn [fold_left].
    - by apply elem_of_nil in Hin.
    - exact Hd.
    - apply IH. apply elem_of_cons in Hin as [->|Hin]; [right|by left].
      apply setdefault_append_adds.
    - apply IH. right. by apply setdefault_append_keeps. }
  intros Hin. apply H. by left.
Qed.

End UpdateFacts.

(** ** Regular expressions and text *)

Section RegexFacts.

Import Regex.

Lemma elem_of_suffix (c : ascii) (s' s : list ascii) :
  s' `suffix_of` s -> c ∈ s' -> c ∈ s.
Proof. intros [pre ->] H. apply elem_of_app. by right. Qed.

Lemma rep_go_inv (c : ascii) m lo hi k (D : bool) :
  (forall s k' res, m s k' = Some res ->
     (exists s', s' `suffix_of` s /\ k' s' = Some res) /\ (D = true -> c ∈ s)) ->
  forall fuel count s res,
    rep_go m lo hi k fuel count s = Some res ->
    (exists s', s' `suffix_of` s /\ k s' = Some res)
    /\ (D = true -> (count < lo)%nat -> c ∈ s).
Proof.
  intros Hm.
  assert (Hstop : forall count s res,
             (if (lo <=? count)%nat then k s else None) = Some res ->
             (exists s', s' `suffix_of` s /\ k s' = Some res)
             /\ (D = true -> (count < lo)%nat -> c ∈ s)).
  { intros count s res H. destruct (lo <=? count)%nat eqn:E; [|discriminate].
    apply Nat.leb_le in E. split; [by exists s|]. intros _ Hlt. lia. }
  induction fuel as [|fuel IH]; intros count s res H; cbn [rep_go] in H.
  - by apply Hstop.
  - destruct (more_allowed hi count); [|by apply Hstop].
    destruct (m s _) as [rest|] eqn:Em; [|by apply Hstop].
    assert (rest = res) as -> by congruence.
    apply Hm in Em as [(s1 & Hs1 & Hk1) Hd].
    destruct (length s1 <? length s)%nat; [|discriminate].
    apply IH in Hk1 as [(s2 & Hs2 & Hk2) _].
    split; [|intros HD _; by apply Hd].
    exists s2. split; [by etrans|assumption].
Qed.

(** What a successful match tells: the continuation ran on a suffix of
    the input, and the input has every character the pattern demands. *)
Lemma rx_match_inv (c : ascii) (r : Rx) :
  forall s k res,
    rx_match r s k = Some res ->
    (exists s', s' `suffix_of` s /\ k s' = Some res)
    /\ (demands c r = true -> c ∈ s).
Proof.
  induction r as [|c'| |members ranges|a IHa b IHb|a IHa lo hi|];
    intros s k res H; cbn in H.
  - split; [by exists s|discriminate].
  - destruct s as [|x s]; [discriminate|].
    destruct (Ascii.eqb x c') eqn:E; [|discriminate].
    apply Ascii.eqb_eq in E as ->. split.
    + exists s. split; [by apply suffix_cons_r|assumption].
    + cbn. intros ->%Ascii.eqb_eq. left.
  - destruct s as [|x s]; [discriminate|].
    destruct (Ascii.eqb x newline); [discriminate|]. split; [|discriminate].
    exists s. split; [by apply suffix_cons_r|assumption].
  - destruct s as [|x s]; [discriminate|].
    destruct (in_class members ranges x); [|discriminate].
    split; [|discriminate].
    exists s. split; [by apply suffix_cons_r|assumption].
  - apply IHa in H as [(s1 & Hs1 & H1) Hda].
    apply IHb in H1 as [(s2 & Hs2 & H2) Hdb]. split.
    + exists s2. split; [by etrans|assumption].
    + cbn. intros [Ha|Hb]%orb_true_iff; [by apply Hda|].
      eapply elem_of_suffix; [exact Hs1|by apply Hdb].
  - apply (rep_go_inv c (rx_match a) lo hi k (demands c a) IHa) in H as [H1 H2].
    split; [assumption|]. cbn. intros [Hlo Hd]%andb_true_iff.
    apply H2; [assumption|]. destruct lo; [discriminate|lia].
  - split; [|discriminate].
    destruct s as [|x [|y s]]; [by exists []| |discriminate].
    destruct (Ascii.eqb x newline); [|discriminate]. by exists [x].
Qed.

Lemma rx_no_match (c : ascii) (r : Rx) s k :
  demands c r = true -> c ∉ s -> rx_match r s k = None.
Proof.
  intros Hd Hc. destruct (rx_match r s k) as [res|] eqn:E; [|reflexivity].
  apply (rx_match_inv c) in E as [_ E]. by specialize (E Hd).
Qed.

Lemma sub_go_id (c : ascii) (r : Rx) repl fuel s :
  demands c r = true -> c ∉ s -> sub_go fuel r repl s = s.
Proof.
  intros Hd. revert s. induction fuel as [|fuel IH]; intros s Hc; [reflexivity|].
  cbn. rewrite (rx_no_match c) by assumption.
  destruct s as [|x s]; [reflexivity|].
  f_equal. apply IH. by apply not_elem_of_cons in Hc as [_ Hc].
Qed.

(** A substitution leaves a text alone that lacks a character every
    match of the pattern has. *)
Lemma re_sub_id (c : ascii) (r : Rx) (repl s : string) :
  demands c r = true -> c ∉ chars s -> re_sub r repl s = s.
Proof.
  intros Hd Hc. unfold re_sub. rewrite (sub_go_id c) by assumption.
  apply string_of_list_ascii_of_string.
Qed.

Lemma chars_app (a b : string) : chars (a +:+ b) = chars a ++ chars b.
Proof.
  unfold chars. induction a as [|x a IH]; [reflexivity|].
  change (String x a +:+ b) with (String x (a +:+ b)). cbn. by rewrite IH.
Qed.

Lemma rstrip_chars (c : ascii) (s : string) : c ∈ chars (rstrip s) -> c ∈ chars s.
Proof.
  induction s as [|x s IH]; cbn; [done|].
  destruct (rstrip s) as [|y t] eqn:E.
  - destruct (is_space x); cbn; [by intros ?%elem_of_nil|].
    intros ->%list_elem_of_singleton. left.
  - cbn. intros [->|H]%elem_of_cons; [left|right]. by apply IH.
Qed.

Lemma rstrip_app_fixed (s t : string) :
  rstrip t = t -> t <> EmptyString ->
  rstrip (s +:+ t) = s +:+ t /\ s +:+ t <> EmptyString.
Proof.
  intros Ht Hne. induction s as [|x s [IH1 IH2]]; [done|].
  change (String x s +:+ t) with (String x (s +:+ t)).
  split; [|discriminate]. cbn [rstrip]. rewrite IH1.
  destruct (s +:+ t); [done|reflexivity].
Qed.

Lemma pretty_N_go_chars (c : ascii) (x : N) (s : string) :
  (forall d, pretty_N_char d <> c) -> c ∉ chars s -> c ∉ chars (pretty_N_go x s).
Proof.
  intros Hd. revert s.
  induction (N.lt_wf_0 x) as [x _ IH]; intros s Hs.
  assert (x = 0 \/ 0 < x)%N as [->|Hx] by lia.
  - by rewrite pretty_N_go_0.
  - rewrite pretty_N_go_step by assumption. apply IH.
    + by apply N.div_lt.
    + cbn. apply not_elem_of_cons. split; [|assumption].
      intros E. by apply (Hd (x `mod` 10)%N).
Qed.

Lemma pretty_Z_chars (z : Z) : backslash ∉ chars (pretty z).
Proof.
  assert (Hd : forall d, pretty_N_char d <> backslash).
  { intros d. unfold pretty_N_char. repeat case_match; discriminate. }
  assert (Hp : forall p : positive, backslash ∉ chars (pretty p)).
  { intros p. unfold pretty, pretty_positive, pretty, pretty_N.
    rewrite decide_False by discriminate.
    apply pretty_N_go_chars; [assumption|apply not_elem_of_nil]. }
  destruct z as [|p|p]; unfold pretty, pretty_Z.
  - by apply (bool_decide_unpack _).
  - apply Hp.
  - rewrite chars_app. apply not_elem_of_app. split; [|apply Hp].
    by apply (bool_decide_unpack _).
Qed.

Lemma fmt2_chars (x : Q) : backslash ∉ chars (fmt2 x).
Proof.
  unfold fmt2, two_digits. rewrite !chars_app, !not_elem_of_app.
  repeat split; try apply pretty_Z_chars.
  - destruct (Qlt_bool x 0); by apply (bool_decide_unpack _).
  - by apply (bool_decide_unpack _).
  - destruct (_ <? 10); by apply (bool_decide_unpack _).
Qed.

Lemma append_neq (s t : string) : t <> EmptyString -> s +:+ t <> s.
Proof.
  intros Ht. induction s as [|x s IH]; [exact Ht|].
  change (String x s +:+ t) with (String x (s +:+ t)). congruence.
Qed.

(** *** [patch_reason] on a text without a backslash *)

Lemma reason_tag_chars conf bucket rr :
  backslash ∉ chars bucket ->
  backslash ∉ chars (EnricherV1.reason_tag conf bucket rr).
Proof.
  intros Hb. unfold EnricherV1.reason_tag, fmt_int.
  rewrite !chars_app, !not_elem_of_app.
  repeat split;
    try apply pretty_Z_chars; try apply fmt2_chars; try assumption;
    by apply (bool_decide_unpack _).
Qed.

Lemma reason_tag_rstrip (s : string) conf bucket rr :
  rstrip (s +:+ EnricherV1.reason_tag conf bucket rr)
  = s +:+ EnricherV1.reason_tag conf bucket rr
  /\ EnricherV1.reason_tag conf bucket rr <> EmptyString.
Proof.
  assert (H : rstrip (EnricherV1.reason_tag conf bucket rr)
              = EnricherV1.reason_tag conf bucket rr
              /\ EnricherV1.reason_tag conf bucket rr <> EmptyString).
  { unfold EnricherV1.reason_tag.
    repeat (apply rstrip_app_fixed; [|try discriminate]);
      try reflexivity;
      repeat match goal with
             | |- _ +:+ _ <> EmptyString => apply rstrip_app_fixed
             | |- rstrip (_ +:+ _) = _ => apply rstrip_app_fixed
             end;
      (reflexivity || discriminate). }
  destruct H as [H1 H2]. split; [|assumption].
  by apply rstrip_app_fixed.
Qed.

Lemma patch_reason_plain reason roi conf bucket rr :
  backslash ∉ chars reason ->
  EnricherV1.patch_reason reason roi conf bucket rr
  = rstrip reason +:+ EnricherV1.reason_tag conf bucket rr.
Proof.
  intros H. unfold EnricherV1.patch_reason. cbv zeta.
  rewrite (re_sub_id backslash EnricherV1.rx_expected) by (reflexivity || assumption).
  rewrite (re_sub_id backslash EnricherV1.rx_conf_float) by (reflexivity || assumption).
  rewrite (re_sub_id backslash EnricherV1.rx_conf_int) by (reflexivity || assumption).
  rewrite (re_sub_id backslash EnricherV1.rx_bucket) by (reflexivity || assumption).
  rewrite (re_sub_id backslash EnricherV1.rx_conf_tag) by (reflexivity || assumption).
  reflexivity.
Qed.

Lemma patch_reason_twice_plain reason roi conf bucket rr :
  backslash ∉ chars reason -> backslash ∉ chars bucket ->
  EnricherV1.patch_reason (EnricherV1.patch_reason reason roi conf bucket rr)
                          roi conf bucket rr
  = EnricherV1.patch_reason reason roi conf bucket rr
    +:+ EnricherV1.reason_tag conf bucket rr.
Proof.
  intros Hr Hb. rewrite (patch_reason_plain reason) by assumption.
  rewrite patch_reason_plain.
  - by rewrite (proj1 (reason_tag_rstrip _ _ _ _)).
  - rewrite chars_app. apply not_elem_of_app. split.
    + intros H. by apply rstrip_chars in H.
    + by apply reason_tag_chars.
Qed.

End RegexFacts.

(** ** The enrichers *)

Section EnricherFacts.

Lemma clamp_v2_bounds x lo hi :
  (lo <= hi)%Q -> (lo <= EnricherV2.clamp x lo hi <= hi)%Q.
Proof.
  intros H. unfold EnricherV2.clamp.
  destruct (Qlt_bool x lo) eqn:E1; [lra|].
  destruct (Qlt_bool hi x) eqn:E2; [lra|].
  apply Qlt_bool_false in E1, E2. lra.
Qed.

Lemma clamp_v1_bounds x lo hi :
  (lo <= hi)%Q -> (lo <= EnricherV1.clamp x lo hi <= hi)%Q.
Proof. apply clamp_v2_bounds. Qed.

Lemma round_half_even_bounds (x : Q) (lo hi : Z) :
  (inject_Z lo <= x <= inject_Z hi)%Q -> lo <= round_half_even x <= hi.
Proof.
  intros [Hlo Hhi].
  pose proof (Qfloor_le x) as Hfl. pose proof (Qlt_floor x) as Hfu.
  assert (Hl : lo <= Qfloor x).
  { rewrite <- (Qfloor_Z lo). by apply Qfloor_resp_le. }
  assert (Hh : Qfloor x <= hi).
  { rewrite <- (Qfloor_Z hi). by apply Qfloor_resp_le. }
  assert (Hup : (inject_Z (Qfloor x) < x)%Q -> Qfloor x + 1 <= hi).
  { intros Hlt. destruct (Z.eq_dec (Qfloor x) hi) as [E|]; [|lia].
    rewrite E in Hlt. lra. }
  unfold round_half_even.
  destruct (Qlt_bool (x - inject_Z (Qfloor x)) (1 # 2)) eqn:E1; [lia|].
  apply Qlt_bool_false in E1.
  assert (Hlt : (inject_Z (Qfloor x) < x)%Q) by lra.
  specialize (Hup Hlt).
  destruct (Qlt_bool (1 # 2) (x - inject_Z (Qfloor x))); [lia|].
  destruct (Z.even (Qfloor x)); lia.
Qed.

(** *** Candidates with a non-positive entry price *)

Lemma enrich_row_v2_key maxr now env date r u :
  EnricherV2.enrich_row maxr now env date r = Some u ->
  (u_env u, u_date u, u_pid u, u_instrument u)
  = (env, date, PROFILE_ID r, INSTRUMENT_ID r)
  /\ (0 < default 0%Q (ENTRY_PRICE r))%Q.
Proof.
  unfold EnricherV2.enrich_row.
  destruct (Qle_bool (default 0%Q (ENTRY_PRICE r)) 0) eqn:E; [discriminate|].
  intros [= <-]. split; [reflexivity|].
  apply Qnot_le_lt. intros H. apply Qle_bool_iff in H. congruence.
Qed.

Lemma creamy_of_true env date r :
  Is_true (creamy_of env date r) ->
  ENV_CODE r = env /\ RUN_DATE r = date /\ IS_CREAMY r = 1.
Proof.
  unfold creamy_of. intros H. apply Is_true_true in H.
  rewrite !andb_true_iff, !String.eqb_eq, Z.eqb_eq in H. tauto.
Qed.

(** The display-rank enricher leaves a row with a non-positive (or
    [NULL]) entry price as it is, in a keyed table. *)
Lemma v2_skips_nonpositive_entry now env date creamy (i : nat) r :
  keyed creamy -> creamy !! i = Some r ->
  (default 0%Q (ENTRY_PRICE r) <= 0)%Q ->
  EnricherV2.main now env date creamy !! i = Some r.
Proof.
  intros Hkey Hi Hentry. unfold EnricherV2.main.
  set (rows := filter (fun r => Is_true (creamy_of env date r)) creamy).
  assert (Hgoal : executemany
            (omap (EnricherV2.enrich_row (EnricherV2.maxr rows) now env date) rows)
            creamy !! i = Some r).
  { rewrite executemany_map.
    change (map ?g ?l) with (g <$> l). rewrite list_lookup_fmap, Hi. cbn.
    f_equal. apply apply_updates_no_match. intros u Hu.
    apply list_elem_of_omap in Hu as (r' & Hr' & Hu).
    apply list_elem_of_filter in Hr' as [Hsel Hr'].
    apply enrich_row_v2_key in Hu as [Hk Hpos].
    destruct (update_matches u r) eqn:Hm; [|reflexivity]. exfalso.
    apply update_matches_key in Hm. rewrite Hk in Hm.
    apply creamy_of_true in Hsel as (He & Hd & _).
    assert (r = r') as ->.
    { apply Hkey; [by eapply list_elem_of_lookup_2|assumption|].
      rewrite Hm. unfold row_key. by rewrite He, Hd. }
    lra. }
  destruct rows; [exact Hi|exact Hgoal].
Qed.

(** C4.  In a keyed table the display-rank enricher (v2) leaves every
    row whose entry price is not positive exactly as it is.  The min-max
    enricher (v1) has no such guard: a selected row with entry price 0
    gets target 0, stop 0, a confidence, an expected return, a patched
    rationale and a timestamp written over its stored fields. *)
Theorem C4_nonpositive_entry :
  (forall (now env date : string) (creamy : list CreamyRow) (i : nat)
          (r : CreamyRow),
      keyed creamy -> creamy !! i = Some r ->
      (default 0%Q (ENTRY_PRICE r) <= 0)%Q ->
      EnricherV2.main now env date creamy !! i = Some r)
  /\ (let r0 := plain_row "P1" "I1" (Some 0%Q) (Some 1%Q) (Some 1)
                  (Some "Momentum") in
      exists r1 t s e,
        EnricherV1.main "now" "SIM" "2025-12-01" ∅ [r0] = [r1]
        /\ r1 <> r0
        /\ TARGET_PRICE r1 = Some t /\ (t == 0)%Q
        /\ STOP_LOSS r1 = Some s /\ (s == 0)%Q
        /\ EXPECTED_RETURN_PCT r1 = Some e /\ (e == 4.5)%Q
        /\ CONFIDENCE r1 = Some (inject_Z 76)
        /\ AI_REASON r1 = Some "Momentum [CONF=76/100][RR=0.00][RB=BALANCED]"
        /\ UPDATED_AT r1 = Some "now").
Proof.
  split; [exact v2_skips_nonpositive_entry|].
  cbv zeta. eexists _, _, _, _.
  split; [vm_compute; reflexivity|].
  split; [discriminate|].
  repeat split; reflexivity.
Qed.

Lemma C4_nonpositive_entry_witness :
  let r0 := plain_row "P1" "I1" (Some 0%Q) (Some 1%Q) (Some 1) (Some "Momentum") in
  EnricherV2.main "now" "SIM" "2025-12-01" [r0] !! 0%nat = Some r0.
Proof.
  intros r0.
  apply (proj1 C4_nonpositive_entry "now" "SIM" "2025-12-01" [r0] 0%nat r0).
  - intros r1 r2 H1 H2 _.
    apply list_elem_of_singleton in H1, H2. congruence.
  - reflexivity.
  - cbn. lra.
Defined.

(** *** Strength of a lone candidate *)

Lemma maxr_lookup rows pid :
  EnricherV2.maxr rows !! pid =
  if decide (pid ∈ map PROFILE_ID rows)
  then Some (default 0
               (EnricherV2.sql_max
                  (map DISPLAY_RANK (filter (fun x => PROFILE_ID x = pid) rows))))
  else None.
Proof.
  unfold EnricherV2.maxr.
  set (g := fun p => default 0
              (EnricherV2.sql_max
                 (map DISPLAY_RANK (filter (fun x => PROFILE_ID x = p) rows)))).
  assert (H : forall (l : list CreamyRow) (m : gmap string Z),
             fold_left (fun m r => <[PROFILE_ID r := g (PROFILE_ID r)]> m) l m !! pid
             = if decide (pid ∈ map PROFILE_ID l) then Some (g pid) else m !! pid).
  { induction l as [|r l IH]; intros m; cbn [fold_left map].
    - destruct (decide _) as [H|_]; [by apply elem_of_nil in H|reflexivity].
    - rewrite IH.
      destruct (decide (pid ∈ map PROFILE_ID l)) as [Hin|Hnin].
      + rewrite decide_True by (by right). reflexivity.
      + destruct (decide (PROFILE_ID r = pid)) as [<-|Hne].
        * rewrite decide_True by left. apply lookup_insert_eq.
        * rewrite decide_False.
          -- by rewrite lookup_insert_ne.
          -- intros [->|?]%elem_of_cons; [congruence|contradiction]. }
  pose proof (H rows ∅) as H0. rewrite lookup_empty in H0. exact H0.
Qed.

Lemma strength_lone (dr : Z) :
  (EnricherV2.strength dr dr == if dr <=? 1 then 1 else 0)%Q.
Proof.
  unfold EnricherV2.strength. destruct (dr <=? 1) eqn:E.
  - apply Z.leb_le in E. replace (Z.max 1 dr - 1) with 0 by lia. reflexivity.
  - apply Z.leb_gt in E. replace (Z.max 1 dr - 1) with (dr - 1) by lia.
    assert (H : ~ (inject_Z (dr - 1) == 0)%Q) by (apply inject_Z_nonzero; lia).
    field. exact H.
Qed.

(** C5, as amended.  In the min-max enricher (v1) the strength is 0.5
    whenever the best score of the group is not above the worst one, in
    particular for a group of one candidate.  The display-rank enricher
    (v2) has no such default: with the group's largest rank as [mx]
    (200 if that is at most 1), a lone candidate gets strength 1 when
    its display rank is at most 1 (or [NULL]) and strength 0 when it is
    2 or more. *)
Theorem C5_lone_strength :
  (forall score smin smax : Q,
      (smax <= smin)%Q -> EnricherV1.norm_score score smin smax = 0.5%Q)
  /\ (forall (now env date : string) (profiles : gmap string EnricherV1.Meta)
             (pid : string) (r : CreamyRow),
         exists risk,
           EnricherV1.enrich_group now env date profiles (pid, [r])
           = [EnricherV1.enrich_row now env date pid risk
                (default 0%Q (RANKING_SCORE r)) (default 0%Q (RANKING_SCORE r)) r]
           /\ EnricherV1.norm_score (default 0%Q (RANKING_SCORE r))
                (default 0%Q (RANKING_SCORE r)) (default 0%Q (RANKING_SCORE r))
              = 0.5%Q)
  /\ (forall (rows : list CreamyRow) (r : CreamyRow),
         filter (fun x => PROFILE_ID x = PROFILE_ID r) rows = [r] ->
         let dr := default 0 (DISPLAY_RANK r) in
         let mx := default 0 (EnricherV2.maxr rows !! PROFILE_ID r) in
         mx = dr
         /\ (EnricherV2.strength dr mx == if dr <=? 1 then 1 else 0)%Q).
Proof.
  assert (Hnorm : forall score smin smax : Q,
             (smax <= smin)%Q -> EnricherV1.norm_score score smin smax = 0.5%Q).
  { intros score smin smax H. unfold EnricherV1.norm_score.
    apply Qle_bool_iff in H. by rewrite H. }
  split; [exact Hnorm|]. split.
  - intros now env date profiles pid r.
    exists (EnricherV1.risk_class
              (default (EnricherV1.mkMeta pid pid BALANCED) (profiles !! pid))).
    split; [reflexivity|]. apply Hnorm. lra.
  - intros rows r Hlone dr mx.
    assert (E : mx = dr).
    { subst mx dr. rewrite maxr_lookup, Hlone.
      assert (Hin : PROFILE_ID r ∈ map PROFILE_ID rows).
      { change (map ?g ?l) with (g <$> l). apply list_elem_of_fmap.
        exists r. split; [reflexivity|].
        assert (Hr : r ∈ filter (fun x => PROFILE_ID x = PROFILE_ID r) rows)
          by (rewrite Hlone; left).
        by apply list_elem_of_filter in Hr as [_ Hr]. }
      rewrite decide_True by assumption. cbn.
      destruct (DISPLAY_RANK r); reflexivity. }
    split; [exact E|]. rewrite E. apply strength_lone.
Qed.

Lemma C5_lone_strength_witness :
  let r := plain_row "P1" "I1" (Some 100%Q) (Some 1%Q) (Some 1) None in
  EnricherV1.norm_score 1 1 1 = 0.5%Q
  /\ (let dr := default 0 (DISPLAY_RANK r) in
      let mx := default 0 (EnricherV2.maxr [r] !! PROFILE_ID r) in
      mx = dr /\ (EnricherV2.strength dr mx == if dr <=? 1 then 1 else 0)%Q).
Proof.
  intros r. split.
  - apply (proj1 C5_lone_strength). lra.
  - apply (proj2 (proj2 C5_lone_strength) [r] r). reflexivity.
Defined.

(** C5 as stated fails for the display-rank enricher: the only
    candidate of a profile, of display rank 1, is enriched with
    strength 1, not 0.5. *)
Lemma C5_counterexample :
  let r := plain_row "P1" "I1" (Some 100%Q) (Some 1%Q) (Some 1) None in
  let rows := [r] in
  filter (fun x => PROFILE_ID x = PROFILE_ID r) rows = [r]
  /\ (EnricherV2.strength (default 0%Z (DISPLAY_RANK r))
        (default 0%Z (EnricherV2.maxr rows !! PROFILE_ID r)) == 1)%Q
  /\ ~ (EnricherV2.strength (default 0%Z (DISPLAY_RANK r))
          (default 0%Z (EnricherV2.maxr rows !! PROFILE_ID r)) == 0.5)%Q.
Proof.
  cbv zeta. split; [reflexivity|]. split; [reflexivity|].
  intros H. vm_compute in H. discriminate.
Qed.

(** [main] of the display-rank enricher without the early return. *)
Lemma v2_main_updates now env date creamy :
  EnricherV2.main now env date creamy =
  let rows := filter (fun r => Is_true (creamy_of env date r)) creamy in
  executemany (omap (EnricherV2.enrich_row (EnricherV2.maxr rows) now env date) rows)
              creamy.
Proof.
  unfold EnricherV2.main.
  destruct (filter (fun r => Is_true (creamy_of env date r)) creamy); reflexivity.
Qed.

(** *** The stored confidence *)

Lemma enrich_row_v2_conf maxr now env date r u :
  EnricherV2.enrich_row maxr now env date r = Some u ->
  (35 <= u_conf u <= 95)%Q.
Proof.
  unfold EnricherV2.enrich_row.
  destruct (Qle_bool _ _); [discriminate|]. intros [= <-].
  cbn [u_conf EnricherV2.metrics EnricherV2.m_conf].
  match goal with
  | |- (_ <= EnricherV2.clamp ?x ?lo ?hi <= _)%Q =>
    pose proof (clamp_v2_bounds x lo hi) as H
  end.
  lra.
Qed.

Lemma enrich_row_v1_conf now env date pid risk smin smax r :
  exists z : Z,
    u_conf (EnricherV1.enrich_row now env date pid risk smin smax r) = inject_Z z
    /\ 1 <= z <= 99.
Proof.
  unfold EnricherV1.enrich_row. cbn [u_conf].
  eexists. split; [reflexivity|].
  unfold EnricherV1.metrics. destruct (EnricherV1.risk_params risk) as [[? ?] ?].
  cbn [EnricherV1.m_conf].
  apply round_half_even_bounds.
  match goal with
  | |- (_ <= EnricherV1.clamp ?x ?lo ?hi <= _)%Q =>
    assert (H : (lo <= EnricherV1.clamp x lo hi <= hi)%Q)
      by (apply clamp_v1_bounds; lra);
    generalize dependent (EnricherV1.clamp x lo hi)
  end.
  intros c Hc. unfold inject_Z. lra.
Qed.

(** The confidence column of a row the display-rank enricher processes. *)
Lemma v2_stored_confidence now env date creamy (i : nat) r :
  creamy !! i = Some r -> Is_true (creamy_of env date r) ->
  (0 < default 0%Q (ENTRY_PRICE r))%Q ->
  exists r' c,
    EnricherV2.main now env date creamy !! i = Some r'
    /\ CONFIDENCE r' = Some c /\ (35 <= c <= 95)%Q.
Proof.
  intros Hi Hsel Hentry. rewrite v2_main_updates. cbv zeta.
  set (rows := filter (fun r => Is_true (creamy_of env date r)) creamy).
  set (us := omap (EnricherV2.enrich_row (EnricherV2.maxr rows) now env date) rows).
  assert (Hr : r ∈ rows).
  { apply list_elem_of_filter. split; [assumption|]. by eapply list_elem_of_lookup_2. }
  destruct (EnricherV2.enrich_row (EnricherV2.maxr rows) now env date r)
    as [u0|] eqn:Hu0.
  2:{ unfold EnricherV2.enrich_row in Hu0.
      destruct (Qle_bool (default 0%Q (ENTRY_PRICE r)) 0) eqn:E; [|discriminate].
      apply Qle_bool_iff in E. lra. }
  assert (Hin : u0 ∈ us) by (apply list_elem_of_omap; by exists r).
  assert (Hm : update_matches u0 r = true).
  { apply update_matches_key. apply enrich_row_v2_key in Hu0 as [-> _].
    apply creamy_of_true in Hsel as (<- & <- & _). reflexivity. }
  destruct (executemany_lookup us creamy i r u0 Hi Hin Hm) as (u & Hu & ->).
  exists (set_metrics u r), (u_conf u). split; [reflexivity|].
  split; [reflexivity|].
  apply list_elem_of_omap in Hu as (r' & _ & Hu).
  by apply enrich_row_v2_conf in Hu.
Qed.

Lemma enrich_group_elem now env date profiles item u :
  u ∈ EnricherV1.enrich_group now env date profiles item ->
  exists risk smin smax r,
    r ∈ item.2
    /\ u = EnricherV1.enrich_row now env date item.1 risk smin smax r.
Proof.
  unfold EnricherV1.enrich_group.
  destruct (map _ item.2) as [|s0 ss]; [by intros ?%elem_of_nil|].
  change (map ?g ?l) with (g <$> l). intros (r & -> & Hr)%list_elem_of_fmap.
  by eexists _, _, _, r.
Qed.

Lemma enrich_group_row now env date profiles item r :
  r ∈ item.2 ->
  exists risk smin smax,
    EnricherV1.enrich_row now env date item.1 risk smin smax r
    ∈ EnricherV1.enrich_group now env date profiles item.
Proof.
  intros Hr. unfold EnricherV1.enrich_group.
  destruct (map _ item.2) as [|s0 ss] eqn:E.
  - destruct item.2; [by apply elem_of_nil in Hr|discriminate].
  - eexists _, _, _. change (map ?g ?l) with (g <$> l).
    apply list_elem_of_fmap. by exists r.
Qed.

(** The confidence column of a row the min-max enricher processes. *)
Lemma v1_stored_confidence now env date profiles creamy (i : nat) r :
  creamy !! i = Some r -> Is_true (creamy_of env date r) ->
  exists r' z,
    EnricherV1.main now env date profiles creamy !! i = Some r'
    /\ CONFIDENCE r' = Some (inject_Z z) /\ 1 <= z <= 99.
Proof.
  intros Hi Hsel. unfold EnricherV1.main.
  set (rows := filter (fun r => Is_true (creamy_of env date r)) creamy).
  assert (Hr : r ∈ rows).
  { apply list_elem_of_filter. split; [assumption|]. by eapply list_elem_of_lookup_2. }
  set (us := concat (map (EnricherV1.enrich_group now env date profiles)
                         (fold_left setdefault_append rows []))).
  assert (Hgoal : exists r' z,
             executemany us creamy !! i = Some r'
             /\ CONFIDENCE r' = Some (inject_Z z) /\ 1 <= z <= 99).
  { destruct (grouped rows r Hr) as (item & Hitem & Hp & Hri).
    destruct (enrich_group_row now env date profiles item r Hri)
      as (risk & smin & smax & Hu0).
    set (u0 := EnricherV1.enrich_row now env date item.1 risk smin smax r) in *.
    assert (Hin : u0 ∈ us).
    { apply list_elem_of_In, in_concat.
      exists (EnricherV1.enrich_group now env date profiles item).
      split; [apply in_map, list_elem_of_In, Hitem|by apply list_elem_of_In]. }
    assert (Hm : update_matches u0 r = true).
    { apply update_matches_key. subst u0. cbn. rewrite Hp.
      apply creamy_of_true in Hsel as (<- & <- & _). reflexivity. }
    destruct (executemany_lookup us creamy i r u0 Hi Hin Hm) as (u & Hu & ->).
    apply list_elem_of_In, in_concat in Hu as (g & Hg & Hu).
    apply in_map_iff in Hg as (item' & <- & _).
    apply list_elem_of_In, enrich_group_elem in Hu
      as (risk' & smin' & smax' & r' & _ & ->).
    destruct (enrich_row_v1_conf now env date item'.1 risk' smin' smax' r')
      as (z & Hz & Hb).
    exists (set_metrics (EnricherV1.enrich_row now env date item'.1 risk' smin'
                           smax' r') r), z.
    split; [reflexivity|]. split; [|assumption]. cbn [set_metrics CONFIDENCE].
    by rewrite Hz. }
  destruct rows; [by apply elem_of_nil in Hr|exact Hgoal].
Qed.

(** C8.  Every selected row the display-rank enricher (v2) processes
    (entry price positive) is stored with a confidence in [35, 95], and
    every selected row the min-max enricher (v1) processes with an
    integer confidence in [1, 99].  The confidence v2 stores is the
    clamped value itself, not its rounding [conf_int], which only goes
    into the rationale: the second of three BALANCED candidates, entry
    price 100, is stored with confidence 77.2, no integer, while its
    rationale reads "Conf 77/100". *)
Theorem C8_confidence :
  (forall (now env date : string) (creamy : list CreamyRow) (i : nat)
          (r : CreamyRow),
      creamy !! i = Some r -> Is_true (creamy_of env date r) ->
      (0 < default 0%Q (ENTRY_PRICE r))%Q ->
      exists r' c,
        EnricherV2.main now env date creamy !! i = Some r'
        /\ CONFIDENCE r' = Some c /\ (35 <= c <= 95)%Q)
  /\ (forall (now env date : string) (profiles : gmap string EnricherV1.Meta)
             (creamy : list CreamyRow) (i : nat) (r : CreamyRow),
         creamy !! i = Some r -> Is_true (creamy_of env date r) ->
         exists r' z,
           EnricherV1.main now env date profiles creamy !! i = Some r'
           /\ CONFIDENCE r' = Some (inject_Z z) /\ 1 <= z <= 99)
  /\ (let rows := [plain_row "BALANCED" "I1" (Some 100%Q) None (Some 1) None;
                   plain_row "BALANCED" "I2" (Some 100%Q) None (Some 2) None;
                   plain_row "BALANCED" "I3" (Some 100%Q) None (Some 3) None] in
      exists r' c,
        EnricherV2.main "now" "SIM" "2025-12-01" rows !! 1%nat = Some r'
        /\ CONFIDENCE r' = Some c
        /\ (c == 77.2)%Q
        /\ (forall z : Z, ~ (c == inject_Z z)%Q)
        /\ AI_REASON r' = Some "Profile=BALANCED (BALANCED). Exp 4.50% / Down 2.50% / R:R 1.80. Conf 77/100. Entry 100.00, Target 104.50, SL 97.50."%string).
Proof.
  split; [exact v2_stored_confidence|]. split; [exact v1_stored_confidence|].
  cbv zeta. eexists _, _. split; [vm_compute; reflexivity|].
  split; [reflexivity|]. split; [reflexivity|]. split; [|reflexivity].
  intros z H. unfold Qeq in H. cbn in H. lia.
Qed.

Lemma C8_confidence_witness :
  let rows := [plain_row "BALANCED" "I1" (Some 100%Q) None (Some 1) None;
               plain_row "BALANCED" "I2" (Some 100%Q) None (Some 2) None] in
  (exists r' c,
      EnricherV2.main "now" "SIM" "2025-12-01" rows !! 1%nat = Some r'
      /\ CONFIDENCE r' = Some c /\ (35 <= c <= 95)%Q)
  /\ (exists r' z,
         EnricherV1.main "now" "SIM" "2025-12-01" ∅ rows !! 1%nat = Some r'
         /\ CONFIDENCE r' = Some (inject_Z z) /\ 1 <= z <= 99).
Proof.
  intros rows. split.
  - apply (proj1 C8_confidence "now" "SIM" "2025-12-01" rows 1%nat
             (plain_row "BALANCED" "I2" (Some 100%Q) None (Some 2) None));
      [reflexivity | exact I | cbn; lra].
  - apply (proj1 (proj2 C8_confidence) "now" "SIM" "2025-12-01" ∅ rows 1%nat
             (plain_row "BALANCED" "I2" (Some 100%Q) None (Some 2) None));
      [reflexivity | exact I].
Defined.

(** *** Enriching twice *)

Lemma enrich_row_v2_inputs maxr now1 now2 env date r r' :
  same_inputs r' r ->
  EnricherV2.enrich_row maxr now2 env date r'
  = set_now now2 <$> EnricherV2.enrich_row maxr now1 env date r.
Proof.
  intros (K & _ & E & D & _). unfold row_key in K. injection K as _ _ Kp Ki.
  unfold EnricherV2.enrich_row. rewrite Kp, Ki, E, D.
  destruct (Qle_bool _ _); reflexivity.
Qed.

Lemma maxr_inputs (g : CreamyRow -> CreamyRow) rows :
  (forall r, same_inputs (g r) r) ->
  EnricherV2.maxr (map g rows) = EnricherV2.maxr rows.
Proof.
  intros Hg. apply map_eq. intros pid. rewrite !maxr_lookup.
  assert (E1 : map PROFILE_ID (map g rows) = map PROFILE_ID rows).
  { rewrite map_map. apply map_ext. intros r.
    destruct (Hg r) as (K & _). unfold row_key in K. congruence. }
  assert (E2 : map DISPLAY_RANK (filter (fun x => PROFILE_ID x = pid) (map g rows))
               = map DISPLAY_RANK (filter (fun x => PROFILE_ID x = pid) rows)).
  { clear E1. induction rows as [|r l IH]; [reflexivity|]. cbn [map].
    destruct (Hg r) as (K & _ & _ & D & _). unfold row_key in K.
    injection K as _ _ Kp _. rewrite !filter_cons, Kp.
    destruct (decide (PROFILE_ID r = pid)); cbn [map]; by rewrite ?D, IH. }
  by rewrite E1, E2.
Qed.

Lemma omap_enrich_v2 maxr now1 now2 env date (g : CreamyRow -> CreamyRow) rows :
  (forall r, same_inputs (g r) r) ->
  omap (EnricherV2.enrich_row maxr now2 env date) (map g rows)
  = map (set_now now2) (omap (EnricherV2.enrich_row maxr now1 env date) rows).
Proof.
  intros Hg. induction rows as [|r l IH]; [reflexivity|].
  cbn [map omap list_omap]. rewrite IH.
  rewrite (enrich_row_v2_inputs maxr now1 now2 env date r (g r) (Hg r)).
  destruct (EnricherV2.enrich_row maxr now1 env date r); reflexivity.
Qed.

Lemma last_match_set_now now us r r' :
  row_key r' = row_key r ->
  last_match (map (set_now now) us) r' = set_now now <$> last_match us r.
Proof.
  intros K. unfold last_match.
  assert (H : forall acc,
             fold_left (fun acc u => if update_matches u r' then Some u else acc)
                       (map (set_now now) us) (set_now now <$> acc)
             = set_now now <$>
               fold_left (fun acc u => if update_matches u r then Some u else acc)
                         us acc).
  { induction us as [|u us IH]; intros acc; cbn [map fold_left]; [reflexivity|].
    assert (E : update_matches (set_now now u) r' = update_matches u r).
    { rewrite (update_matches_same_key _ r' r K). reflexivity. }
    rewrite E. destruct (update_matches u r).
    - apply (IH (Some u)).
    - apply IH. }
  apply (H None).
Qed.

Lemma apply_updates_twice now us r :
  forget_timestamp (apply_updates (map (set_now now) us) (apply_updates us r))
  = forget_timestamp (apply_updates us r).
Proof.
  rewrite (apply_updates_last (map (set_now now) us)).
  rewrite (last_match_set_now now us r _ (apply_updates_key us r)).
  rewrite (apply_updates_last us r).
  destruct (last_match us r); reflexivity.
Qed.

(** Running the display-rank enricher a second time changes nothing
    but the update timestamps. *)
Lemma v2_twice now1 now2 env date creamy :
  map forget_timestamp
      (EnricherV2.main now2 env date (EnricherV2.main now1 env date creamy))
  = map forget_timestamp (EnricherV2.main now1 env date creamy).
Proof.
  rewrite (v2_main_updates now1), (v2_main_updates now2). cbv zeta.
  set (rows := filter (fun r => Is_true (creamy_of env date r)) creamy).
  set (us := omap (EnricherV2.enrich_row (EnricherV2.maxr rows) now1 env date) rows).
  rewrite (executemany_map us).
  rewrite (filter_creamy_map env date _ _ (apply_updates_inputs us)).
  fold rows.
  rewrite (maxr_inputs _ rows (apply_updates_inputs us)).
  rewrite (omap_enrich_v2 _ now1 now2 env date _ rows (apply_updates_inputs us)).
  fold us. rewrite executemany_map, !map_map.
  apply map_ext. intros r. apply apply_updates_twice.
Qed.

(** C6.  The display-rank enricher (v2) rebuilds the rationale from the
    candidate's profile, entry price and rank, so a second run stores
    the same rationale as the first for every row of every table.  The
    min-max enricher (v1) patches the stored text: every one of its
    patterns needs a backslash in the text to match, so on a rationale
    without one the old expected-return, confidence and risk-bucket
    fragments stay as they are and the tag [[CONF=..][RR=..][RB=..]] is
    appended again at every run, as on the table of one row below. *)
Theorem C6_rationale_twice :
  (forall (now1 now2 env date : string) (creamy : list CreamyRow),
      map AI_REASON
          (EnricherV2.main now2 env date (EnricherV2.main now1 env date creamy))
      = map AI_REASON (EnricherV2.main now1 env date creamy))
  /\ (forall (reason : string) (roi : Q) (conf : Z) (bucket : string) (rr : Q),
         Regex.backslash ∉ chars reason -> Regex.backslash ∉ chars bucket ->
         let once := EnricherV1.patch_reason reason roi conf bucket rr in
         let twice := EnricherV1.patch_reason once roi conf bucket rr in
         once = rstrip reason +:+ EnricherV1.reason_tag conf bucket rr
         /\ twice = once +:+ EnricherV1.reason_tag conf bucket rr
         /\ twice <> once)
  /\ (let r0 := plain_row "P1" "I1" (Some 100%Q) (Some 1%Q) (Some 1)
                  (Some "Strong momentum. Expected return about 3.10%, confidence 71/100. Risk bucket: AGGRESSIVE") in
      let once := EnricherV1.main "t1" "SIM" "2025-12-01" ∅ [r0] in
      let twice := EnricherV1.main "t2" "SIM" "2025-12-01" ∅ once in
      map AI_REASON once
      = [Some "Strong momentum. Expected return about 3.10%, confidence 71/100. Risk bucket: AGGRESSIVE [CONF=76/100][RR=1.80][RB=BALANCED]"]
      /\ map AI_REASON twice
         = [Some "Strong momentum. Expected return about 3.10%, confidence 71/100. Risk bucket: AGGRESSIVE [CONF=76/100][RR=1.80][RB=BALANCED] [CONF=76/100][RR=1.80][RB=BALANCED]"]
      /\ map AI_REASON twice <> map AI_REASON once).
Proof.
  split; [|split].
  - intros now1 now2 env date creamy.
    assert (H : forall l, map AI_REASON l = map AI_REASON (map forget_timestamp l)).
    { intros l. rewrite map_map. apply map_ext. reflexivity. }
    rewrite (H (EnricherV2.main now2 _ _ _)), (H (EnricherV2.main now1 _ _ _)).
    by rewrite v2_twice.
  - intros reason roi conf bucket rr Hr Hb once twice. subst once twice.
    rewrite patch_reason_twice_plain by assumption.
    split; [by apply patch_reason_plain|]. split; [reflexivity|].
    apply append_neq. apply (reason_tag_rstrip EmptyString).
  - cbv zeta.
    split; [vm_compute; reflexivity|]. split; [vm_compute; reflexivity|].
    vm_compute. discriminate.
Qed.

Lemma C6_rationale_twice_witness :
  let reason := "Expected return about 3.10%, confidence 71/100"%string in
  let once := EnricherV1.patch_reason reason 4.5 76 "BALANCED" 1.8 in
  let twice := EnricherV1.patch_reason once 4.5 76 "BALANCED" 1.8 in
  once = rstrip reason +:+ EnricherV1.reason_tag 76 "BALANCED" 1.8
  /\ twice = once +:+ EnricherV1.reason_tag 76 "BALANCED" 1.8
  /\ twice <> once.
Proof.
  apply (proj1 (proj2 C6_rationale_twice)
           "Expected return about 3.10%, confidence 71/100"%string
           4.5%Q 76 "BALANCED"%string 1.8%Q).
  - apply (bool_decide_unpack _). vm_compute. exact I.
  - apply (bool_decide_unpack _). vm_compute. exact I.
Defined.

End EnricherFacts.

(** ** Profile expansion *)

Section ExpandFacts.

Import Expand.

Lemma count_positive {A} (P : A -> Prop) `{forall x, Decision (P x)} (l : list A) :
  (0 <? length (filter P l))%nat = true <-> exists x, x ∈ l /\ P x.
Proof.
  split.
  - destruct (filter P l) as [|x l'] eqn:E; [discriminate|]. intros _.
    assert (Hx : x ∈ filter P l) by (rewrite E; left).
    apply list_elem_of_filter in Hx as [HP Hx]. by exists x.
  - intros (x & Hx & HP).
    assert (Hin : x ∈ filter P l) by (by apply list_elem_of_filter).
    destruct (filter P l); [by apply elem_of_nil in Hin|reflexivity].
Qed.

Lemma base_profile_selected creamy env date base :
  base_profile creamy env date = Some base -> has_selected env date base creamy.
Proof.
  unfold base_profile.
  set (rows := filter (fun r => Is_true (creamy_of env date r)) creamy).
  set (groups := map _ _).
  destruct (head (merge_sort group_le groups)) as [[p c]|] eqn:Hh; [|discriminate].
  cbn. intros [= ->].
  apply head_Some_elem_of in Hh. rewrite merge_sort_Permutation in Hh.
  subst groups. change (map ?g ?l) with (g <$> l) in Hh.
  apply list_elem_of_fmap in Hh as (pid & [= -> _] & Hpid).
  rewrite elem_of_remove_dups in Hpid.
  change (map ?g ?l) with (g <$> l) in Hpid.
  apply list_elem_of_fmap in Hpid as (r & -> & Hr).
  apply list_elem_of_filter in Hr as [Hsel Hr].
  exists r. split; [assumption|].
  apply Is_true_true. apply Is_true_true in Hsel.
  by rewrite Hsel, String.eqb_refl.
Qed.

Lemma has_selected_app env date pid l1 l2 :
  has_selected env date pid l1 -> has_selected env date pid (l1 ++ l2).
Proof.
  intros (r & Hr & H). exists r. split; [|assumption].
  apply elem_of_app. by left.
Qed.

Lemma expand_profile_keeps env date base now st pid p :
  has_selected env date p st.1 ->
  has_selected env date p (expand_profile env date base now st pid).1.
Proof.
  intros H. unfold expand_profile. destruct st as [creamy created].
  destruct (String.eqb pid base); [assumption|].
  destruct (0 <? _)%nat; [assumption|].
  cbn in *. by apply has_selected_app.
Qed.

Lemma clone_selected env date pid now r :
  Is_true (creamy_of env date r) ->
  Is_true (creamy_of env date (clone pid now r)
           && String.eqb (PROFILE_ID (clone pid now r)) pid).
Proof.
  intros H. apply Is_true_true. apply Is_true_true in H.
  cbn [clone PROFILE_ID]. rewrite String.eqb_refl, andb_true_r.
  exact H.
Qed.

Lemma expand_profile_covers env date base now st pid :
  has_selected env date base st.1 ->
  has_selected env date pid (expand_profile env date base now st pid).1.
Proof.
  intros Hbase. unfold expand_profile. destruct st as [creamy created].
  cbn [fst] in Hbase.
  destruct (String.eqb pid base) eqn:Eb.
  { apply String.eqb_eq in Eb. by subst. }
  destruct (0 <? _)%nat eqn:Ex.
  { apply count_positive in Ex. exact Ex. }
  cbn [fst]. destruct Hbase as (r & Hr & Hsel).
  exists (clone pid now r). split.
  - apply elem_of_app. right.
    change (map ?g ?l) with (g <$> l). apply list_elem_of_fmap.
    exists r. split; [reflexivity|]. by apply list_elem_of_filter.
  - apply clone_selected. apply Is_true_true in Hsel. apply Is_true_true.
    apply andb_true_iff in Hsel. tauto.
Qed.

Lemma expand_all_covers env date base now pids st pid :
  has_selected env date base st.1 -> pid ∈ pids ->
  has_selected env date pid
    (fold_left (expand_profile env date base now) pids st).1.
Proof.
  revert st. induction pids as [|p pids IH]; intros st Hbase Hin.
  - by apply elem_of_nil in Hin.
  - cbn [fold_left].
    assert (Hbase' : has_selected env date base
                       (expand_profile env date base now st p).1)
      by (by apply expand_profile_keeps).
    apply elem_of_cons in Hin as [->|Hin].
    + pose proof (expand_profile_covers env date base now st p Hbase) as Hp.
      clear IH Hbase Hbase'. revert Hp.
      generalize (expand_profile env date base now st p).
      induction pids as [|q pids IH]; intros st' Hp; [assumption|].
      cbn [fold_left]. apply IH. by apply expand_profile_keeps.
    + by apply IH.
Qed.

Lemma expand_profile_fixed env date base now creamy created pid :
  has_selected env date pid creamy ->
  expand_profile env date base now (creamy, created) pid = (creamy, created).
Proof.
  intros H. unfold expand_profile.
  destruct (String.eqb pid base); [reflexivity|].
  pose proof (proj2 (count_positive
                       (fun r => Is_true (creamy_of env date r
                                          && String.eqb (PROFILE_ID r) pid))
                       creamy) H) as Hc.
  by rewrite Hc.
Qed.

Lemma expand_all_fixed env date base now pids creamy created :
  (forall pid, pid ∈ pids -> has_selected env date pid creamy) ->
  fold_left (expand_profile env date base now) pids (creamy, created)
  = (creamy, created).
Proof.
  induction pids as [|p pids IH]; intros H; [reflexivity|].
  cbn [fold_left]. rewrite expand_profile_fixed by (apply H; left).
  apply IH. intros pid Hpid. apply H. by right.
Qed.

Lemma main_fold now env date profiles creamy :
  main now env date profiles creamy =
  match base_profile creamy env date with
  | None => (creamy, 0%nat)
  | Some base =>
    fold_left (expand_profile env date base now) (merge_sort String.le profiles)
              (creamy, 0%nat)
  end.
Proof.
  unfold main. destruct (base_profile creamy env date); [|reflexivity].
  destruct (merge_sort String.le profiles); reflexivity.
Qed.

(** C9.  A second run of the expansion on the table the first run
    left, whatever the clock reads, creates no row: the table, and so
    its row count, is the one after the first run. *)
Theorem C9_expand_idempotent (now1 now2 env date : string)
    (profiles : list string) (creamy : list CreamyRow) :
  let once := main now1 env date profiles creamy in
  let twice := main now2 env date profiles once.1 in
  twice.1 = once.1 /\ twice.2 = 0%nat /\ length twice.1 = length once.1.
Proof.
  intros once twice.
  enough (H : twice = (once.1, 0%nat)) by (rewrite H; auto).
  subst twice once. rewrite (main_fold now1).
  destruct (base_profile creamy env date) as [base|] eqn:Hb.
  - rewrite main_fold.
    set (once := fold_left (expand_profile env date base now1)
                   (merge_sort String.le profiles) (creamy, 0%nat)).
    destruct (base_profile once.1 env date) as [base'|]; [|reflexivity].
    apply expand_all_fixed. intros pid Hpid.
    apply expand_all_covers; [|assumption]. by apply base_profile_selected.
  - cbn [fst]. by rewrite main_fold, Hb.
Qed.

End ExpandFacts.

(** * Further properties of the scripts *)

(** ** Lists, orders and rounding *)

Section ListFacts.

Lemma filter_none {A} (P : A -> Prop) `{forall x, Decision (P x)} (l : list A) :
  (forall x, x ∈ l -> ~ P x) -> filter P l = [].
Proof.
  induction l as [|x l IH]; intros Hl; [reflexivity|].
  rewrite filter_cons, decide_False by (apply Hl; left).
  apply IH. intros y Hy. apply Hl. by right.
Qed.

Lemma StronglySorted_sublist {A} (R : relation A) (l1 l2 : list A) :
  l1 `sublist_of` l2 -> StronglySorted R l2 -> StronglySorted R l1.
Proof.
  induction 1 as [|x l1 l2 Hsub IH|x l1 l2 Hsub IH]; intros Hs.
  - constructor.
  - apply StronglySorted_inv in Hs as [Hs Hall]. constructor; [by apply IH|].
    rewrite Forall_forall in *. intros y Hy. apply Hall.
    by apply (sublist_subseteq _ _ Hsub).
  - apply StronglySorted_inv in Hs as [Hs _]. by apply IH.
Qed.

Lemma max2_ge (a b : Q) : (a <= max2 a b)%Q /\ (b <= max2 a b)%Q.
Proof.
  unfold max2. destruct (Qlt_bool a b) eqn:E.
  - apply Qlt_bool_iff in E. lra.
  - apply Qlt_bool_false in E. lra.
Qed.

Lemma min2_le (a b : Q) : (min2 a b <= a)%Q /\ (min2 a b <= b)%Q.
Proof.
  unfold min2. destruct (Qlt_bool b a) eqn:E.
  - apply Qlt_bool_iff in E. lra.
  - apply Qlt_bool_false in E. lra.
Qed.

Lemma max_of_ge (x : Q) (xs : list Q) :
  forall y, y ∈ x :: xs -> (y <= max_of x xs)%Q.
Proof.
  unfold max_of. revert x. induction xs as [|z xs IH]; intros x y Hy; cbn.
  - apply list_elem_of_singleton in Hy as ->. lra.
  - pose proof (max2_ge x z) as [H1 H2].
    pose proof (IH (max2 x z) (max2 x z) ltac:(left)) as H3.
    apply elem_of_cons in Hy as [->|Hy]; [lra|].
    apply elem_of_cons in Hy as [->|Hy]; [lra|].
    apply IH. by right.
Qed.

Lemma min_of_le (x : Q) (xs : list Q) :
  forall y, y ∈ x :: xs -> (min_of x xs <= y)%Q.
Proof.
  unfold min_of. revert x. induction xs as [|z xs IH]; intros x y Hy; cbn.
  - apply list_elem_of_singleton in Hy as ->. lra.
  - pose proof (min2_le x z) as [H1 H2].
    pose proof (IH (min2 x z) (min2 x z) ltac:(left)) as H3.
    apply elem_of_cons in Hy as [->|Hy]; [lra|].
    apply elem_of_cons in Hy as [->|Hy]; [lra|].
    apply IH. by right.
Qed.

Lemma max_of_elem (x : Q) (xs : list Q) : max_of x xs ∈ x :: xs.
Proof.
  unfold max_of. revert x. induction xs as [|z xs IH]; intros x; cbn; [left|].
  specialize (IH (max2 x z)).
  apply elem_of_cons in IH as [->|IH]; [|by do 2 right].
  unfold max2. destruct (Qlt_bool x z); [right|]; left.
Qed.

Lemma min_of_elem (x : Q) (xs : list Q) : min_of x xs ∈ x :: xs.
Proof.
  unfold min_of. revert x. induction xs as [|z xs IH]; intros x; cbn; [left|].
  specialize (IH (min2 x z)).
  apply elem_of_cons in IH as [->|IH]; [|by do 2 right].
  unfold min2. destruct (Qlt_bool z x); [right|]; left.
Qed.

End ListFacts.

(** ** The simulator: window, queries and counters *)

Section BacktestMore.

Import Backtest.

(** Goals on the fields of an accumulator after one trade. *)
Ltac stat_goal :=
  cbn [bump count_candidate days n sum_edge sum_conf sum_roi tgt_hit sl_hit
       amb none win lose sum_realized andb];
  try lia; try reflexivity.

#[local] Instance eod_le_trans : Transitive eod_le.
Proof. intros a b c. unfold eod_le. apply transitivity. Qed.

#[local] Instance eod_le_total : Total eod_le.
Proof. intros a b. unfold eod_le. apply total, _. Qed.

(** The sort of the candidates' [ORDER BY] rearranges the rows it is
    given, and rows that compare equal keep their stored order. *)
Lemma insert_by_Permutation {A} (leb : A -> A -> bool) (x : A) (l : list A) :
  insert_by leb x l ≡ₚ x :: l.
Proof.
  induction l as [|y l IH]; cbn [insert_by]; [reflexivity|].
  destruct (leb x y); [reflexivity|].
  rewrite IH. apply Permutation_swap.
Qed.

Lemma sort_by_Permutation {A} (leb : A -> A -> bool) (l : list A) :
  sort_by leb l ≡ₚ l.
Proof.
  unfold sort_by. induction l as [|x l IH]; cbn [foldr]; [reflexivity|].
  by rewrite insert_by_Permutation, IH.
Qed.

Lemma day_rows_elem (creamy : list CreamyRow) (env rd : string) (r : CreamyRow) :
  r ∈ day_rows creamy env rd <-> Is_true (creamy_of env rd r) /\ r ∈ creamy.
Proof.
  unfold day_rows. by rewrite sort_by_Permutation, list_elem_of_filter.
Qed.

Lemma day_rows_ties_keep_order :
  map INSTRUMENT_ID
      (day_rows [cand_for "B" 2 100 110 95 8 70; cand_for "A" 1 100 110 95 8 70;
                 cand_for "C" 1 100 110 95 8 70; cand_for "D" 1 100 110 95 8 70]
                "SIM" "2025-12-01")
  = ["A"; "C"; "D"; "B"].
Proof. vm_compute. reflexivity. Qed.

(** X1.  Reading of the forward window: the target counts as hit
    exactly when it is positive and the high of some bar of the window
    reaches it, the stop exactly when it is positive and the low of
    some bar falls to it. *)
Theorem X1_hit_iff_some_bar (target stop : Q) (x : EodRow) (xs : list EodRow) :
  (hit_t target (max_high x xs) = true <->
   (0 < target)%Q /\ exists y, y ∈ x :: xs /\ (target <= f (HIGH_PRICE y))%Q)
  /\ (hit_s stop (min_low x xs) = true <->
      (0 < stop)%Q /\ exists y, y ∈ x :: xs /\ (f (LOW_PRICE y) <= stop)%Q).
Proof.
  assert (Hmap : forall (g : EodRow -> Q) y, y ∈ x :: xs ->
                   g y ∈ g x :: map g xs).
  { intros g y Hy. change (g x :: map g xs) with (g <$> (x :: xs)).
    by apply list_elem_of_fmap_2. }
  assert (Hinv : forall (g : EodRow -> Q) q, q ∈ g x :: map g xs ->
                   exists y, y ∈ x :: xs /\ q = g y).
  { intros g q Hq. change (g x :: map g xs) with (g <$> (x :: xs)) in Hq.
    apply list_elem_of_fmap in Hq as (y & -> & Hy). by exists y. }
  unfold hit_t, hit_s, max_high, min_low.
  rewrite !andb_true_iff, !Qlt_bool_iff, !Qle_bool_iff. split.
  - split.
    + intros [Hpos Hle]. split; [assumption|].
      destruct (Hinv (fun y => f (HIGH_PRICE y)) _ (max_of_elem _ _))
        as (y & Hy & E).
      exists y. split; [assumption|]. by rewrite <- E.
    + intros [Hpos (y & Hy & Hle)]. split; [assumption|].
      pose proof (max_of_ge _ _ _ (Hmap (fun y => f (HIGH_PRICE y)) y Hy)). lra.
  - split.
    + intros [Hpos Hle]. split; [assumption|].
      destruct (Hinv (fun y => f (LOW_PRICE y)) _ (min_of_elem _ _))
        as (y & Hy & E).
      exists y. split; [assumption|]. by rewrite <- E.
    + intros [Hpos (y & Hy & Hle)]. split; [assumption|].
      pose proof (min_of_le _ _ _ (Hmap (fun y => f (LOW_PRICE y)) y Hy)). lra.
Qed.

Lemma limit_sublist {A} (k : Z) (l : list A) : limit k l `sublist_of` l.
Proof. unfold limit. destruct (k <? 0); [reflexivity|apply sublist_take]. Qed.

(** X2.  The price query: every bar it returns is a stored bar of the
    instrument dated strictly after the run date, the bars come in date
    order, and unless the horizon is negative (no limit in SQLite) there
    are at most [horizon] of them. *)
Theorem X2_next_eods (eod : list EodRow) (instrument rd : string) (horizon : Z) :
  (forall x, x ∈ next_eods eod instrument rd horizon ->
     x ∈ eod /\ EOD_INSTRUMENT_ID x = instrument
     /\ String.ltb rd (TRADE_DATE x) = true)
  /\ StronglySorted eod_le (next_eods eod instrument rd horizon)
  /\ (horizon < 0 \/ Z.of_nat (length (next_eods eod instrument rd horizon)) <= horizon).
Proof.
  unfold next_eods.
  set (sel := filter _ eod). split; [|split].
  - intros x Hx. apply (sublist_subseteq _ _ (limit_sublist _ _)) in Hx.
    rewrite merge_sort_Permutation in Hx. subst sel.
    apply list_elem_of_filter in Hx as [HP Hx]. split; [assumption|].
    apply Is_true_true, andb_true_iff in HP as [Hi Hd].
    by apply String.eqb_eq in Hi.
  - eapply StronglySorted_sublist; [apply limit_sublist|].
    apply StronglySorted_merge_sort; apply _.
  - unfold limit. destruct (horizon <? 0) eqn:E; [left; lia|right].
    apply Z.ltb_ge in E. rewrite length_take. lia.
Qed.

(** X3.  An instrument without a stored bar after the run date: the
    query returns nothing, and the candidate is still counted as a
    trade: its run date joins the profile's days, the trade count
    grows by one, and its edge (expected return less the downside to
    the stop, in percent of the entry), confidence and expected return
    are added to the sums.  It is booked as outcome "none", without any
    realized return, under every policy. *)
Theorem X3_no_forward_bars (rule : AmbRule) (rd : string) (r : CreamyRow)
    (eod : list EodRow) (horizon : Z) (st : Stat) :
  (forall x, x ∈ eod -> EOD_INSTRUMENT_ID x = INSTRUMENT_ID r ->
     String.ltb rd (TRADE_DATE x) = false) ->
  let eods := next_eods eod (INSTRUMENT_ID r) rd horizon in
  let st' := trade rule rd eods r st in
  let entry := f (ENTRY_PRICE r) in
  let roi := f (EXPECTED_RETURN_PCT r) in
  let downside :=
    if Qeq_bool entry 0 then 0%Q else pct (entry - f (STOP_LOSS r)) entry in
  eods = []
  /\ n st' = n st + 1 /\ none st' = none st + 1
  /\ sum_realized st' = sum_realized st
  /\ tgt_hit st' = tgt_hit st /\ sl_hit st' = sl_hit st /\ amb st' = amb st
  /\ win st' = win st /\ lose st' = lose st
  /\ days st' = {[rd]} ∪ days st
  /\ sum_edge st' = (sum_edge st + (roi - downside))%Q
  /\ sum_conf st' = (sum_conf st + f (CONFIDENCE r))%Q
  /\ sum_roi st' = (sum_roi st + roi)%Q.
Proof.
  intros Hno eods st' entry roi downside.
  assert (E : eods = []).
  { subst eods. unfold next_eods. rewrite filter_none.
    - unfold limit. change (merge_sort eod_le []) with (@nil EodRow).
      destruct (horizon <? 0); [reflexivity|apply take_nil].
    - intros x Hx HP. apply Is_true_true, andb_true_iff in HP as [Hi Hd].
      apply String.eqb_eq in Hi. rewrite (Hno x Hx Hi) in Hd. discriminate. }
  split; [exact E|]. subst st'. rewrite E, trade_unfold, outcome_no_bars.
  repeat split; stat_goal.
Qed.

Lemma X3_no_forward_bars_witness :
  let r := cand 100 110 95 8 70 in
  let eods := next_eods [bar_for "I2" 112 94 100] (INSTRUMENT_ID r)
                "2025-12-01" 7 in
  let st' := trade stop_first "2025-12-01" eods r new_stat in
  eods = []
  /\ n st' = 1 /\ none st' = 1
  /\ (sum_realized st' == 0)%Q
  /\ days st' = {["2025-12-01"]} ∪ ∅
  /\ (sum_edge st' == 3)%Q /\ (sum_conf st' == 70)%Q /\ (sum_roi st' == 8)%Q.
Proof.
  intros r eods st'.
  destruct (X3_no_forward_bars stop_first "2025-12-01" r
              [bar_for "I2" 112 94 100] 7 new_stat)
    as (E & Hn & Hnone & Hr & _ & _ & _ & _ & _ & Hd & He & Hc & Hroi).
  - intros x Hx. apply list_elem_of_singleton in Hx as ->. discriminate.
  - subst st' eods. rewrite Hn, Hnone, Hr, Hd, He, Hc, Hroi.
    split; [exact E|]. repeat split; reflexivity.
Defined.

(** An invariant of the accumulators that every trade keeps holds for
    every profile at the end of a run. *)
Lemma run_stats_invariant (P : Stat -> Prop) a creamy eod run_dates :
  P new_stat ->
  (forall rd eods r st, P st -> P (trade (arg_amb_rule a) rd eods r st)) ->
  forall pid st, run_stats a creamy eod run_dates !! pid = Some st -> P st.
Proof.
  intros Hnew Hstep.
  set (Q := fun stats : gmap string Stat =>
              forall pid st, stats !! pid = Some st -> P st).
  enough (H : Q (run_stats a creamy eod run_dates)) by exact H.
  unfold run_stats. apply fold_left_preserves.
  - intros pid st. rewrite lookup_empty. discriminate.
  - intros stats rd Hs. unfold run_day. apply fold_left_preserves; [assumption|].
    intros stats1 item Hs1. unfold run_take.
    apply fold_left_preserves; [assumption|].
    intros stats2 r Hs2 pid st.
    destruct (decide (item.1 = pid)) as [->|Hne].
    + rewrite lookup_insert_eq. intros [= <-]. apply Hstep.
      unfold S. destruct (stats2 !! pid) as [st0|] eqn:E; cbn; [|assumption].
      by apply (Hs2 pid).
    + rewrite lookup_insert_ne by assumption. apply Hs2.
Qed.

Lemma trade_tallies rule rd eods r st :
  let st' := trade rule rd eods r st in
  (win st = tgt_hit st -> win st' = tgt_hit st')
  /\ (lose st = sl_hit st -> lose st' = sl_hit st')
  /\ tgt_hit st <= tgt_hit st' /\ sl_hit st <= sl_hit st'
  /\ amb st <= amb st' /\ none st <= none st'
  /\ tgt_hit st' + sl_hit st' + none st' - (tgt_hit st + sl_hit st + none st) <= 1
  /\ amb st' - amb st <= 1.
Proof.
  intros st'. subst st'. rewrite trade_unfold.
  set (st0 := count_candidate _ _ _ _ _).
  assert (H0 : tgt_hit st0 = tgt_hit st /\ sl_hit st0 = sl_hit st
               /\ amb st0 = amb st /\ none st0 = none st
               /\ win st0 = win st /\ lose st0 = lose st)
    by (repeat split; reflexivity).
  clearbody st0. destruct H0 as (E1 & E2 & E3 & E4 & E5 & E6).
  destruct eods as [|x xs].
  - rewrite outcome_no_bars. repeat split; stat_goal.
  - destruct (hit_t (f (TARGET_PRICE r)) (max_high x xs)) eqn:Et,
             (hit_s (f (STOP_LOSS r)) (min_low x xs)) eqn:Es.
    + rewrite outcome_ambiguous by assumption.
      destruct rule; repeat split; stat_goal.
    + rewrite outcome_target_hit by assumption. repeat split; stat_goal.
    + rewrite outcome_stop_hit by assumption. repeat split; stat_goal.
    + rewrite outcome_none by assumption. repeat split; stat_goal.
Qed.

Lemma round_digits_bounds (x : Q) (k : nat) (lo hi : Z) :
  (inject_Z lo <= x <= inject_Z hi)%Q ->
  (inject_Z lo <= round_digits x k <= inject_Z hi)%Q.
Proof.
  intros [Hlo Hhi]. unfold round_digits.
  set (s := 10 ^ Z.of_nat k).
  assert (Hs : 0 < s) by (subst s; apply Z.pow_pos_nonneg; lia).
  assert (HsQ : (0 < inject_Z s)%Q).
  { unfold Qlt. cbn. lia. }
  assert (Hb : lo * s <= round_half_even (x * inject_Z s) <= hi * s).
  { apply round_half_even_bounds. rewrite !inject_Z_mult. split.
    - apply Qmult_le_compat_r; lra.
    - apply Qmult_le_compat_r; lra. }
  destruct Hb as [Hb1 Hb2].
  assert (H1 : (inject_Z (lo * s) <= inject_Z (round_half_even (x * inject_Z s)))%Q)
    by (by rewrite <- Zle_Qle).
  assert (H2 : (inject_Z (round_half_even (x * inject_Z s)) <= inject_Z (hi * s))%Q)
    by (by rewrite <- Zle_Qle).
  rewrite inject_Z_mult in H1, H2.
  remember (inject_Z (round_half_even (x * inject_Z s))) as q eqn:Eq.
  clear Eq Hb1 Hb2. split.
  - apply Qle_shift_div_l; assumption.
  - apply Qle_shift_div_r; assumption.
Qed.

Lemma pct_unit_interval (c k : Z) :
  0 <= c <= k -> k <> 0 ->
  (inject_Z 0 <= pct (inject_Z c) (inject_Z k) <= inject_Z 100)%Q.
Proof.
  intros Hc Hk. rewrite pct_nonzero by assumption.
  assert (HkQ : (0 < inject_Z k)%Q) by (unfold Qlt; cbn; lia).
  assert (Hc0 : (0 <= inject_Z c)%Q) by (unfold Qle; cbn; lia).
  assert (Hck : (inject_Z c <= inject_Z k)%Q) by (rewrite <- Zle_Qle; lia).
  assert (Hdiv : (0 <= inject_Z c / inject_Z k <= 1)%Q).
  { split.
    - apply Qle_shift_div_l; [assumption|]. lra.
    - apply Qle_shift_div_r; [assumption|]. lra. }
  change (inject_Z 0) with 0%Q. change (inject_Z 100) with 100%Q.
  generalize dependent (inject_Z c / inject_Z k)%Q. intros q Hq. lra.
Qed.

(** X4.  In every emitted row the win rate is the target-hit rate and
    the loss rate is the stop-hit rate (a trade is a win exactly when
    it is booked as a target hit, a loss exactly when it is booked as a
    stop hit), and the four outcome rates lie between 0 and 100. *)
Theorem X4_rates_in_range (md : string -> Z -> option string) (a : Args)
    (creamy : list CreamyRow) (eod : list EodRow) (row : SummaryRow) :
  row ∈ result_rows (main md a creamy eod) ->
  win_pct row = tgt_hit_pct row /\ lose_pct row = sl_hit_pct row
  /\ (0 <= tgt_hit_pct row <= 100)%Q /\ (0 <= sl_hit_pct row <= 100)%Q
  /\ (0 <= amb_pct row <= 100)%Q /\ (0 <= none_pct row <= 100)%Q.
Proof.
  intros Hrow. apply main_rows in Hrow as (mx & start & _ & _ & _ & Hrow).
  apply elem_of_rows_out in Hrow.
  destruct Hrow as (pid & st & Hl & Hn & ->).
  set (P := fun st => win st = tgt_hit st /\ lose st = sl_hit st
               /\ 0 <= tgt_hit st /\ 0 <= sl_hit st /\ 0 <= amb st /\ 0 <= none st
               /\ tgt_hit st + sl_hit st + none st <= n st /\ amb st <= n st).
  assert (HP : P st).
  { eapply (run_stats_invariant P); [| |exact Hl].
    - unfold P. cbn. lia.
    - intros rd eods r st0 (I1 & I2 & I3 & I4 & I5 & I6 & I7 & I8).
      pose proof (trade_tallies (arg_amb_rule a) rd eods r st0) as T.
      cbv zeta in T. destruct T as (T1 & T2 & T3 & T4 & T5 & T6 & T7 & T8).
      pose proof (trade_n (arg_amb_rule a) rd eods r st0).
      specialize (T1 I1). specialize (T2 I2). unfold P. lia. }
  destruct HP as (I1 & I2 & I3 & I4 & I5 & I6 & I7 & I8).
  cbn [summary_row win_pct lose_pct tgt_hit_pct sl_hit_pct amb_pct none_pct].
  rewrite I1, I2. split; [reflexivity|]. split; [reflexivity|].
  repeat split;
    try (apply (round_digits_bounds _ 3 0 100), pct_unit_interval; lia).
  all: apply (round_digits_bounds _ 3 0 100); apply pct_unit_interval; lia.
Qed.

Lemma X4_rates_in_range_witness :
  let row := summary_row half_half "P1"
               (S (run_stats (default_args half_half) three_trades three_bars
                     ["2025-12-01"]) "P1") in
  win_pct row = tgt_hit_pct row /\ lose_pct row = sl_hit_pct row
  /\ (0 <= tgt_hit_pct row <= 100)%Q /\ (0 <= sl_hit_pct row <= 100)%Q
  /\ (0 <= amb_pct row <= 100)%Q /\ (0 <= none_pct row <= 100)%Q.
Proof.
  intros row.
  apply (X4_rates_in_range year_before (default_args half_half) three_trades
           three_bars row).
  apply list_elem_of_In. vm_compute. left. reflexivity.
Defined.

(** *** The top-N cutoff *)

Lemma trade_days rule rd eods r st :
  days (trade rule rd eods r st) = {[rd]} ∪ days st.
Proof.
  rewrite trade_unfold.
  set (st0 := count_candidate _ _ _ _ _).
  assert (H0 : days st0 = {[rd]} ∪ days st) by reflexivity. clearbody st0.
  unfold outcome. destruct eods as [|x xs]; [exact H0|]. cbv zeta.
  destruct (hit_t _ _), (hit_s _ _), rule; exact H0.
Qed.

Lemma run_take_other a eod rd pid take stats p :
  p <> pid -> run_take a eod rd pid take stats !! p = stats !! p.
Proof.
  intros Hne. unfold run_take. revert stats.
  induction take as [|r take IH]; intros stats; [reflexivity|].
  cbn [fold_left]. rewrite IH. by apply lookup_insert_ne.
Qed.

Lemma run_take_pid a eod rd pid take stats :
  take <> [] ->
  exists st', run_take a eod rd pid take stats !! pid = Some st'
              /\ n st' = n (S stats pid) + Z.of_nat (length take)
              /\ days st' = {[rd]} ∪ days (S stats pid).
Proof.
  unfold run_take. revert stats.
  induction take as [|r take IH]; intros stats Hne; [done|].
  cbn [fold_left].
  set (st1 := trade (arg_amb_rule a) rd
                (next_eods eod (INSTRUMENT_ID r) rd (arg_horizon a)) r (S stats pid)).
  destruct take as [|r' take'].
  - exists st1. split; [apply lookup_insert_eq|].
    split; [subst st1; rewrite trade_n; cbn; lia|apply trade_days].
  - destruct (IH (<[pid:=st1]> stats) ltac:(discriminate)) as (st' & Hl & Hn & Hd).
    exists st'. split; [exact Hl|].
    assert (E : S (<[pid:=st1]> stats) pid = st1)
      by (unfold S; by rewrite lookup_insert_eq).
    rewrite E in Hn, Hd. subst st1. rewrite trade_n in Hn. rewrite trade_days in Hd.
    split; [cbn [length] in *; lia|]. rewrite Hd. set_solver.
Qed.

Lemma setdefault_append_keys d x :
  (setdefault_append d x).*1
  = if decide (PROFILE_ID x ∈ d.*1) then d.*1 else d.*1 ++ [PROFILE_ID x].
Proof.
  induction d as [|[p l] d IH]; cbn [setdefault_append fmap list_fmap fst].
  - rewrite decide_False by apply not_elem_of_nil. reflexivity.
  - destruct (String.eqb p (PROFILE_ID x)) eqn:E.
    + apply String.eqb_eq in E as ->. rewrite decide_True by left. reflexivity.
    + apply String.eqb_neq in E. cbn [fmap list_fmap fst]. rewrite IH.
      destruct (decide (PROFILE_ID x ∈ d.*1)) as [Hin|Hnin].
      * rewrite decide_True by (by right). reflexivity.
      * rewrite decide_False; [reflexivity|].
        intros [?|?]%elem_of_cons; [congruence|contradiction].
Qed.

Lemma grouped_keys_NoDup rows :
  NoDup (fold_left setdefault_append rows []).*1.
Proof.
  assert (H : forall rows d, NoDup d.*1 ->
                NoDup (fold_left setdefault_append rows d).*1).
  { clear rows. induction rows as [|x rows IH]; intros d Hd; [exact Hd|].
    cbn [fold_left]. apply IH. rewrite setdefault_append_keys.
    destruct (decide _) as [|Hnin]; [assumption|].
    apply NoDup_app. split; [assumption|]. split.
    - intros y Hy ->%list_elem_of_singleton. contradiction.
    - apply NoDup_singleton. }
  apply H. constructor.
Qed.

Lemma slice_to_length {A} (k : Z) (l : list A) :
  0 <= k -> Z.of_nat (length (slice_to k l)) <= k.
Proof.
  intros Hk. unfold slice_to. rewrite (proj2 (Z.ltb_ge k 0)) by assumption.
  rewrite length_take. lia.
Qed.

Lemma run_day_bound a creamy eod rd (D : gset string) stats :
  0 <= arg_topn a -> rd ∉ D ->
  (forall pid st, stats !! pid = Some st ->
     n st <= arg_topn a * Z.of_nat (size (days st)) /\ days st ⊆ D) ->
  forall pid st, run_day a creamy eod stats rd !! pid = Some st ->
    n st <= arg_topn a * Z.of_nat (size (days st)) /\ days st ⊆ D ∪ {[rd]}.
Proof.
  intros Htop Hrd Hstats. unfold run_day.
  pose proof (grouped_keys_NoDup (day_rows creamy (arg_env a) rd)) as Hnd.
  set (items := fold_left setdefault_append (day_rows creamy (arg_env a) rd) []) in *.
  assert (H : forall items stats,
             NoDup items.*1 ->
             (forall pid st, stats !! pid = Some st ->
                n st <= arg_topn a * Z.of_nat (size (days st))
                /\ days st ⊆ D ∪ {[rd]}
                /\ (pid ∈ items.*1 -> days st ⊆ D)) ->
             forall pid st,
               fold_left (fun stats (item : string * list CreamyRow) =>
                            run_take a eod rd item.1
                              (slice_to (arg_topn a) item.2) stats)
                         items stats !! pid = Some st ->
               n st <= arg_topn a * Z.of_nat (size (days st))
               /\ days st ⊆ D ∪ {[rd]}).
  { clear items Hnd stats Hstats.
    induction items as [|[p lst] items IH]; intros stats Hnd Hs pid st.
    - cbn. intros Hl. destruct (Hs pid st Hl) as (? & ? & _). by split.
    - cbn [fold_left fst snd]. apply NoDup_cons in Hnd as [Hp Hnd].
      apply IH; [assumption|]. clear pid st. intros pid st Hl.
      destruct (decide (pid = p)) as [->|Hne].
      + assert (Hold : n (S stats p) <= arg_topn a * Z.of_nat (size (days (S stats p)))
                       /\ days (S stats p) ⊆ D).
        { unfold S. destruct (stats !! p) as [st0|] eqn:E0; cbn.
          - destruct (Hs p st0 E0) as (? & _ & Hd). split; [assumption|].
            apply Hd. left.
          - split; [rewrite size_empty; lia|set_solver]. }
        destruct (slice_to (arg_topn a) lst) as [|r0 take0] eqn:Et.
        * cbn in Hl. destruct (Hs p st Hl) as (? & ? & _).
          split; [assumption|]. split; [assumption|]. intros Hin. contradiction.
        * destruct (run_take_pid a eod rd p (r0 :: take0) stats ltac:(discriminate))
            as (st' & Hl' & Hn' & Hd').
          rewrite Hl in Hl'. injection Hl' as <-.
          destruct Hold as [Hn0 Hd0].
          pose proof (slice_to_length (arg_topn a) lst Htop) as Hlen.
          rewrite Et in Hlen.
          assert (Hsize : size (days st) = Datatypes.S (size (days (S stats p)))).
          { rewrite Hd', size_union by set_solver. by rewrite size_singleton. }
          split; [rewrite Hsize; lia|]. split; [set_solver|].
          intros Hin. contradiction.
      + rewrite run_take_other in Hl by assumption.
        destruct (Hs pid st Hl) as (? & ? & Hd). split; [assumption|].
        split; [assumption|]. intros Hin. apply Hd. by right. }
  intros pid st Hl. refine (H items stats Hnd _ pid st Hl).
  intros pid' st' Hl'. destruct (Hstats pid' st' Hl') as [? Hd].
  split; [assumption|]. split; [set_solver|]. intros _. exact Hd.
Qed.

Lemma run_stats_bound a creamy eod run_dates :
  0 <= arg_topn a -> NoDup run_dates ->
  forall pid st, run_stats a creamy eod run_dates !! pid = Some st ->
    n st <= arg_topn a * Z.of_nat (size (days st)).
Proof.
  intros Htop Hnd. unfold run_stats.
  assert (H : forall dates (D : gset string) stats,
             NoDup dates -> (forall d, d ∈ dates -> d ∉ D) ->
             (forall pid st, stats !! pid = Some st ->
                n st <= arg_topn a * Z.of_nat (size (days st)) /\ days st ⊆ D) ->
             forall pid st,
               fold_left (run_day a creamy eod) dates stats !! pid = Some st ->
               n st <= arg_topn a * Z.of_nat (size (days st))).
  { induction dates as [|rd dates IH]; intros D stats Hnd' HD Hs pid st.
    - cbn. intros Hl. by destruct (Hs pid st Hl).
    - cbn [fold_left]. apply NoDup_cons in Hnd' as [Hrd Hnd'].
      apply (IH (D ∪ {[rd]})); [assumption| |].
      + intros d Hd. specialize (HD d ltac:(by right)).
        assert (d <> rd) by (intros ->; contradiction). set_solver.
      + intros p s Hp.
        eapply run_day_bound; [exact Htop| |exact Hs|exact Hp]. apply HD. left. }
  intros pid st Hl. refine (H run_dates ∅ ∅ Hnd _ _ pid st Hl); [set_solver|].
  intros p s. rewrite lookup_empty. discriminate.
Qed.

(** X5.  The top-N cutoff holds in what is reported: with a
    non-negative [--topn], the trade count of an emitted row is at most
    [topn] times its day count. *)
Theorem X5_topn_bound (md : string -> Z -> option string) (a : Args)
    (creamy : list CreamyRow) (eod : list EodRow) (row : SummaryRow) :
  0 <= arg_topn a ->
  row ∈ result_rows (main md a creamy eod) ->
  row_trades row <= arg_topn a * row_days row.
Proof.
  intros Htop Hrow. apply main_rows in Hrow as (mx & start & _ & _ & _ & Hrow).
  apply elem_of_rows_out in Hrow.
  destruct Hrow as (pid & st & Hl & Hn & ->).
  cbn [summary_row row_trades row_days].
  eapply run_stats_bound; [assumption| |exact Hl].
  unfold window_run_dates. rewrite merge_sort_Permutation.
  apply NoDup_remove_dups.
Qed.

Lemma X5_topn_bound_witness :
  let a := mkArgs "SIM" 365 7 2 stop_first in
  let row := summary_row stop_first "P1"
               (S (run_stats a three_trades three_bars ["2025-12-01"]) "P1") in
  row_trades row <= 2 * row_days row.
Proof.
  intros a row.
  apply (X5_topn_bound year_before a three_trades three_bars row); [cbn; lia|].
  apply list_elem_of_In. vm_compute. left. reflexivity.
Defined.

(** *** The summary *)

#[local] Instance item_le_trans : Transitive item_le.
Proof. intros x y z. unfold item_le. apply transitivity. Qed.

#[local] Instance item_le_total : Total item_le.
Proof. intros x y. unfold item_le. apply total, _. Qed.

(** X6.  The summary has one row per profile and lists the profiles in
    ascending order of their identifier. *)
Theorem X6_rows_sorted (md : string -> Z -> option string) (a : Args)
    (creamy : list CreamyRow) (eod : list EodRow) :
  let profiles := map row_profile (result_rows (main md a creamy eod)) in
  StronglySorted String.le profiles /\ NoDup profiles.
Proof.
  intros profiles. subst profiles.
  assert (H : forall rule (stats : gmap string Stat),
             StronglySorted String.le (map row_profile (rows_out rule stats))
             /\ NoDup (map row_profile (rows_out rule stats))).
  { intros rule stats. unfold rows_out. rewrite map_map. cbn [row_profile summary_row].
    change (map ?g ?l) with (g <$> l).
    set (sorted := merge_sort item_le (map_to_list stats)).
    assert (Hsub : filter (fun item : string * Stat => n item.2 <> 0) sorted
                   `sublist_of` sorted) by apply sublist_filter.
    split.
    - apply (StronglySorted_fmap _ item_le); [by intros x y|].
      eapply StronglySorted_sublist; [exact Hsub|].
      apply StronglySorted_merge_sort; apply _.
    - apply (sublist_NoDup _ sorted.*1); [|exact (fmap_sublist fst _ _ Hsub)].
      subst sorted. rewrite merge_sort_Permutation.
      apply NoDup_fst_map_to_list. }
  unfold main. destruct (max_run_date creamy (arg_env a)) as [mx|]; cbn.
  - destruct (String.eqb mx ""); cbn; [split; constructor|].
    destruct (md mx (arg_days a)); cbn; [apply H|split; constructor].
  - split; constructor.
Qed.

Lemma ltb_empty_r (m : string) : String.ltb m "" = false.
Proof. destruct m; reflexivity. Qed.

Lemma ltb_empty_l (x : string) : String.ltb "" x = false -> x = EmptyString.
Proof. destruct x; [reflexivity|discriminate]. Qed.

Lemma max_fold_empty (ds : list string) (d : string) :
  fold_left (fun m x => if String.ltb m x then x else m) ds d = EmptyString <->
  d = EmptyString /\ forall x, x ∈ ds -> x = EmptyString.
Proof.
  revert d. induction ds as [|x ds IH]; intros d; cbn [fold_left].
  - split; [intros ->; split; [reflexivity|by intros ? ?%elem_of_nil]|by intros [-> _]].
  - rewrite IH. split.
    + intros [Hm Hds]. destruct (String.ltb d x) eqn:E.
      * subst x. by rewrite ltb_empty_r in E.
      * subst d. apply ltb_empty_l in E as ->. split; [reflexivity|].
        intros y [->|Hy]%elem_of_cons; [reflexivity|by apply Hds].
    + intros [-> Hall]. rewrite (Hall x) by left. cbn. split; [reflexivity|].
      intros y Hy. apply Hall. by right.
Qed.

(** X7.  The run aborts with the "No RUN_DATE found" message exactly
    when the environment has no selected candidate with a non-empty run
    date.  Otherwise the latest run date goes through the date
    arithmetic of lines 33-35: if that raises (a run date not of the
    form YYYY-MM-DD, a window that leaves the calendar) the run ends
    with the exception, and if it succeeds the run produces a
    summary. *)
Theorem X7_abort_iff_no_run_date (md : string -> Z -> option string) (a : Args)
    (creamy : list CreamyRow) (eod : list EodRow) :
  (main md a creamy eod = SystemExit "ERROR: No RUN_DATE found in AIW_A_CREAMY_LAYER."
   <-> forall r, r ∈ creamy -> ENV_CODE r = arg_env a -> IS_CREAMY r = 1 ->
                 RUN_DATE r = EmptyString)
  /\ ((exists r, r ∈ creamy /\ ENV_CODE r = arg_env a /\ IS_CREAMY r = 1
                 /\ RUN_DATE r <> EmptyString)
      -> exists mx,
           max_run_date creamy (arg_env a) = Some mx /\ mx <> EmptyString
           /\ match md mx (arg_days a) with
              | Some start => exists rows, main md a creamy eod = Summary rows
              | None => main md a creamy eod = Raised
              end).
Proof.
  assert (Hsel : forall r,
             r ∈ filter (fun r => Is_true (String.eqb (ENV_CODE r) (arg_env a)
                                           && Z.eqb (IS_CREAMY r) 1)) creamy
             <-> r ∈ creamy /\ ENV_CODE r = arg_env a /\ IS_CREAMY r = 1).
  { intros r. rewrite list_elem_of_filter. unfold Is_true.
    destruct (String.eqb_spec (ENV_CODE r) (arg_env a)),
             (Z.eqb_spec (IS_CREAMY r) 1); cbn; tauto. }
  assert (Hiff : main md a creamy eod
                 = SystemExit "ERROR: No RUN_DATE found in AIW_A_CREAMY_LAYER."
                 <-> forall r, r ∈ creamy -> ENV_CODE r = arg_env a ->
                       IS_CREAMY r = 1 -> RUN_DATE r = EmptyString).
  { unfold main, max_run_date.
    set (sel := filter _ creamy) in *.
    destruct (map RUN_DATE sel) as [|d ds] eqn:E.
    - split; [|reflexivity]. intros _ r Hr He Hc.
      assert (Hin : r ∈ sel) by (apply Hsel; auto).
      destruct sel; [by apply elem_of_nil in Hin|discriminate].
    - assert (Hdates : forall x, x ∈ d :: ds <-> exists r, r ∈ sel /\ RUN_DATE r = x).
      { intros x. rewrite <- E. change (map ?g ?l) with (g <$> l).
        rewrite list_elem_of_fmap. naive_solver. }
      destruct (String.eqb _ "") eqn:Em.
      + split; [|reflexivity]. intros _ r Hr He Hc.
        apply String.eqb_eq, max_fold_empty in Em as [-> Hall].
        assert (Hx : RUN_DATE r ∈ "" :: ds)
          by (apply Hdates; exists r; split; [apply Hsel; auto|reflexivity]).
        apply elem_of_cons in Hx as [->|Hx]; [reflexivity|by apply Hall].
      + split; [destruct (md _ _); discriminate|]. intros Hall. exfalso.
        apply String.eqb_neq in Em. apply Em. apply max_fold_empty.
        assert (Hx : forall x, x ∈ d :: ds -> x = EmptyString).
        { intros x (r & Hr & <-)%Hdates. apply Hsel in Hr as (? & ? & ?).
          by apply Hall. }
        split; [apply Hx; left|]. intros x Hx'. apply Hx. by right. }
  split; [exact Hiff|].
  intros (r & Hr & He & Hc & Hd).
  assert (Hn : main md a creamy eod
               <> SystemExit "ERROR: No RUN_DATE found in AIW_A_CREAMY_LAYER.")
    by (intros E; apply Hd; by apply (proj1 Hiff E r)).
  clear Hiff. unfold main in *.
  destruct (max_run_date creamy (arg_env a)) as [mx|]; [|done].
  exists mx. split; [reflexivity|].
  destruct (String.eqb mx "") eqn:Em; [done|].
  apply String.eqb_neq in Em. split; [exact Em|].
  destruct (md mx (arg_days a)); [by eexists|reflexivity].
Qed.

Lemma X7_abort_iff_no_run_date_witness :
  let creamy := [cand 100 110 95 8 70] in
  let eod := [bar 112 94 100] in
  exists mx,
    max_run_date creamy "SIM" = Some mx /\ mx <> EmptyString
    /\ match year_before mx 365 with
       | Some start =>
         exists rows, main year_before (default_args stop_first) creamy eod
                      = Summary rows
       | None => main year_before (default_args stop_first) creamy eod = Raised
       end.
Proof.
  intros creamy eod.
  apply (proj2 (X7_abort_iff_no_run_date year_before (default_args stop_first)
                  creamy eod)).
  exists (cand 100 110 95 8 70).
  split; [left|]. repeat split; discriminate.
Defined.

End BacktestMore.

(** Division by a numeral written out as a multiplication, for [lra]. *)
Ltac div_const :=
  unfold Qdiv in *;
  repeat match goal with
         | |- context [(/ (?n # ?d))%Q] =>
           let v := eval cbv in (/ (n # d))%Q in
           change (/ (n # d))%Q with v in *
         | _ : context [(/ (?n # ?d))%Q] |- _ =>
           let v := eval cbv in (/ (n # d))%Q in
           change (/ (n # d))%Q with v in *
         end.

(** ** The display-rank enricher: strength, prices and confidence *)

Section EnricherV2More.

Import EnricherV2.

Lemma clamp_inactive (x lo hi : Q) :
  (lo <= x <= hi)%Q -> clamp x lo hi = x.
Proof.
  intros [H1 H2]. unfold clamp.
  rewrite (proj2 (Qlt_bool_false x lo)) by assumption.
  by rewrite (proj2 (Qlt_bool_false hi x)).
Qed.

Lemma clamp_mono (x y lo hi : Q) :
  (lo <= hi)%Q -> (x <= y)%Q -> (clamp x lo hi <= clamp y lo hi)%Q.
Proof.
  intros Hlh Hxy. unfold clamp.
  destruct (Qlt_bool x lo) eqn:E1, (Qlt_bool y lo) eqn:E2,
           (Qlt_bool hi x) eqn:E3, (Qlt_bool hi y) eqn:E4;
    rewrite ?Qlt_bool_iff, ?Qlt_bool_false in *; lra.
Qed.

Lemma sql_max_ge (xs : list (option Z)) (z : Z) :
  Some z ∈ xs -> exists m, sql_max xs = Some m /\ z <= m.
Proof.
  unfold sql_max.
  set (g := fun (acc x : option Z) =>
              match acc, x with
              | None, _ => x
              | Some a, None => Some a
              | Some a, Some b => Some (Z.max a b)
              end).
  assert (Hacc : forall xs a, exists m, fold_left g xs (Some a) = Some m /\ a <= m).
  { clear xs. induction xs as [|x xs IH]; intros a; cbn [fold_left].
    - exists a. split; [reflexivity|lia].
    - destruct x as [b|]; cbn.
      + destruct (IH (Z.max a b)) as (m & -> & Hm). exists m. split; [reflexivity|lia].
      + apply IH. }
  assert (H : forall xs acc, Some z ∈ xs ->
                exists m, fold_left g xs acc = Some m /\ z <= m).
  { clear xs. induction xs as [|x xs IH]; intros acc Hin.
    - by apply elem_of_nil in Hin.
    - cbn [fold_left]. apply elem_of_cons in Hin as [<-|Hin]; [|by apply IH].
      destruct acc as [a|]; cbn.
      + destruct (Hacc xs (Z.max a z)) as (m & -> & Hm).
        exists m. split; [reflexivity|lia].
      + apply Hacc. }
  apply H.
Qed.

Lemma strength_bounds (dr mx : Z) :
  dr <= 1 \/ dr <= mx -> (0 <= strength dr mx <= 1)%Q.
Proof.
  intros H. unfold strength.
  set (m := if mx <=? 1 then 200 else mx).
  assert (Hm : 2 <= m) by (subst m; destruct (mx <=? 1) eqn:E; lia).
  assert (Hnum : 0 <= Z.max 1 dr - 1 <= m - 1).
  { subst m. destruct (mx <=? 1) eqn:E; lia. }
  assert (Hd : (0 < inject_Z (m - 1))%Q) by (unfold Qlt; cbn; lia).
  assert (Hq : (0 <= inject_Z (Z.max 1 dr - 1) / inject_Z (m - 1) <= 1)%Q).
  { split.
    - apply Qle_shift_div_l; [assumption|]. rewrite Qmult_0_l.
      change 0%Q with (inject_Z 0). rewrite <- Zle_Qle. lia.
    - apply Qle_shift_div_r; [assumption|]. rewrite Qmult_1_l.
      rewrite <- Zle_Qle. lia. }
  lra.
Qed.

(** X8.  Strength of a candidate the enricher processes: it lies in
    [0, 1] for every selected row, whatever ranks are stored, is 1 for
    a display rank of at most 1 (or a missing one), and 0 for a row
    whose display rank of 2 or more is the largest of its profile. *)
Theorem X8_strength_in_unit_interval (rows : list CreamyRow) (r : CreamyRow) :
  r ∈ rows ->
  let dr := default 0 (DISPLAY_RANK r) in
  let mx := default 0 (maxr rows !! PROFILE_ID r) in
  (0 <= strength dr mx <= 1)%Q
  /\ (dr <= 1 -> (strength dr mx == 1)%Q)
  /\ (2 <= dr -> dr = mx -> (strength dr mx == 0)%Q).
Proof.
  intros Hr dr mx. split; [|split].
  - apply strength_bounds.
    destruct (DISPLAY_RANK r) as [z|] eqn:Ez; [|left; subst dr; cbn; lia].
    right. subst dr mx. rewrite maxr_lookup. cbn [default].
    assert (Hin : PROFILE_ID r ∈ map PROFILE_ID rows).
    { change (map ?g ?l) with (g <$> l). by apply list_elem_of_fmap_2. }
    rewrite decide_True by assumption. cbn [default].
    destruct (sql_max_ge (map DISPLAY_RANK
                (filter (fun x => PROFILE_ID x = PROFILE_ID r) rows)) z)
      as (m & -> & Hm); [|exact Hm].
    rewrite <- Ez. change (map ?g ?l) with (g <$> l).
    apply list_elem_of_fmap_2. by apply list_elem_of_filter.
  - intros Hdr. unfold strength.
    replace (Z.max 1 dr - 1) with 0 by lia.
    change (inject_Z 0) with 0%Q. unfold Qdiv. rewrite Qmult_0_l. lra.
  - intros Hdr <-. rewrite strength_lone.
    destruct (dr <=? 1) eqn:E; [apply Z.leb_le in E; lia|reflexivity].
Qed.

Lemma X8_strength_in_unit_interval_witness :
  let r := plain_row "BALANCED" "I2" (Some 100%Q) None (Some 2) None in
  let rows := [plain_row "BALANCED" "I1" (Some 100%Q) None (Some 1) None; r;
               plain_row "BALANCED" "I3" (Some 100%Q) None (Some 3) None] in
  let dr := default 0 (DISPLAY_RANK r) in
  let mx := default 0 (maxr rows !! PROFILE_ID r) in
  (0 <= strength dr mx <= 1)%Q
  /\ (dr <= 1 -> (strength dr mx == 1)%Q)
  /\ (2 <= dr -> dr = mx -> (strength dr mx == 0)%Q).
Proof.
  intros r rows.
  apply (X8_strength_in_unit_interval rows r). right. left.
Defined.

Lemma selected_rank_within (rows : list CreamyRow) (r : CreamyRow) :
  r ∈ rows ->
  default 0 (DISPLAY_RANK r) <= 1
  \/ default 0 (DISPLAY_RANK r) <= default 0 (maxr rows !! PROFILE_ID r).
Proof.
  intros Hr.
  destruct (DISPLAY_RANK r) as [z|] eqn:Ez; [|left; cbn; lia].
  right. rewrite maxr_lookup. cbn [default].
  assert (Hin : PROFILE_ID r ∈ map PROFILE_ID rows).
  { change (map ?g ?l) with (g <$> l). by apply list_elem_of_fmap_2. }
  rewrite decide_True by assumption. cbn [default].
  destruct (sql_max_ge (map DISPLAY_RANK
              (filter (fun x => PROFILE_ID x = PROFILE_ID r) rows)) z)
    as (m & -> & Hm); [|exact Hm].
  rewrite <- Ez. change (map ?g ?l) with (g <$> l).
  apply list_elem_of_fmap_2. by apply list_elem_of_filter.
Qed.

Lemma BASE_positive (risk : Risk) :
  (2.75 <= roi (BASE risk) <= 11)%Q /\ (1.35 <= rr (BASE risk) <= 1.8)%Q.
Proof. destruct risk; cbn; lra. Qed.

(** The levels [metrics] computes for a positive entry price. *)
Lemma metrics_levels (b : Baseline) (entry s : Q) :
  (0 < roi b)%Q -> (0 < entry)%Q ->
  let m := metrics b entry s in
  (roi b * 0.60 <= m_roi m <= roi b * 1.50)%Q
  /\ (0.75 <= m_downside m <= 15)%Q
  /\ (m_target m == entry * (1 + m_roi m / 100))%Q
  /\ (m_stop m == entry * (1 - m_downside m / 100))%Q
  /\ (0 < m_stop m)%Q /\ (m_stop m < entry)%Q /\ (entry < m_target m)%Q.
Proof.
  intros Hb He. cbv zeta. unfold metrics.
  cbn [m_roi m_downside m_target m_stop].
  set (roi1 := clamp _ (roi b * 0.60) (roi b * 1.50)).
  set (d := clamp (roi1 / rr b) 0.75 15.0).
  assert (H1 : (roi b * 0.60 <= roi1 <= roi b * 1.50)%Q).
  { apply clamp_v2_bounds. lra. }
  assert (H2 : (0.75 <= d <= 15.0)%Q) by (apply clamp_v2_bounds; lra).
  clearbody roi1 d. div_const.
  split; [exact H1|]. split; [lra|].
  repeat split; try nra; ring.
Qed.

Lemma max2_right (a b : Q) : (a < b)%Q -> max2 a b = b.
Proof. intros H. unfold max2. by rewrite (proj2 (Qlt_bool_iff a b)). Qed.

Lemma max2_nonneg_le (x hi : Q) :
  (x <= hi)%Q -> (0 <= hi)%Q -> (0 <= max2 0.0 x <= hi)%Q.
Proof.
  intros H1 H2. unfold max2. destruct (Qlt_bool 0.0 x) eqn:E.
  - apply Qlt_bool_iff in E. lra.
  - lra.
Qed.

(** What [metrics] computes when the strength lies in [0, 1] and the
    entry price is at least a millionth: no clamp of lines 75-93 is
    active, and the reward:risk ratio is the baseline's. *)
Lemma metrics_in_range (risk : Risk) (entry s : Q) :
  (0 <= s <= 1)%Q -> (0.000001 <= entry)%Q ->
  let b := BASE risk in
  let m := metrics b entry s in
  m_roi m = (roi b * (0.70 + 0.60 * s))%Q
  /\ m_downside m = (m_roi m / rr b)%Q
  /\ (m_rr m == rr b)%Q
  /\ (m_target m - entry == rr b * (entry - m_stop m))%Q
  /\ (m_conf m ==
      inject_Z (conf b) + (s - 0.5) * 10 + (rr b - 1.5) * 4
      - max2 0.0 (m_downside m - 6.0) * 1.2)%Q
  /\ (64.4 <= m_conf m <= 84.6)%Q.
Proof.
  intros Hs He. cbv zeta. unfold metrics.
  cbn [m_roi m_downside m_target m_stop m_rr m_conf].
  set (b := BASE risk).
  set (roi0 := (roi b * (0.70 + 0.60 * s))%Q).
  assert (Hroi : clamp roi0 (roi b * 0.60) (roi b * 1.50) = roi0).
  { apply clamp_inactive. subst roi0 b. destruct risk; cbn; lra. }
  rewrite Hroi.
  assert (Hdb : (0.75 <= roi0 / rr b <= 5.71 + 4.9 * s)%Q
                /\ (roi0 == rr b * (roi0 / rr b))%Q).
  { subst roi0 b. destruct risk; cbn; div_const; split; lra. }
  destruct Hdb as [Hdb Hrr].
  assert (Hd : clamp (roi0 / rr b) 0.75 15.0 = (roi0 / rr b)%Q).
  { apply clamp_inactive. lra. }
  rewrite Hd.
  set (d := (roi0 / rr b)%Q) in *.
  assert (Hden : (entry - entry * (1.0 - d / 100.0) == entry * d * (1 # 100))%Q).
  { div_const. ring. }
  assert (Hpos : (1e-9 < entry - entry * (1.0 - d / 100.0))%Q).
  { rewrite Hden. clearbody d. clear Hd Hrr Hden.
    change 1e-9%Q with (1 # 1000000000)%Q.
    assert (H0 : (0 <= (entry - 0.000001) * (d - 0.75))%Q)
      by (apply Qmult_le_0_compat; lra).
    lra. }
  rewrite (max2_right _ _ Hpos).
  assert (Hrr1 : ((entry * (1.0 + roi0 / 100.0) - entry)
                  / (entry - entry * (1.0 - d / 100.0)) == rr b)%Q).
  { rewrite Hden. rewrite Hrr at 1. clearbody d. field. split; lra. }
  assert (Hb : (1.35 <= rr b <= 1.8)%Q) by (subst b; apply BASE_positive).
  assert (Hc : clamp ((entry * (1.0 + roi0 / 100.0) - entry)
                      / (entry - entry * (1.0 - d / 100.0))) 0.5 3.0
               = ((entry * (1.0 + roi0 / 100.0) - entry)
                  / (entry - entry * (1.0 - d / 100.0)))%Q).
  { apply clamp_inactive. rewrite Hrr1. lra. }
  rewrite Hc.
  set (rr1 := ((entry * (1.0 + roi0 / 100.0) - entry)
               / (entry - entry * (1.0 - d / 100.0)))%Q) in *.
  pose proof (max2_nonneg_le (d - 6.0) (4.9 * s)) as Hpen.
  assert (Hconf : (64.4 <= inject_Z (conf b) + (s - 0.5) * 10.0
                             + (rr1 - 1.5) * 4
                             - max2 0.0 (d - 6.0) * 1.2 <= 84.6)%Q).
  { rewrite Hrr1. clearbody d rr1. clear Hc Hrr1 Hpos Hden Hd Hrr.
    assert (H6 : (d - 6.0 <= 4.9 * s)%Q) by lra.
    specialize (Hpen H6 ltac:(lra)).
    generalize dependent (max2 0.0 (d - 6.0)). intros p Hp.
    subst b. destruct risk; cbn in *; unfold inject_Z; lra. }
  split; [reflexivity|]. split; [reflexivity|]. split; [exact Hrr1|].
  split. { rewrite Hrr at 1. clearbody d. div_const. ring. }
  rewrite (clamp_inactive _ 35.0 95.0) by lra.
  split; [|exact Hconf].
  rewrite Hrr1. clearbody rr1 d. ring.
Qed.

(** In a keyed table the update a selected row receives is the one
    computed from the row itself. *)
Lemma v2_row_update now env date creamy (i : nat) r :
  keyed creamy -> creamy !! i = Some r -> Is_true (creamy_of env date r) ->
  (0 < default 0%Q (ENTRY_PRICE r))%Q ->
  exists u,
    enrich_row (maxr (filter (fun r => Is_true (creamy_of env date r)) creamy))
               now env date r = Some u
    /\ main now env date creamy !! i = Some (set_metrics u r).
Proof.
  intros Hkey Hi Hsel Hentry. rewrite v2_main_updates. cbv zeta.
  set (rows := filter (fun r => Is_true (creamy_of env date r)) creamy).
  set (us := omap (enrich_row (maxr rows) now env date) rows).
  assert (Hrc : r ∈ creamy) by (by eapply list_elem_of_lookup_2).
  assert (Hr : r ∈ rows) by (apply list_elem_of_filter; by split).
  destruct (enrich_row (maxr rows) now env date r) as [u0|] eqn:Hu0.
  2:{ unfold enrich_row in Hu0.
      destruct (Qle_bool (default 0%Q (ENTRY_PRICE r)) 0) eqn:E; [|discriminate].
      apply Qle_bool_iff in E. lra. }
  exists u0. split; [reflexivity|].
  assert (Hin : u0 ∈ us) by (apply list_elem_of_omap; by exists r).
  assert (Hm : update_matches u0 r = true).
  { apply update_matches_key. apply enrich_row_v2_key in Hu0 as [-> _].
    apply creamy_of_true in Hsel as (<- & <- & _). reflexivity. }
  rewrite executemany_map.
  change (map ?g ?l) with (g <$> l). rewrite list_lookup_fmap, Hi. cbn.
  rewrite apply_updates_last.
  destruct (last_match_some us r u0 Hin Hm) as [u Hu]. rewrite Hu.
  apply last_match_elem in Hu as [Hu Hmu].
  apply list_elem_of_omap in Hu as (r' & Hr' & Hu).
  assert (r' = r) as ->; [|congruence].
  apply list_elem_of_filter in Hr' as [Hsel' Hr'c].
  apply Hkey; [assumption..|].
  apply update_matches_key in Hmu. rewrite Hmu.
  apply enrich_row_v2_key in Hu as [-> _].
  apply creamy_of_true in Hsel' as (<- & <- & _). reflexivity.
Qed.

(** X9.  Price levels the display-rank enricher stores: in a keyed
    table every selected row with a positive entry price ends with
    0 < STOP_LOSS < ENTRY_PRICE < TARGET_PRICE, the target is the entry
    raised by the stored expected return, and that return lies between
    0.6 and 1.5 times the baseline of the profile's risk class. *)
Theorem X9_v2_price_levels now env date creamy (i : nat) r (e : Q) :
  keyed creamy -> creamy !! i = Some r -> Is_true (creamy_of env date r) ->
  ENTRY_PRICE r = Some e -> (0 < e)%Q ->
  exists r' t s x,
    main now env date creamy !! i = Some r'
    /\ ENTRY_PRICE r' = Some e
    /\ TARGET_PRICE r' = Some t /\ STOP_LOSS r' = Some s
    /\ EXPECTED_RETURN_PCT r' = Some x
    /\ (0 < s)%Q /\ (s < e)%Q /\ (e < t)%Q
    /\ (t == e * (1 + x / 100))%Q
    /\ (roi (BASE (risk_from_profile_id (PROFILE_ID r))) * 0.60 <= x
        <= roi (BASE (risk_from_profile_id (PROFILE_ID r))) * 1.50)%Q.
Proof.
  intros Hkey Hi Hsel He Hpos.
  destruct (v2_row_update now env date creamy i r Hkey Hi Hsel)
    as (u & Hu & Hmain); [by rewrite He|].
  unfold enrich_row in Hu. rewrite He in Hu.
  change (default 0%Q (Some e)) with e in Hu.
  destruct (Qle_bool e 0); [discriminate|]. injection Hu as <-.
  set (b := BASE (risk_from_profile_id (PROFILE_ID r))) in *.
  match type of Hmain with
  | context [metrics b e ?s] =>
    destruct (metrics_levels b e s) as (H1 & H2 & H3 & H4 & H5 & H6 & H7);
      [pose proof (BASE_positive (risk_from_profile_id (PROFILE_ID r)));
       subst b; lra|assumption|]
  end.
  eexists _, _, _, _. split; [exact Hmain|].
  cbn [set_metrics ENTRY_PRICE TARGET_PRICE STOP_LOSS EXPECTED_RETURN_PCT
       u_target u_stop u_roi].
  split; [assumption|]. do 3 (split; [reflexivity|]).
  split; [assumption|]. split; [assumption|]. split; [assumption|].
  split; [assumption|]. exact H1.
Qed.

Lemma X9_v2_price_levels_witness :
  let r := plain_row "BALANCED" "I2" (Some 100%Q) None (Some 2) None in
  let creamy := [plain_row "BALANCED" "I1" (Some 50%Q) None (Some 1) None; r] in
  exists r' t s x,
    main "now" "SIM" "2025-12-01" creamy !! 1%nat = Some r'
    /\ ENTRY_PRICE r' = Some 100%Q
    /\ TARGET_PRICE r' = Some t /\ STOP_LOSS r' = Some s
    /\ EXPECTED_RETURN_PCT r' = Some x
    /\ (0 < s)%Q /\ (s < 100)%Q /\ (100 < t)%Q
    /\ (t == 100 * (1 + x / 100))%Q
    /\ (roi (BASE (risk_from_profile_id (PROFILE_ID r))) * 0.60 <= x
        <= roi (BASE (risk_from_profile_id (PROFILE_ID r))) * 1.50)%Q.
Proof.
  intros r creamy.
  apply (X9_v2_price_levels "now" "SIM" "2025-12-01" creamy 1 r 100).
  - intros r1 r2 H1 H2.
    repeat (apply elem_of_cons in H1 as [->|H1]);
      repeat (apply elem_of_cons in H2 as [->|H2]);
      try (by apply elem_of_nil in H1); try (by apply elem_of_nil in H2);
      first [reflexivity|discriminate].
  - reflexivity.
  - exact I.
  - reflexivity.
  - reflexivity.
Defined.

(** X10.  In a keyed table, a selected row whose entry price is at
    least a millionth is stored with an expected return between 0.7 and
    1.3 times the baseline of its risk class, a target and a stop whose
    distances from the entry are exactly in the baseline reward:risk
    ratio, and a confidence between 64.4 and 84.6: for the rows the
    script reads, none of its clamps is ever active. *)
Theorem X10_v2_reward_risk now env date creamy (i : nat) r (e : Q) :
  keyed creamy -> creamy !! i = Some r -> Is_true (creamy_of env date r) ->
  ENTRY_PRICE r = Some e -> (0.000001 <= e)%Q ->
  exists r' t s x c,
    main now env date creamy !! i = Some r'
    /\ TARGET_PRICE r' = Some t /\ STOP_LOSS r' = Some s
    /\ EXPECTED_RETURN_PCT r' = Some x /\ CONFIDENCE r' = Some c
    /\ (roi (BASE (risk_from_profile_id (PROFILE_ID r))) * 0.7 <= x
        <= roi (BASE (risk_from_profile_id (PROFILE_ID r))) * 1.3)%Q
    /\ (t - e == rr (BASE (risk_from_profile_id (PROFILE_ID r))) * (e - s))%Q
    /\ (64.4 <= c <= 84.6)%Q.
Proof.
  intros Hkey Hi Hsel He Hpos.
  destruct (v2_row_update now env date creamy i r Hkey Hi Hsel)
    as (u & Hu & Hmain); [rewrite He; cbn; lra|].
  unfold enrich_row in Hu. rewrite He in Hu.
  change (default 0%Q (Some e)) with e in Hu.
  destruct (Qle_bool e 0); [discriminate|]. injection Hu as <-.
  set (rows := filter (fun r => Is_true (creamy_of env date r)) creamy) in *.
  assert (Hr : r ∈ rows).
  { apply list_elem_of_filter. split; [assumption|]. by eapply list_elem_of_lookup_2. }
  pose proof (strength_bounds _ _ (selected_rank_within rows r Hr)) as Hs.
  destruct (metrics_in_range (risk_from_profile_id (PROFILE_ID r)) e _ Hs Hpos)
    as (H1 & H2 & H3 & H4 & H5 & H6).
  eexists _, _, _, _, _. split; [exact Hmain|].
  cbn [set_metrics TARGET_PRICE STOP_LOSS EXPECTED_RETURN_PCT CONFIDENCE
       u_target u_stop u_roi u_conf].
  do 4 (split; [reflexivity|]).
  cbn [u_target u_stop u_roi u_conf].
  split; [|split; [exact H4|exact H6]].
  unfold metrics in H1. cbn [m_roi] in H1. rewrite H1.
  pose proof (BASE_positive (risk_from_profile_id (PROFILE_ID r))) as [Hb _].
  generalize dependent (roi (BASE (risk_from_profile_id (PROFILE_ID r)))).
  generalize dependent (strength (default 0 (DISPLAY_RANK r))
                          (default 0 (maxr rows !! PROFILE_ID r))).
  intros. nra.
Qed.

Lemma X10_v2_reward_risk_witness :
  let r := plain_row "BALANCED" "I2" (Some 100%Q) None (Some 2) None in
  let creamy := [plain_row "BALANCED" "I1" (Some 50%Q) None (Some 1) None; r] in
  exists r' t s x c,
    main "now" "SIM" "2025-12-01" creamy !! 1%nat = Some r'
    /\ TARGET_PRICE r' = Some t /\ STOP_LOSS r' = Some s
    /\ EXPECTED_RETURN_PCT r' = Some x /\ CONFIDENCE r' = Some c
    /\ (roi (BASE (risk_from_profile_id (PROFILE_ID r))) * 0.7 <= x
        <= roi (BASE (risk_from_profile_id (PROFILE_ID r))) * 1.3)%Q
    /\ (t - 100 == rr (BASE (risk_from_profile_id (PROFILE_ID r))) * (100 - s))%Q
    /\ (64.4 <= c <= 84.6)%Q.
Proof.
  intros r creamy.
  apply (X10_v2_reward_risk "now" "SIM" "2025-12-01" creamy 1 r 100).
  - intros r1 r2 H1 H2.
    repeat (apply elem_of_cons in H1 as [->|H1]);
      repeat (apply elem_of_cons in H2 as [->|H2]);
      try (by apply elem_of_nil in H1); try (by apply elem_of_nil in H2);
      first [reflexivity|discriminate].
  - reflexivity.
  - exact I.
  - reflexivity.
  - vm_compute. discriminate.
Defined.

Lemma strength_antitone (dr1 dr2 mx : Z) :
  dr1 <= dr2 -> (strength dr2 mx <= strength dr1 mx)%Q.
Proof.
  intros H. unfold strength.
  set (m := if mx <=? 1 then 200 else mx).
  assert (Hm : 2 <= m) by (subst m; destruct (mx <=? 1) eqn:E; lia).
  assert (Hd : (0 <= / inject_Z (m - 1))%Q).
  { apply Qinv_le_0_compat. change 0%Q with (inject_Z 0).
    rewrite <- Zle_Qle. lia. }
  assert (Hn : (inject_Z (Z.max 1 dr1 - 1) <= inject_Z (Z.max 1 dr2 - 1))%Q)
    by (rewrite <- Zle_Qle; lia).
  unfold Qdiv.
  pose proof (Qmult_le_compat_r _ _ _ Hn Hd). lra.
Qed.

(** X11.  Within a profile a better display rank never lowers what the
    display-rank enricher computes: for one risk class, entry price and
    largest rank, the smaller rank gets at least the expected return and
    the target of the larger one, and a stop that is no higher. *)
Theorem X11_better_rank_no_lower_target (risk : Risk) (entry : Q)
    (dr1 dr2 mx : Z) :
  (0 < entry)%Q -> dr1 <= dr2 ->
  let m1 := metrics (BASE risk) entry (strength dr1 mx) in
  let m2 := metrics (BASE risk) entry (strength dr2 mx) in
  (m_roi m2 <= m_roi m1)%Q /\ (m_target m2 <= m_target m1)%Q
  /\ (m_stop m1 <= m_stop m2)%Q.
Proof.
  intros He Hdr. cbv zeta. unfold metrics. cbn [m_roi m_target m_stop].
  pose proof (strength_antitone dr1 dr2 mx Hdr) as Hs.
  generalize dependent (strength dr1 mx). intros s1.
  generalize (strength dr2 mx). intros s2 Hs.
  pose proof (BASE_positive risk) as [Hb Hrr].
  set (b := BASE risk) in *.
  assert (Hroi : (clamp (roi b * (0.70 + 0.60 * s2)) (roi b * 0.60) (roi b * 1.50)
                  <= clamp (roi b * (0.70 + 0.60 * s1)) (roi b * 0.60)
                       (roi b * 1.50))%Q).
  { apply clamp_mono; [lra|]. clearbody b. nra. }
  set (x1 := clamp (roi b * (0.70 + 0.60 * s1)) _ _) in *.
  set (x2 := clamp (roi b * (0.70 + 0.60 * s2)) _ _) in *.
  assert (Hd : (clamp (x2 / rr b) 0.75 15.0 <= clamp (x1 / rr b) 0.75 15.0)%Q).
  { apply clamp_mono; [lra|]. clearbody x1 x2. subst b.
    destruct risk; cbn in *; div_const; lra. }
  clearbody x1 x2.
  generalize dependent (clamp (x1 / rr b) 0.75 15.0).
  generalize dependent (clamp (x2 / rr b) 0.75 15.0).
  intros d2 d1 Hd. div_const. repeat split; [assumption|nra|nra].
Qed.

Lemma X11_better_rank_no_lower_target_witness :
  let m1 := metrics (BASE BALANCED) 100 (strength 1 3) in
  let m2 := metrics (BASE BALANCED) 100 (strength 2 3) in
  (m_roi m2 <= m_roi m1)%Q /\ (m_target m2 <= m_target m1)%Q
  /\ (m_stop m1 <= m_stop m2)%Q.
Proof.
  apply (X11_better_rank_no_lower_target BALANCED 100 1 2 3);
    [reflexivity|lia].
Defined.

End EnricherV2More.

(** ** What both enrichers leave alone *)

Section EnricherFrame.

Lemma set_metrics_untouched u r : untouched r (set_metrics u r).
Proof. unfold untouched. cbn. tauto. Qed.

Lemma untouched_refl r : untouched r r.
Proof. unfold untouched. tauto. Qed.

Lemma executemany_frame us creamy :
  length (executemany us creamy) = length creamy
  /\ forall (i : nat) r, creamy !! i = Some r ->
       exists r', executemany us creamy !! i = Some r' /\ untouched r r'.
Proof.
  rewrite executemany_map. split; [apply length_map|].
  intros i r Hi. change (map ?g ?l) with (g <$> l).
  rewrite list_lookup_fmap, Hi. cbn. eexists. split; [reflexivity|].
  rewrite apply_updates_last. destruct (last_match us r).
  - apply set_metrics_untouched.
  - apply untouched_refl.
Qed.

Lemma setdefault_append_members (P : CreamyRow -> Prop) d x :
  P x ->
  (forall item r, item ∈ d -> r ∈ item.2 -> PROFILE_ID r = item.1 /\ P r) ->
  forall item r, item ∈ setdefault_append d x -> r ∈ item.2 ->
                 PROFILE_ID r = item.1 /\ P r.
Proof.
  intros Hx. induction d as [|[p l] d IH]; intros Hd item r Hitem Hr.
  - cbn in Hitem. apply list_elem_of_singleton in Hitem as ->.
    cbn in Hr. apply list_elem_of_singleton in Hr as ->. by split.
  - cbn [setdefault_append] in Hitem.
    destruct (String.eqb p (PROFILE_ID x)) eqn:E.
    + apply String.eqb_eq in E.
      apply elem_of_cons in Hitem as [->|Hitem].
      * cbn in Hr |- *. apply elem_of_app in Hr as [Hr|Hr].
        -- apply (Hd (p, l)); [left|exact Hr].
        -- apply list_elem_of_singleton in Hr as ->. by split.
      * apply (Hd item); [by right|exact Hr].
    + apply elem_of_cons in Hitem as [->|Hitem].
      * apply (Hd (p, l)); [left|exact Hr].
      * apply IH; [|assumption..].
        intros item' r' H1 H2. apply (Hd item'); [by right|exact H2].
Qed.

(** The groups hold selected rows only, each under its own profile. *)
Lemma grouped_members rows item r :
  item ∈ fold_left setdefault_append rows [] -> r ∈ item.2 ->
  PROFILE_ID r = item.1 /\ r ∈ rows.
Proof.
  assert (H : forall l d,
             (forall x, x ∈ l -> x ∈ rows) ->
             (forall item r, item ∈ d -> r ∈ item.2 ->
                             PROFILE_ID r = item.1 /\ r ∈ rows) ->
             forall item r, item ∈ fold_left setdefault_append l d ->
                            r ∈ item.2 -> PROFILE_ID r = item.1 /\ r ∈ rows).
  { induction l as [|x l IH]; intros d Hl Hd; [exact Hd|].
    cbn [fold_left]. apply IH.
    - intros y Hy. apply Hl. by right.
    - apply (setdefault_append_members (fun r => r ∈ rows)); [|exact Hd].
      apply Hl. left. }
  apply (H rows []); [auto|]. intros ? ? Hn. by apply elem_of_nil in Hn.
Qed.

(** Every update of either enricher addresses a selected row. *)
Lemma v2_updates_address now env date creamy u :
  let rows := filter (fun r => Is_true (creamy_of env date r)) creamy in
  u ∈ omap (EnricherV2.enrich_row (EnricherV2.maxr rows) now env date) rows ->
  exists r0, r0 ∈ rows
             /\ (u_env u, u_date u, u_pid u, u_instrument u) = row_key r0.
Proof.
  intros rows (r0 & Hr0 & Hu)%list_elem_of_omap. exists r0. split; [assumption|].
  apply enrich_row_v2_key in Hu as [-> _].
  apply list_elem_of_filter in Hr0 as [Hsel _].
  apply creamy_of_true in Hsel as (<- & <- & _). reflexivity.
Qed.

Lemma v1_updates_address now env date profiles creamy u :
  let rows := filter (fun r => Is_true (creamy_of env date r)) creamy in
  u ∈ concat (map (EnricherV1.enrich_group now env date profiles)
                  (fold_left setdefault_append rows [])) ->
  exists r0, r0 ∈ rows
             /\ (u_env u, u_date u, u_pid u, u_instrument u) = row_key r0.
Proof.
  intros rows Hu.
  apply list_elem_of_In, in_concat in Hu as (g & Hg & Hu).
  apply in_map_iff in Hg as (item & <- & Hitem).
  apply list_elem_of_In, enrich_group_elem in Hu
    as (risk & smin & smax & r0 & Hr0 & ->).
  apply list_elem_of_In in Hitem.
  destruct (grouped_members rows item r0 Hitem Hr0) as [Hp Hin].
  exists r0. split; [assumption|]. cbn. rewrite <- Hp.
  apply list_elem_of_filter in Hin as [Hsel _].
  apply creamy_of_true in Hsel as (<- & <- & _). reflexivity.
Qed.

Lemma executemany_unaddressed us creamy (i : nat) r :
  creamy !! i = Some r ->
  (forall u, u ∈ us ->
             (u_env u, u_date u, u_pid u, u_instrument u) <> row_key r) ->
  executemany us creamy !! i = Some r.
Proof.
  intros Hi Hus. rewrite executemany_map.
  change (map ?g ?l) with (g <$> l). rewrite list_lookup_fmap, Hi. cbn.
  rewrite apply_updates_last.
  destruct (last_match us r) as [u|] eqn:E; [|reflexivity].
  apply last_match_elem in E as [Hin Hm].
  apply update_matches_key in Hm. by destruct (Hus u Hin).
Qed.

(** X12.  Both enrichers keep the table's rows in place and write only
    the six columns of their [UPDATE]: the result has as many rows as
    the table, and at every position the other thirteen columns (the
    key, broker, direction, quantity, entry price, recommendation,
    ranking score, creamy flag, display rank and creation time) are
    those of the row before. *)
Theorem X12_enrichers_frame now env date profiles creamy :
  (length (EnricherV2.main now env date creamy) = length creamy
   /\ forall (i : nat) r, creamy !! i = Some r ->
        exists r', EnricherV2.main now env date creamy !! i = Some r'
                   /\ untouched r r')
  /\ (length (EnricherV1.main now env date profiles creamy) = length creamy
      /\ forall (i : nat) r, creamy !! i = Some r ->
           exists r', EnricherV1.main now env date profiles creamy !! i = Some r'
                      /\ untouched r r').
Proof.
  split.
  - rewrite v2_main_updates. apply executemany_frame.
  - unfold EnricherV1.main.
    destruct (filter _ creamy).
    + split; [reflexivity|]. intros i r Hi. exists r. split; [assumption|].
      apply untouched_refl.
    + apply executemany_frame.
Qed.

(** X13.  Neither enricher changes a row of another environment or run
    date, and in a keyed table neither changes a row that is not
    selected (one whose creamy flag is not 1 included). *)
Theorem X13_enrichers_other_rows now env date profiles creamy (i : nat) r :
  creamy !! i = Some r ->
  ENV_CODE r <> env \/ RUN_DATE r <> date
  \/ (keyed creamy /\ ~ Is_true (creamy_of env date r)) ->
  EnricherV2.main now env date creamy !! i = Some r
  /\ EnricherV1.main now env date profiles creamy !! i = Some r.
Proof.
  intros Hi Hother.
  assert (Hrc : r ∈ creamy) by (by eapply list_elem_of_lookup_2).
  assert (Hkey : forall r0,
             r0 ∈ filter (fun r => Is_true (creamy_of env date r)) creamy ->
             row_key r0 <> row_key r).
  { intros r0 [Hsel Hin]%list_elem_of_filter E.
    pose proof (creamy_of_true _ _ _ Hsel) as (He & Hd & _).
    destruct Hother as [H|[H|[Hk H]]].
    - apply H. rewrite <- He. unfold row_key in E. congruence.
    - apply H. rewrite <- Hd. unfold row_key in E. congruence.
    - apply H. by rewrite <- (Hk r0 r Hin Hrc E). }
  split.
  - rewrite v2_main_updates. apply executemany_unaddressed; [assumption|].
    intros u Hu. apply v2_updates_address in Hu as (r0 & Hr0 & ->). by apply Hkey.
  - unfold EnricherV1.main.
    destruct (filter _ creamy) eqn:E; [assumption|]. rewrite <- E in *.
    apply executemany_unaddressed; [assumption|].
    intros u Hu. apply v1_updates_address in Hu as (r0 & Hr0 & ->). by apply Hkey.
Qed.

Lemma X13_enrichers_other_rows_witness :
  let r := mkCreamy "LIVE" "2025-12-01" "BALANCED" "I1" None None None
                    (Some 100%Q) None None None None None None None 1
                    (Some 1) None None in
  let creamy := [plain_row "BALANCED" "I1" (Some 50%Q) None (Some 1) None; r] in
  EnricherV2.main "now" "SIM" "2025-12-01" creamy !! 1%nat = Some r
  /\ EnricherV1.main "now" "SIM" "2025-12-01" ∅ creamy !! 1%nat = Some r.
Proof.
  intros r creamy.
  apply (X13_enrichers_other_rows "now" "SIM" "2025-12-01" ∅ creamy 1 r);
    [reflexivity|left; discriminate].
Defined.

End EnricherFrame.

(** ** The min-max enricher: normalised score and metrics *)

Section EnricherV1More.

Import EnricherV1.

Lemma clamp_v1_inactive (x lo hi : Q) :
  (lo <= x <= hi)%Q -> clamp x lo hi = x.
Proof. apply clamp_inactive. Qed.

Lemma clamp_v1_low (x lo hi : Q) : (x < lo)%Q -> clamp x lo hi = lo.
Proof. intros H. unfold clamp. by rewrite (proj2 (Qlt_bool_iff x lo)). Qed.

Lemma clamp_v1_high (x lo hi : Q) :
  (lo <= x)%Q -> (hi < x)%Q -> clamp x lo hi = hi.
Proof.
  intros H1 H2. unfold clamp.
  rewrite (proj2 (Qlt_bool_false x lo)) by assumption.
  by rewrite (proj2 (Qlt_bool_iff hi x)).
Qed.

Lemma Qle_bool_false (x y : Q) : Qle_bool x y = false <-> (y < x)%Q.
Proof.
  split.
  - intros E. apply Qnot_le_lt. intros H. apply Qle_bool_iff in H. congruence.
  - intros H. destruct (Qle_bool x y) eqn:E; [|reflexivity].
    apply Qle_bool_iff in E. lra.
Qed.

Lemma ratio_unit (a b : Q) : (0 < b)%Q -> (0 <= a <= b)%Q -> (0 <= a / b <= 1)%Q.
Proof.
  intros Hb [H1 H2]. split.
  - apply Qle_shift_div_l; [assumption|]. lra.
  - apply Qle_shift_div_r; [assumption|]. lra.
Qed.

(** X14.  In exact arithmetic (the scores as rationals, so that
    [smax - smin] cannot overflow as it does for doubles near 1e308),
    [norm_score] lies in [0, 1]; it is 0.5 when the group has no spread
    (a lone candidate included), 0 at or below the smallest score, 1 at
    or above the largest, and it never decreases as the score grows. *)
Theorem X14_norm_score_range (score smin smax : Q) :
  (0 <= norm_score score smin smax <= 1)%Q
  /\ ((smax <= smin)%Q -> norm_score score smin smax = 0.5%Q)
  /\ ((smin < smax)%Q -> (score <= smin)%Q ->
      (norm_score score smin smax == 0)%Q)
  /\ ((smin < smax)%Q -> (smax <= score)%Q ->
      (norm_score score smin smax == 1)%Q)
  /\ (forall score', (score <= score')%Q ->
        (norm_score score smin smax <= norm_score score' smin smax)%Q).
Proof.
  unfold norm_score.
  destruct (Qle_bool smax smin) eqn:E.
  - apply Qle_bool_iff in E.
    split; [lra|]. split; [reflexivity|]. split; [lra|]. split; [lra|].
    intros; lra.
  - apply Qle_bool_false in E.
    assert (Hd : (0 < / (smax - smin))%Q) by (apply Qinv_lt_0_compat; lra).
    split; [pose proof (clamp_v1_bounds ((score - smin) / (smax - smin)) 0.0 1.0);
            lra|].
    split; [lra|]. split; [|split].
    + intros _ Hs.
      destruct (Qeq_dec score smin) as [Heq|Hne].
      * assert (Hz : ((score - smin) / (smax - smin) == 0)%Q).
        { rewrite Heq. field. lra. }
        rewrite clamp_v1_inactive; [exact Hz|lra].
      * rewrite clamp_v1_low; [reflexivity|].
        apply Qlt_shift_div_r; lra.
    + intros _ Hs.
      destruct (Qeq_dec score smax) as [Heq|Hne].
      * assert (Hz : ((score - smin) / (smax - smin) == 1)%Q).
        { rewrite Heq. field. lra. }
        rewrite clamp_v1_inactive; [exact Hz|lra].
      * rewrite clamp_v1_high; [reflexivity| |].
        -- apply Qle_shift_div_l; lra.
        -- apply Qlt_shift_div_l; lra.
    + intros score' Hs. apply clamp_mono; [lra|].
      unfold Qdiv. apply Qmult_le_compat_r; [lra|apply Qlt_le_weak, Hd].
Qed.

Lemma norm_score_unit (score smin smax : Q) :
  (0 <= norm_score score smin smax <= 1)%Q.
Proof.
  unfold norm_score. destruct (Qle_bool smax smin); [lra|].
  pose proof (clamp_v1_bounds ((score - smin) / (smax - smin)) 0.0 1.0). lra.
Qed.

Lemma round_hundredths_bounds (x : Q) (lo hi : Z) :
  (inject_Z lo / 100 <= x <= inject_Z hi / 100)%Q ->
  (inject_Z lo / 100 <= round_digits x 2 <= inject_Z hi / 100)%Q.
Proof.
  intros H. unfold round_digits. change (10 ^ Z.of_nat 2) with 100.
  assert (Hb : lo <= round_half_even (x * inject_Z 100) <= hi).
  { apply round_half_even_bounds. change (inject_Z 100) with 100%Q.
    div_const. lra. }
  destruct Hb as [H1 H2]. rewrite Zle_Qle in H1, H2.
  change (inject_Z 100) with 100%Q in *. div_const. lra.
Qed.

(** What [metrics] computes for a normalised score in [0, 1]. *)
Lemma v1_metrics_facts (risk : Risk) (entry n : Q) :
  (0 <= n <= 1)%Q ->
  let m := metrics risk entry n in
  let lo := (risk_params risk).1.1 in
  let hi := (risk_params risk).1.2 in
  let rr := (risk_params risk).2 in
  (lo <= m_roi m <= hi)%Q
  /\ 53 <= m_conf m <= 97
  /\ (m_target m - entry == rr * (entry - m_stop m))%Q
  /\ ((0 < entry)%Q ->
      (0 < m_stop m)%Q /\ (m_stop m < entry)%Q /\ (entry < m_target m)%Q
      /\ (m_rr m == rr)%Q)
  /\ ((entry <= 0)%Q -> m_rr m = 0.0%Q).
Proof.
  intros Hn. cbv zeta.
  assert (Hroi : ((risk_params risk).1.1
                  <= round_digits ((risk_params risk).1.1
                                   + ((risk_params risk).1.2
                                      - (risk_params risk).1.1) * n) 2
                  <= (risk_params risk).1.2)%Q).
  { assert (Hz : forall (x : Q) (a b : Z) (lo hi : Q),
               (lo == inject_Z a / 100)%Q -> (hi == inject_Z b / 100)%Q ->
               (lo <= x <= hi)%Q -> (lo <= round_digits x 2 <= hi)%Q).
    { intros x a b lo hi -> -> H. by apply round_hundredths_bounds. }
    destruct risk; cbn [risk_params fst snd].
    - apply (Hz _ 150 400); [reflexivity..|lra].
    - apply (Hz _ 200 700); [reflexivity..|lra].
    - apply (Hz _ 300 1200); [reflexivity..|lra].
    - apply (Hz _ 400 1800); [reflexivity..|lra]. }
  assert (Hconf : 53 <= round_half_even
                          (clamp (50.0 + n * 35.0
                                  + ((risk_params risk).2 - 1.0) * 10.0)
                                 1.0 99.0) <= 97).
  { apply round_half_even_bounds.
    change (inject_Z 53) with 53%Q. change (inject_Z 97) with 97%Q.
    rewrite clamp_v1_inactive; destruct risk; cbn [risk_params snd]; lra. }
  unfold metrics.
  destruct (risk_params risk) as [[lo hi] rr] eqn:Ep.
  cbn [fst snd] in *. cbn [m_roi m_conf m_target m_stop m_rr].
  assert (Hrr : (1.3 <= rr <= 2.2)%Q /\ (1.5 <= lo)%Q /\ (hi <= 18)%Q).
  { destruct risk; injection Ep as <- <- <-; lra. }
  destruct Hrr as (Hrr & Hlo & Hhi).
  set (x := round_digits (lo + (hi - lo) * n) 2) in *. clearbody x.
  assert (Hsl : (x == rr * (x / rr))%Q) by (field; lra).
  assert (Hy : (0 < x / rr < 100)%Q).
  { split.
    - apply Qlt_shift_div_l; lra.
    - apply Qlt_shift_div_r; lra. }
  set (y := (x / rr)%Q) in *. clearbody y.
  split; [exact Hroi|]. split; [exact Hconf|].
  split. { div_const. rewrite Hsl at 1. ring. }
  split.
  - intros He.
    assert (H1 : (0 < entry * (1.0 - y / 100.0))%Q) by (div_const; nra).
    assert (H2 : (entry * (1.0 - y / 100.0) < entry)%Q) by (div_const; nra).
    assert (H3 : (entry < entry * (1.0 + x / 100.0))%Q) by (div_const; nra).
    split; [exact H1|]. split; [exact H2|]. split; [exact H3|].
    rewrite (proj2 (Qlt_bool_iff _ _) H2), (proj2 (Qlt_bool_iff _ _) H3).
    cbn [andb]. rewrite Hsl at 1. div_const. field. nra.
  - intros He.
    assert (H2 : (entry <= entry * (1.0 - y / 100.0))%Q) by (div_const; nra).
    by rewrite (proj2 (Qlt_bool_false _ _) H2).
Qed.

Lemma enrich_group_elem_risk now env date profiles item u :
  u ∈ enrich_group now env date profiles item ->
  exists smin smax r,
    r ∈ item.2
    /\ u = enrich_row now env date item.1
             (risk_class (default (mkMeta item.1 item.1 BALANCED)
                                  (profiles !! item.1)))
             smin smax r.
Proof.
  unfold enrich_group.
  destruct (map _ item.2) as [|s0 ss]; [by intros ?%elem_of_nil|].
  change (map ?g ?l) with (g <$> l). intros (r & -> & Hr)%list_elem_of_fmap.
  by eexists _, _, r.
Qed.

(** In a keyed table the update a selected row receives is the one
    computed from the row itself, with the risk class of its profile. *)
Lemma v1_row_update now env date profiles creamy (i : nat) r :
  keyed creamy -> creamy !! i = Some r -> Is_true (creamy_of env date r) ->
  exists smin smax,
    main now env date profiles creamy !! i
    = Some (set_metrics
              (enrich_row now env date (PROFILE_ID r)
                 (risk_class (default (mkMeta (PROFILE_ID r) (PROFILE_ID r) BALANCED)
                                      (profiles !! PROFILE_ID r)))
                 smin smax r) r).
Proof.
  intros Hkey Hi Hsel. unfold main.
  set (rows := filter (fun r => Is_true (creamy_of env date r)) creamy).
  assert (Hrc : r ∈ creamy) by (by eapply list_elem_of_lookup_2).
  assert (Hr : r ∈ rows) by (apply list_elem_of_filter; by split).
  set (us := concat (map (enrich_group now env date profiles)
                         (fold_left setdefault_append rows []))).
  assert (Hgoal : exists smin smax,
             executemany us creamy !! i
             = Some (set_metrics
                       (enrich_row now env date (PROFILE_ID r)
                          (risk_class
                             (default (mkMeta (PROFILE_ID r) (PROFILE_ID r) BALANCED)
                                      (profiles !! PROFILE_ID r)))
                          smin smax r) r)).
  { destruct (grouped rows r Hr) as (item & Hitem & Hp & Hri).
    destruct (enrich_group_row now env date profiles item r Hri)
      as (risk & smin & smax & Hu0).
    set (u0 := enrich_row now env date item.1 risk smin smax r) in *.
    assert (Hin : u0 ∈ us).
    { apply list_elem_of_In, in_concat.
      exists (enrich_group now env date profiles item).
      split; [apply in_map, list_elem_of_In, Hitem|by apply list_elem_of_In]. }
    assert (Hm : update_matches u0 r = true).
    { apply update_matches_key. subst u0. cbn. rewrite Hp.
      apply creamy_of_true in Hsel as (<- & <- & _). reflexivity. }
    rewrite executemany_map.
    change (map ?g ?l) with (g <$> l). rewrite list_lookup_fmap, Hi. cbn.
    rewrite apply_updates_last.
    destruct (last_match_some us r u0 Hin Hm) as [u Hu]. rewrite Hu.
    apply last_match_elem in Hu as [Hu Hmu].
    apply list_elem_of_In, in_concat in Hu as (g & Hg & Hu).
    apply in_map_iff in Hg as (item' & <- & Hitem').
    apply list_elem_of_In, enrich_group_elem_risk in Hu
      as (smin' & smax' & r' & Hr' & ->).
    apply list_elem_of_In in Hitem'.
    destruct (grouped_members rows item' r' Hitem' Hr') as [Hp' Hin'].
    assert (r' = r) as ->.
    { apply list_elem_of_filter in Hin' as [Hsel' Hr'c].
      apply Hkey; [assumption..|].
      apply update_matches_key in Hmu. rewrite Hmu. cbn. rewrite <- Hp'.
      apply creamy_of_true in Hsel' as (<- & <- & _). reflexivity. }
    rewrite <- Hp'. by exists smin', smax'. }
  destruct rows; [by apply elem_of_nil in Hr|exact Hgoal].
Qed.

(** X15.  What the min-max enricher stores for a selected row of a
    keyed table: an expected return within the range of the profile's
    risk class, a whole-number confidence between 53 and 97, and, when
    the entry price is positive, 0 < STOP_LOSS < ENTRY_PRICE <
    TARGET_PRICE with the two distances from the entry exactly in the
    class's reward:risk ratio. *)
Theorem X15_v1_stored_metrics now env date profiles creamy (i : nat) r :
  keyed creamy -> creamy !! i = Some r -> Is_true (creamy_of env date r) ->
  let risk := risk_class (default (mkMeta (PROFILE_ID r) (PROFILE_ID r) BALANCED)
                                  (profiles !! PROFILE_ID r)) in
  let e := default 0%Q (ENTRY_PRICE r) in
  exists r' t s x z,
    main now env date profiles creamy !! i = Some r'
    /\ TARGET_PRICE r' = Some t /\ STOP_LOSS r' = Some s
    /\ EXPECTED_RETURN_PCT r' = Some x /\ CONFIDENCE r' = Some (inject_Z z)
    /\ ((risk_params risk).1.1 <= x <= (risk_params risk).1.2)%Q
    /\ 53 <= z <= 97
    /\ (t - e == (risk_params risk).2 * (e - s))%Q
    /\ ((0 < e)%Q -> (0 < s)%Q /\ (s < e)%Q /\ (e < t)%Q).
Proof.
  intros Hkey Hi Hsel risk e.
  destruct (v1_row_update now env date profiles creamy i r Hkey Hi Hsel)
    as (smin & smax & Hmain).
  fold risk in Hmain.
  pose proof (v1_metrics_facts risk e
                (norm_score (default 0%Q (RANKING_SCORE r)) smin smax)
                (norm_score_unit _ _ _)) as (H1 & H2 & H3 & H4 & _).
  eexists _, _, _, _, _. split; [exact Hmain|].
  cbn [set_metrics enrich_row TARGET_PRICE STOP_LOSS EXPECTED_RETURN_PCT
       CONFIDENCE u_target u_stop u_roi u_conf].
  do 4 (split; [reflexivity|]).
  split; [exact H1|]. split; [exact H2|]. split; [exact H3|].
  intros He. destruct (H4 He) as (? & ? & ? & _). auto.
Qed.

Lemma X15_v1_stored_metrics_witness :
  let r := plain_row "P1" "I2" (Some 100%Q) (Some 3%Q) None None in
  let creamy := [plain_row "P1" "I1" (Some 50%Q) (Some 1%Q) None None; r] in
  let risk := risk_class (default (mkMeta (PROFILE_ID r) (PROFILE_ID r) BALANCED)
                                  ((∅ : gmap string Meta) !! PROFILE_ID r)) in
  let e := default 0%Q (ENTRY_PRICE r) in
  exists r' t s x z,
    main "now" "SIM" "2025-12-01" ∅ creamy !! 1%nat = Some r'
    /\ TARGET_PRICE r' = Some t /\ STOP_LOSS r' = Some s
    /\ EXPECTED_RETURN_PCT r' = Some x /\ CONFIDENCE r' = Some (inject_Z z)
    /\ ((risk_params risk).1.1 <= x <= (risk_params risk).1.2)%Q
    /\ 53 <= z <= 97
    /\ (t - e == (risk_params risk).2 * (e - s))%Q
    /\ ((0 < e)%Q -> (0 < s)%Q /\ (s < e)%Q /\ (e < t)%Q).
Proof.
  intros r creamy.
  apply (X15_v1_stored_metrics "now" "SIM" "2025-12-01" ∅ creamy 1 r).
  - intros r1 r2 H1 H2.
    repeat (apply elem_of_cons in H1 as [->|H1]);
      repeat (apply elem_of_cons in H2 as [->|H2]);
      try (by apply elem_of_nil in H1); try (by apply elem_of_nil in H2);
      first [reflexivity|discriminate].
  - reflexivity.
  - exact I.
Defined.

End EnricherV1More.

(** ** The expansion script: what it appends and which profile it copies *)

Section ExpandMore.

Import Expand.

Lemma to_clone_iff env date base creamy pid :
  to_clone env date base creamy pid = true
  <-> pid <> base /\ ~ has_selected env date pid creamy.
Proof.
  unfold to_clone. rewrite andb_true_iff, !negb_true_iff, String.eqb_neq.
  split; intros [H1 H2]; (split; [assumption|]).
  - intros H.
    pose proof (proj2 (count_positive
                         (fun r => Is_true (creamy_of env date r
                                            && String.eqb (PROFILE_ID r) pid))
                         creamy) H) as Hc.
    congruence.
  - destruct (0 <? _)%nat eqn:E; [|reflexivity].
    apply count_positive in E. by destruct H2.
Qed.

Lemma filter_profile_app env date pid (creamy added : list CreamyRow) :
  (forall r, r ∈ added -> PROFILE_ID r <> pid) ->
  filter (fun r => Is_true (creamy_of env date r
                            && String.eqb (PROFILE_ID r) pid)) (creamy ++ added)
  = filter (fun r => Is_true (creamy_of env date r
                              && String.eqb (PROFILE_ID r) pid)) creamy.
Proof.
  intros H. rewrite filter_app, (filter_none _ added), app_nil_r; [reflexivity|].
  intros r Hr Hsel. apply Is_true_true, andb_true_iff in Hsel as [_ E].
  apply String.eqb_eq in E. by apply (H r).
Qed.

(** The loop of lines 42-70 in closed form. *)
Lemma expand_fold env date base now creamy pids added created :
  NoDup pids ->
  (forall r, r ∈ added -> PROFILE_ID r <> base /\ PROFILE_ID r ∉ pids) ->
  let new :=
    concat (map (fun pid =>
                   map (clone pid now)
                       (filter (fun r => Is_true (creamy_of env date r
                                  && String.eqb (PROFILE_ID r) base)) creamy))
                (filter (fun pid => Is_true (to_clone env date base creamy pid))
                        pids)) in
  fold_left (expand_profile env date base now) pids (creamy ++ added, created)
  = (creamy ++ added ++ new, (created + length new)%nat).
Proof.
  revert added created.
  induction pids as [|pid pids IH]; intros added created Hnd Hadded; cbv zeta.
  - cbn. by rewrite app_nil_r, Nat.add_0_r.
  - apply NoDup_cons in Hnd as [Hpid Hnd]. cbn [fold_left].
    assert (Hstep : expand_profile env date base now (creamy ++ added, created) pid
                    = if to_clone env date base creamy pid
                      then (creamy ++ added
                              ++ map (clone pid now)
                                   (filter (fun r => Is_true (creamy_of env date r
                                      && String.eqb (PROFILE_ID r) base)) creamy),
                            (created
                             + length (filter (fun r => Is_true (creamy_of env date r
                                         && String.eqb (PROFILE_ID r) base)) creamy))%nat)
                      else (creamy ++ added, created)).
    { unfold expand_profile, to_clone.
      destruct (String.eqb pid base); [reflexivity|]. cbn [negb andb].
      rewrite (filter_profile_app env date pid).
      2:{ intros r Hr E. apply (Hadded r Hr). rewrite E. left. }
      destruct (0 <? _)%nat; [reflexivity|]. cbn [negb].
      rewrite (filter_profile_app env date base)
        by (intros r Hr; apply (Hadded r Hr)).
      by rewrite length_map, app_assoc. }
    rewrite Hstep, filter_cons.
    destruct (to_clone env date base creamy pid) eqn:E.
    + rewrite decide_True by exact I. cbn [map concat].
      cbv zeta in IH. rewrite IH; [|assumption|].
      * rewrite length_app, length_map.
        by rewrite <- !app_assoc, Nat.add_assoc.
      * intros r [Hr|Hr]%elem_of_app.
        -- destruct (Hadded r Hr) as [H1 H2]. split; [assumption|].
           intros Hin. apply H2. by right.
        -- change (map ?g ?l) with (g <$> l) in Hr.
           apply list_elem_of_fmap in Hr as (r0 & -> & _). cbn [clone PROFILE_ID].
           split; [|assumption].
           apply to_clone_iff in E as [E _]. exact E.
    + rewrite decide_False by (intros []). cbv zeta in IH. apply IH; [assumption|].
      intros r Hr. destruct (Hadded r Hr) as [H1 H2]. split; [assumption|].
      intros Hin. apply H2. by right.
Qed.

(** X16.  The expansion in closed form, for a profile table without
    repeated identifiers: the table after the run is the table before
    followed, for each profile in ascending order that is not the base
    profile and had no selected row, by the base profile's selected rows
    re-labelled with that profile; the count the script prints is the
    number of rows added. *)
Theorem X16_expand_closed_form now env date profiles creamy base :
  NoDup profiles -> base_profile creamy env date = Some base ->
  let base_rows :=
    filter (fun r => Is_true (creamy_of env date r
                              && String.eqb (PROFILE_ID r) base)) creamy in
  let missing :=
    filter (fun pid => Is_true (to_clone env date base creamy pid))
           (merge_sort String.le profiles) in
  let new := concat (map (fun pid => map (clone pid now) base_rows) missing) in
  main now env date profiles creamy = (creamy ++ new, length new)
  /\ forall pid, pid ∈ missing <->
       pid ∈ profiles /\ pid <> base /\ ~ has_selected env date pid creamy.
Proof.
  intros Hnd Hbase. cbv zeta. split.
  - rewrite main_fold, Hbase.
    pose proof (expand_fold env date base now creamy
                  (merge_sort String.le profiles) [] 0) as H.
    cbv zeta in H. rewrite app_nil_r in H. rewrite H; [reflexivity| |].
    + by rewrite merge_sort_Permutation.
    + intros r Hr. by apply elem_of_nil in Hr.
  - intros pid. rewrite list_elem_of_filter, merge_sort_Permutation.
    rewrite Is_true_true, to_clone_iff. tauto.
Qed.

Lemma X16_expand_closed_form_witness :
  let creamy := [plain_row "P1" "I1" (Some 50%Q) None None None] in
  let base_rows :=
    filter (fun r => Is_true (creamy_of "SIM" "2025-12-01" r
                              && String.eqb (PROFILE_ID r) "P1")) creamy in
  let missing :=
    filter (fun pid => Is_true (to_clone "SIM" "2025-12-01" "P1" creamy pid))
           (merge_sort String.le ["P2"; "P1"]) in
  let new := concat (map (fun pid => map (clone pid "now") base_rows) missing) in
  main "now" "SIM" "2025-12-01" ["P2"; "P1"] creamy = (creamy ++ new, length new)
  /\ forall pid, pid ∈ missing <->
       pid ∈ ["P2"; "P1"] /\ pid <> "P1"
       /\ ~ has_selected "SIM" "2025-12-01" pid creamy.
Proof.
  intros creamy.
  apply (X16_expand_closed_form "now" "SIM" "2025-12-01" ["P2"; "P1"] creamy "P1").
  - apply NoDup_cons. split.
    + intros H. apply list_elem_of_singleton in H. discriminate.
    + apply NoDup_singleton.
  - vm_compute. reflexivity.
Defined.

#[local] Instance group_le_trans : Transitive group_le.
Proof.
  intros [p1 c1] [p2 c2] [p3 c3]. unfold group_le, group_leb. cbn [fst snd].
  rewrite !Is_true_true, !orb_true_iff, !andb_true_iff,
          !Nat.ltb_lt, !Nat.eqb_eq.
  intros [H1|[H1 L1]] [H2|[H2 L2]]; try (left; lia).
  right. split; [lia|].
  apply Is_true_true. apply Is_true_true in L1, L2.
  change (String.le p1 p3). by trans p2.
Qed.

#[local] Instance group_le_total : Total group_le.
Proof.
  intros [p1 c1] [p2 c2]. unfold group_le, group_leb. cbn [fst snd].
  rewrite !Is_true_true, !orb_true_iff, !andb_true_iff,
          !Nat.ltb_lt, !Nat.eqb_eq.
  destruct (lt_eq_lt_dec c1 c2) as [[H|H]|H]; [right; left; lia| |left; left; lia].
  destruct (String.leb_total p1 p2) as [L|L]; [left|right]; right; split;
    [assumption|exact L|symmetry; assumption|exact L].
Qed.

Lemma count_of_positive rows pid :
  (0 < count_of rows pid)%nat <-> pid ∈ map PROFILE_ID rows.
Proof.
  unfold count_of. change (map ?g ?l) with (g <$> l).
  rewrite list_elem_of_fmap. split.
  - destruct (filter _ rows) as [|r l] eqn:E; [cbn; lia|]. intros _.
    assert (Hr : r ∈ filter (fun r => PROFILE_ID r = pid) rows) by (rewrite E; left).
    apply list_elem_of_filter in Hr as [Hp Hr]. by exists r.
  - intros (r & -> & Hr).
    assert (Hin : r ∈ filter (fun x => PROFILE_ID x = PROFILE_ID r) rows)
      by (by apply list_elem_of_filter).
    destruct (filter _ rows); [by apply elem_of_nil in Hin|cbn; lia].
Qed.

Lemma group_le_refl (g : string * nat) : group_le g g.
Proof.
  unfold group_le, group_leb. rewrite Nat.eqb_refl. cbn [andb].
  apply Is_true_true, orb_true_iff. right.
  destruct (String.leb_total g.1 g.1); assumption.
Qed.

(** The base profile of lines 18-30. *)
Lemma base_profile_spec creamy env date :
  let rows := filter (fun r => Is_true (creamy_of env date r)) creamy in
  (base_profile creamy env date = None <-> rows = [])
  /\ forall base, base_profile creamy env date = Some base ->
       (0 < count_of rows base)%nat
       /\ forall pid, (count_of rows pid <= count_of rows base)%nat
                      /\ (count_of rows pid = count_of rows base ->
                          String.le base pid).
Proof.
  intros rows. unfold base_profile. fold rows.
  set (groups := map (fun pid => (pid, count_of rows pid))
                     (remove_dups (map PROFILE_ID rows))).
  assert (Hgroups : forall g, g ∈ merge_sort group_le groups <->
                              g.2 = count_of rows g.1 /\ g.1 ∈ map PROFILE_ID rows).
  { intros [p c]. rewrite merge_sort_Permutation. subst groups.
    change (map ?f ?l) with (f <$> l). rewrite list_elem_of_fmap. cbn [fst snd].
    split.
    - intros (pid & [= -> ->] & Hpid). by rewrite elem_of_remove_dups in Hpid.
    - intros [-> Hp]. exists p. by rewrite elem_of_remove_dups. }
  pose proof (StronglySorted_merge_sort group_le groups) as Hsorted.
  destruct (merge_sort group_le groups) as [|[p c] rest] eqn:E; cbn [head fmap option_fmap option_map fst].
  - split.
    + split; [intros _|reflexivity].
      destruct rows as [|r rows'] eqn:Er; [reflexivity|].
      assert (Hin : (PROFILE_ID r, count_of (r :: rows') (PROFILE_ID r))
                    ∈ (@nil (string * nat))).
      { apply Hgroups. split; [reflexivity|]. cbn. left. }
      by apply elem_of_nil in Hin.
    + discriminate.
  - assert (Hhead : c = count_of rows p /\ p ∈ map PROFILE_ID rows).
    { apply (Hgroups (p, c)). left. }
    destruct Hhead as [-> Hp].
    split.
    + split; [discriminate|]. intros Hr. rewrite Hr in Hp. by apply elem_of_nil in Hp.
    + intros base [= <-]. split; [by apply count_of_positive|].
      intros pid.
      destruct (decide (pid ∈ map PROFILE_ID rows)) as [Hpid|Hpid].
      * assert (Hin : (pid, count_of rows pid) ∈ (p, count_of rows p) :: rest)
          by (by apply Hgroups).
        assert (Hle : group_le (p, count_of rows p) (pid, count_of rows pid)).
        { apply elem_of_cons in Hin as [Heq|Hin].
          - rewrite Heq. apply group_le_refl.
          - apply StronglySorted_inv in Hsorted as [_ Hall].
            rewrite Forall_forall in Hall. by apply Hall. }
        unfold group_le, group_leb in Hle. cbn [fst snd] in Hle.
        apply Is_true_true in Hle.
        rewrite orb_true_iff, andb_true_iff, Nat.ltb_lt, Nat.eqb_eq in Hle.
        split; [lia|]. intros Heq. destruct Hle as [?|[_ L]]; [lia|].
        by apply Is_true_true.
      * assert (Hz : count_of rows pid = 0%nat).
        { destruct (count_of rows pid) eqn:Ec; [reflexivity|].
          destruct Hpid. apply count_of_positive. lia. }
        apply count_of_positive in Hp. split; lia.
Qed.

(** X17.  The base profile of lines 18-30: there is none exactly when
    the pair has no selected row; otherwise it is a profile with a
    selected row, no profile has more selected rows, and among the
    profiles with as many it is the first in string order. *)
Theorem X17_base_profile creamy env date :
  let rows := filter (fun r => Is_true (creamy_of env date r)) creamy in
  (base_profile creamy env date = None <-> rows = [])
  /\ forall base, base_profile creamy env date = Some base ->
       (0 < count_of rows base)%nat
       /\ forall pid, (count_of rows pid <= count_of rows base)%nat
                      /\ (count_of rows pid = count_of rows base ->
                          String.le base pid).
Proof. apply base_profile_spec. Qed.

(** X18.  Coverage: when the pair has a selected row, after the run
    every profile of [AIW_C_PROFILE] has at least one selected row for
    the pair, and the rows the table had are still its first rows. *)
Theorem X18_expand_covers now env date profiles creamy pid :
  filter (fun r => Is_true (creamy_of env date r)) creamy <> [] ->
  pid ∈ profiles ->
  has_selected env date pid (main now env date profiles creamy).1
  /\ take (length creamy) (main now env date profiles creamy).1 = creamy.
Proof.
  intros Hrows Hpid. rewrite main_fold.
  destruct (base_profile creamy env date) as [base|] eqn:Hb.
  2:{ destruct Hrows. by apply (proj1 (base_profile_spec creamy env date)). }
  split.
  - apply expand_all_covers.
    + by apply base_profile_selected.
    + by rewrite merge_sort_Permutation.
  - assert (H : forall pids st, take (length creamy) st.1 = creamy ->
               take (length creamy)
                    (fold_left (expand_profile env date base now) pids st).1
               = creamy).
    { induction pids as [|p pids IH]; intros st Hst; [exact Hst|].
      cbn [fold_left]. apply IH. unfold expand_profile.
      destruct st as [t c]. destruct (String.eqb p base); [exact Hst|].
      destruct (0 <? _)%nat; [exact Hst|]. cbn [fst] in *.
      rewrite take_app_le; [exact Hst|].
      rewrite <- Hst at 1. rewrite length_take. lia. }
    apply H. cbn [fst]. by rewrite firstn_all.
Qed.

Lemma X18_expand_covers_witness :
  let creamy := [plain_row "P1" "I1" (Some 50%Q) None None None] in
  has_selected "SIM" "2025-12-01" "P2"
    (main "now" "SIM" "2025-12-01" ["P2"; "P1"] creamy).1
  /\ take (length creamy) (main "now" "SIM" "2025-12-01" ["P2"; "P1"] creamy).1
     = creamy.
Proof.
  intros creamy.
  apply (X18_expand_covers "now" "SIM" "2025-12-01" ["P2"; "P1"] creamy "P2").
  - vm_compute. discriminate.
  - left.
Defined.

End ExpandMore.

(** ** From the enrichers to the backtest *)

Section Pipeline.

Import Backtest.

Lemma ret_pct_value (x e : Q) :
  ~ (e == 0)%Q -> (ret_pct x e == (x - e) / e * 100)%Q.
Proof.
  intros He. unfold ret_pct, pct.
  destruct (Qeq_bool e 0) eqn:E; [|reflexivity].
  apply Qeq_bool_iff in E. contradiction.
Qed.

(** The loop body of the backtest on a candidate whose stored levels
    are ordered and whose target is the entry raised by the stored
    expected return. *)
Lemma trade_of_levels rule rd bar bars st (r : CreamyRow) (e t s x : Q) :
  ENTRY_PRICE r = Some e -> TARGET_PRICE r = Some t -> STOP_LOSS r = Some s ->
  EXPECTED_RETURN_PCT r = Some x ->
  (0 < s)%Q -> (s < e)%Q -> (e < t)%Q -> (t == e * (1 + x / 100))%Q ->
  ((e - s) * 100 < e * x)%Q ->
  let st' := trade rule rd (bar :: bars) r st in
  (hit_t t (max_high bar bars) = true -> hit_s s (min_low bar bars) = false ->
   (sum_realized st' == sum_realized st + x)%Q /\ win st' = win st + 1)
  /\ (hit_t t (max_high bar bars) = false -> hit_s s (min_low bar bars) = true ->
      (sum_realized st' < sum_realized st)%Q /\ lose st' = lose st + 1)
  /\ (sum_edge st < sum_edge st')%Q.
Proof.
  intros He Ht Hs Hx H0 H1 H2 H3 H4. cbv zeta. rewrite trade_unfold.
  rewrite He, Ht, Hs, Hx. cbn [f].
  assert (Hne : ~ (e == 0)%Q) by lra.
  assert (Hinv : (0 < / e)%Q) by (apply Qinv_lt_0_compat; lra).
  assert (Hone : (e * / e == 1)%Q) by (apply Qmult_inv_r; exact Hne).
  split; [|split].
  - intros Hit His. rewrite outcome_target_hit by assumption.
    cbn [bump count_candidate sum_realized win]. split; [|reflexivity].
    rewrite ret_pct_value by exact Hne. rewrite H3. field. exact Hne.
  - intros Hit His. rewrite outcome_stop_hit by assumption.
    cbn [bump count_candidate sum_realized lose]. split; [|reflexivity].
    rewrite ret_pct_value by exact Hne.
    assert (Hneg : ((s - e) / e * 100 < 0)%Q).
    { unfold Qdiv. generalize dependent (/ e)%Q. intros i Hi Hei. nra. }
    lra.
  - assert (Hedge : (sum_edge st
                     < sum_edge st + (x - pct (e - s) e))%Q).
    { unfold pct. destruct (Qeq_bool e 0) eqn:E;
        [apply Qeq_bool_iff in E; contradiction|].
      assert (Hd : ((e - s) / e * 100 < x)%Q).
      { unfold Qdiv.
        assert (Hm : ((e - s) * 100 * / e < e * x * / e)%Q)
          by (apply Qmult_lt_compat_r; assumption).
        assert (Hx' : (e * x * / e == x)%Q) by (field; exact Hne).
        lra. }
      lra. }
    destruct (Qeq_bool e 0) eqn:E; [apply Qeq_bool_iff in E; contradiction|].
    unfold outcome.
    destruct (hit_t t (max_high bar bars) && hit_s s (min_low bar bars));
      [destruct rule|];
      [| | |destruct (hit_t t (max_high bar bars));
            [|destruct (hit_s s (min_low bar bars))]];
      cbn [bump count_candidate sum_edge]; exact Hedge.
Qed.

Lemma v2_metrics_edge (risk : Risk) (entry s : Q) :
  (0 < entry)%Q ->
  let m := EnricherV2.metrics (EnricherV2.BASE risk) entry s in
  ((entry - EnricherV2.m_stop m) * 100 < entry * EnricherV2.m_roi m)%Q.
Proof.
  intros He. cbv zeta. unfold EnricherV2.metrics.
  cbn [EnricherV2.m_roi EnricherV2.m_stop].
  set (b := EnricherV2.BASE risk).
  set (x := EnricherV2.clamp _ (EnricherV2.roi b * 0.60) (EnricherV2.roi b * 1.50)).
  assert (Hx : (EnricherV2.roi b * 0.60 <= x)%Q).
  { apply clamp_v2_bounds. pose proof (BASE_positive risk). subst b. lra. }
  assert (Hd : (EnricherV2.clamp (x / EnricherV2.rr b) 0.75 15.0 < x)%Q).
  { clearbody x. unfold EnricherV2.clamp.
    destruct (Qlt_bool (x / EnricherV2.rr b) 0.75) eqn:E1;
      [|destruct (Qlt_bool 15.0 (x / EnricherV2.rr b)) eqn:E2];
      rewrite ?Qlt_bool_iff, ?Qlt_bool_false in *;
      subst b; destruct risk; cbn in *; div_const; lra. }
  clearbody x. generalize dependent (EnricherV2.clamp (x / EnricherV2.rr b) 0.75 15.0).
  intros d Hd. div_const. nra.
Qed.

Lemma v1_metrics_edge (risk : Risk) (entry n : Q) :
  (0 <= n <= 1)%Q -> (0 < entry)%Q ->
  let m := EnricherV1.metrics risk entry n in
  (EnricherV1.m_target m == entry * (1 + EnricherV1.m_roi m / 100))%Q
  /\ ((entry - EnricherV1.m_stop m) * 100 < entry * EnricherV1.m_roi m)%Q.
Proof.
  intros Hn He. cbv zeta.
  pose proof (v1_metrics_facts risk entry n Hn) as (Hroi & _).
  cbv zeta in Hroi. revert Hroi. unfold EnricherV1.metrics.
  destruct (EnricherV1.risk_params risk) as [[lo hi] rr] eqn:Ep.
  cbn [fst snd EnricherV1.m_roi EnricherV1.m_target EnricherV1.m_stop].
  assert (Hrr : (1.3 <= rr <= 2.2)%Q /\ (1.5 <= lo)%Q).
  { destruct risk; injection Ep as <- <- <-; lra. }
  destruct Hrr as (Hrr & Hlo).
  generalize (round_digits (lo + (hi - lo) * n) 2). intros x Hx.
  assert (Hy : (x / rr < x)%Q).
  { apply Qlt_shift_div_r; [lra|]. nra. }
  generalize dependent (x / rr)%Q. intros y Hy.
  split; [div_const; ring|]. div_const. nra.
Qed.

(** X19.  An enriched candidate in the backtest, in exact arithmetic
    (in doubles the two sides of the equality below agree up to
    rounding only).  For a selected row with a positive entry price in
    a keyed table, the row either enricher stores makes the backtest's
    loop body add a positive edge; when only the target is reached in
    the forward bars the realized return recorded equals the stored
    expected return (a win), and when only the stop is reached it is a
    loss. *)
Theorem X19_enriched_then_backtested now env date profiles creamy
    (i : nat) r (e : Q) r' rule rd bar bars st :
  keyed creamy -> creamy !! i = Some r -> Is_true (creamy_of env date r) ->
  ENTRY_PRICE r = Some e -> (0 < e)%Q ->
  EnricherV2.main now env date creamy !! i = Some r'
  \/ EnricherV1.main now env date profiles creamy !! i = Some r' ->
  let t := f (TARGET_PRICE r') in
  let s := f (STOP_LOSS r') in
  let st' := trade rule rd (bar :: bars) r' st in
  (hit_t t (max_high bar bars) = true -> hit_s s (min_low bar bars) = false ->
   (sum_realized st' == sum_realized st + f (EXPECTED_RETURN_PCT r'))%Q
   /\ win st' = win st + 1)
  /\ (hit_t t (max_high bar bars) = false -> hit_s s (min_low bar bars) = true ->
      (sum_realized st' < sum_realized st)%Q /\ lose st' = lose st + 1)
  /\ (sum_edge st < sum_edge st')%Q.
Proof.
  intros Hkey Hi Hsel He Hpos Hmain.
  assert (Hde : default 0%Q (ENTRY_PRICE r) = e) by (by rewrite He).
  destruct Hmain as [Hmain|Hmain].
  - destruct (v2_row_update now env date creamy i r Hkey Hi Hsel)
      as (u & Hu & Hmain'); [by rewrite Hde|].
    rewrite Hmain in Hmain'. injection Hmain' as ->.
    unfold EnricherV2.enrich_row in Hu. rewrite Hde in Hu.
    destruct (Qle_bool e 0); [discriminate|]. injection Hu as <-.
    set (risk := EnricherV2.risk_from_profile_id (PROFILE_ID r)).
    set (s0 := EnricherV2.strength _ _).
    assert (Hb : (0 < EnricherV2.roi (EnricherV2.BASE risk))%Q)
      by (pose proof (BASE_positive risk); lra).
    pose proof (v2_metrics_edge risk e s0 Hpos) as Hedge.
    pose proof (metrics_levels (EnricherV2.BASE risk) e s0 Hb Hpos)
      as (_ & _ & H3 & _ & H5 & H6 & H7).
    cbv zeta in Hedge.
    set (m := EnricherV2.metrics (EnricherV2.BASE risk) e s0) in *.
    apply (trade_of_levels rule rd bar bars st _ e
             (EnricherV2.m_target m) (EnricherV2.m_stop m) (EnricherV2.m_roi m));
      try assumption; reflexivity.
  - destruct (v1_row_update now env date profiles creamy i r Hkey Hi Hsel)
      as (smin & smax & Hmain').
    rewrite Hmain in Hmain'. injection Hmain' as ->.
    unfold EnricherV1.enrich_row. rewrite Hde.
    set (risk := EnricherV1.risk_class _).
    set (n0 := EnricherV1.norm_score _ smin smax).
    pose proof (v1_metrics_facts risk e n0 (norm_score_unit _ smin smax))
      as (_ & _ & _ & H4 & _).
    destruct (H4 Hpos) as (H5 & H6 & H7 & _).
    pose proof (v1_metrics_edge risk e n0 (norm_score_unit _ smin smax) Hpos)
      as [H3 Hedge].
    set (m := EnricherV1.metrics risk e n0) in *.
    apply (trade_of_levels rule rd bar bars st _ e
             (EnricherV1.m_target m) (EnricherV1.m_stop m) (EnricherV1.m_roi m));
      try assumption; reflexivity.
Qed.

Lemma X19_enriched_then_backtested_witness :
  let r := plain_row "BALANCED" "I1" (Some 100%Q) None (Some 1) None in
  let creamy := [r] in
  let r' := default r (EnricherV2.main "now" "SIM" "2025-12-01" creamy !! 0%nat) in
  let bar := mkEod "I1" "2025-12-02" (Some 200%Q) (Some 100%Q) (Some 150%Q) in
  let t := f (TARGET_PRICE r') in
  let s := f (STOP_LOSS r') in
  let st' := trade stop_first "2025-12-01" [bar] r' new_stat in
  (hit_t t (max_high bar []) = true -> hit_s s (min_low bar []) = false ->
   (sum_realized st' == sum_realized new_stat + f (EXPECTED_RETURN_PCT r'))%Q
   /\ win st' = win new_stat + 1)
  /\ (hit_t t (max_high bar []) = false -> hit_s s (min_low bar []) = true ->
      (sum_realized st' < sum_realized new_stat)%Q
      /\ lose st' = lose new_stat + 1)
  /\ (sum_edge new_stat < sum_edge st')%Q.
Proof.
  intros r creamy r' bar.
  apply (X19_enriched_then_backtested "now" "SIM" "2025-12-01" ∅ creamy 0 r 100 r'
           stop_first "2025-12-01" bar [] new_stat).
  - intros r1 r2 H1 H2.
    apply list_elem_of_singleton in H1, H2. congruence.
  - reflexivity.
  - exact I.
  - reflexivity.
  - reflexivity.
  - left. vm_compute. reflexivity.
Defined.

End Pipeline.

(** ** The min-max enricher: the columns and rows of the profile table *)

Section ProfileTable.

Import Regex EnricherV1.

Lemma dict_set_elem d k v item :
  item ∈ dict_set d k v -> item = (k, v) \/ item ∈ d.
Proof.
  induction d as [|[k' v'] d IH]; cbn [dict_set].
  - intros H%list_elem_of_singleton. by left.
  - destruct (String.eqb k' k) eqn:E.
    + apply String.eqb_eq in E as ->.
      intros [->|H]%elem_of_cons; [by left|right; by right].
    + intros [->|H]%elem_of_cons; [right; left|].
      destruct (IH H) as [->|Hin]; [by left|right; by right].
Qed.

Lemma dict_set_key d k v k0 :
  (exists v0, (k0, v0) ∈ d) \/ k0 = k -> exists v0, (k0, v0) ∈ dict_set d k v.
Proof.
  induction d as [|[k' v'] d IH]; cbn [dict_set].
  - intros [[v0 H]| ->]; [by apply elem_of_nil in H|]. exists v. left.
  - destruct (String.eqb k' k) eqn:E.
    + apply String.eqb_eq in E as ->.
      intros [[v0 [[= -> ->]|H]%elem_of_cons]| ->].
      * exists v. left.
      * exists v0. by right.
      * exists v. left.
    + intros [[v0 [[= -> ->]|H]%elem_of_cons]| ->].
      * exists v'. left.
      * destruct IH as [v1 H1]; [left; by exists v0|]. exists v1. by right.
      * destruct IH as [v1 H1]; [by right|]. exists v1. by right.
Qed.

(** [cols_u] maps the upper-cased name of every column to a column of
    that upper-cased name. *)
Lemma cols_u_elem cols item :
  item ∈ cols_u cols -> item.2 ∈ cols /\ item.1 = upper item.2.
Proof.
  unfold cols_u.
  assert (H : forall l d,
             (forall it, it ∈ d -> it.2 ∈ cols /\ it.1 = upper it.2) ->
             (forall c, c ∈ l -> c ∈ cols) ->
             forall it, it ∈ fold_left (fun d c => dict_set d (upper c) c) l d ->
                        it.2 ∈ cols /\ it.1 = upper it.2).
  { induction l as [|c l IH]; intros d Hd Hl; [exact Hd|].
    cbn [fold_left]. apply IH.
    - intros it [->|Hin]%dict_set_elem; [|by apply Hd].
      cbn. split; [apply Hl; left|reflexivity].
    - intros c' Hc'. apply Hl. by right. }
  apply (H cols []); [|auto]. intros it Hn. by apply elem_of_nil in Hn.
Qed.

Lemma cols_u_key cols c :
  c ∈ cols -> exists v, (upper c, v) ∈ cols_u cols.
Proof.
  unfold cols_u.
  assert (H : forall l d,
             c ∈ l \/ (exists v, (upper c, v) ∈ d) ->
             exists v, (upper c, v)
                       ∈ fold_left (fun d c => dict_set d (upper c) c) l d).
  { induction l as [|c' l IH]; intros d [Hc|Hd].
    - by apply elem_of_nil in Hc.
    - exact Hd.
    - cbn [fold_left]. apply IH.
      apply elem_of_cons in Hc as [->|Hc]; [right|by left].
      apply dict_set_key. by right.
    - cbn [fold_left]. apply IH. right. apply dict_set_key. by left. }
  intros Hc. apply H. by left.
Qed.

Lemma find_none_all {A} (p : A -> bool) (l : list A) :
  find p l = None <-> forall x, x ∈ l -> p x = false.
Proof.
  split.
  - intros H x Hx. apply list_elem_of_In in Hx. exact (find_none p l H x Hx).
  - intros H. destruct (find p l) as [x|] eqn:E; [|reflexivity].
    apply find_some in E as [Hin Hp]. apply list_elem_of_In in Hin.
    rewrite (H x Hin) in Hp. discriminate.
Qed.

Lemma guess_col_none (cols : list string) (patterns : list Pat) :
  (forall pat c, pat ∈ patterns -> c ∈ cols -> search pat (upper c) = false) ->
  guess_col cols patterns = "".
Proof.
  unfold guess_col.
  induction patterns as [|pat rest IH]; intros H; [reflexivity|].
  cbn [guess_go].
  rewrite (proj2 (find_none_all _ _)).
  - apply IH. intros p c Hp Hc. apply H; [by right|assumption].
  - intros item Hitem. apply cols_u_elem in Hitem as [Hin ->].
    apply H; [left|assumption].
Qed.

Lemma guess_col_first (cols : list string) (earlier later : list Pat) pat c :
  (forall p c', p ∈ earlier -> c' ∈ cols -> search p (upper c') = false) ->
  c ∈ cols -> search pat (upper c) = true ->
  guess_col cols (earlier ++ pat :: later) ∈ cols
  /\ search pat (upper (guess_col cols (earlier ++ pat :: later))) = true.
Proof.
  unfold guess_col. intros Hearlier Hc Hm.
  induction earlier as [|p earlier IH]; cbn [app guess_go].
  - destruct (find _ (cols_u cols)) as [item|] eqn:E.
    + apply find_some in E as [Hin Hs]. apply list_elem_of_In in Hin.
      apply cols_u_elem in Hin as [Hin Hk]. split; [exact Hin|].
      by rewrite <- Hk.
    + destruct (cols_u_key cols c Hc) as [v Hv].
      rewrite find_none_all in E. specialize (E _ Hv). cbn in E. congruence.
  - rewrite (proj2 (find_none_all _ _)).
    + apply IH. intros p' c' Hp' Hc'. apply Hearlier; [by right|assumption].
    + intros item Hitem. apply cols_u_elem in Hitem as [Hin ->].
      apply Hearlier; [left|assumption].
Qed.

(** X20.  [guess_col] returns the empty string when no column matches
    any pattern; otherwise, with [pat] the first pattern of the list
    that some column matches (upper-cased), it returns a column of the
    table whose upper-cased name matches [pat]: an earlier pattern wins
    over a later one whatever the order of the columns. *)
Theorem X20_guess_col (cols : list string) (patterns : list Pat) :
  ((forall pat c, pat ∈ patterns -> c ∈ cols -> search pat (upper c) = false) ->
   guess_col cols patterns = "")
  /\ forall earlier pat later c,
       patterns = earlier ++ pat :: later ->
       (forall p c', p ∈ earlier -> c' ∈ cols -> search p (upper c') = false) ->
       c ∈ cols -> search pat (upper c) = true ->
       guess_col cols patterns ∈ cols
       /\ search pat (upper (guess_col cols patterns)) = true.
Proof.
  split; [apply guess_col_none|].
  intros earlier pat later c -> H1 H2 H3. by apply (guess_col_first _ _ _ _ c).
Qed.

(** A literal pattern matches exactly at a prefix equal to it. *)
Lemma rx_match_lit (w : string) (s : list ascii) k r :
  rx_match (lit w) s k = Some r ->
  exists rest, s = list_ascii_of_string w ++ rest /\ k rest = Some r.
Proof.
  revert s. induction w as [|c w IH]; intros s; cbn [lit rx_match].
  - intros H. by exists s.
  - destruct s as [|x s]; [discriminate|].
    destruct (Ascii.eqb x c) eqn:E; [|discriminate].
    apply Ascii.eqb_eq in E as ->. intros H.
    destruct (IH s H) as (rest & -> & Hk). by exists rest.
Qed.

(** X21.  The identifier column: when the profile table has a column
    named PROFILE_ID in any letter case, [guess_col] chooses for the
    identifier a column of the table whose upper-cased name is exactly
    PROFILE_ID (or PROFILE_ID followed by a line feed, which [$] also
    accepts), even if columns that merely contain PROFILE_ID, or a
    column ID, come first. *)
Theorem X21_profile_id_column (cols : list string) (c : string) :
  c ∈ cols -> upper c = "PROFILE_ID" ->
  let g := guess_col cols pats_profile_id in
  g ∈ cols
  /\ (upper g = "PROFILE_ID" \/ upper g = "PROFILE_ID" +:+ String newline "").
Proof.
  intros Hc Hu. cbv zeta.
  destruct (guess_col_first cols [] (tl pats_profile_id)
              (mkPat true (Seq (lit "PROFILE_ID") Eol)) c) as [Hin Hs].
  - intros p c' Hp. by apply elem_of_nil in Hp.
  - exact Hc.
  - rewrite Hu. vm_compute. reflexivity.
  - change ([] ++ _ :: tl pats_profile_id) with pats_profile_id in Hin, Hs.
    split; [exact Hin|].
    unfold search in Hs. cbn [at_start body] in Hs.
    destruct (rx_match _ _ Some) as [r|] eqn:E; [|discriminate].
    cbn [rx_match] in E.
    apply rx_match_lit in E as (rest & Hrest & Hk).
    assert (Hr : rest = [] \/ rest = [newline]).
    { destruct rest as [|x [|y rest]]; [by left| |discriminate].
      destruct (Ascii.eqb x newline) eqn:Ex; [|discriminate].
      apply Ascii.eqb_eq in Ex as ->. by right. }
    rewrite <- (string_of_list_ascii_of_string (upper _)), Hrest.
    destruct Hr as [-> | ->]; [left|right]; reflexivity.
Qed.

Lemma X21_profile_id_column_witness :
  let cols := ["OLD_PROFILE_ID"; "ID"; "Profile_Id"; "NAME"] in
  let g := guess_col cols pats_profile_id in
  g ∈ cols
  /\ (upper g = "PROFILE_ID" \/ upper g = "PROFILE_ID" +:+ String newline "").
Proof.
  intros cols.
  apply (X21_profile_id_column cols "Profile_Id"); [|reflexivity].
  right. right. left.
Defined.

Lemma load_profiles_snoc rows row :
  load_profiles (rows ++ [row])
  = <[row.1 := mkMeta (nth 0 row.2 row.1) (nth 1 row.2 (nth 0 row.2 row.1))
                      (infer_risk_class (nth 0 row.2 row.1)
                                        (nth 1 row.2 (nth 0 row.2 row.1)))]>
      (load_profiles rows).
Proof. unfold load_profiles. by rewrite fold_left_app. Qed.

(** X22.  [load_profiles]: a profile identifier is looked up to the
    code, name and inferred risk class of the last row of the profile
    table that carries it, and to nothing if no row does; and when no
    column of the table is recognised as the identifier column the map
    is empty, so that every profile is treated as BALANCED. *)
Theorem X22_load_profiles_last_row :
  (forall (rows : list (string * list string)) (pid : string),
     load_profiles rows !! pid
     = (fun row =>
          let code := nth 0 row.2 row.1 in
          let name := nth 1 row.2 code in
          mkMeta code name (infer_risk_class code name))
         <$> last (filter (fun row => row.1 = pid) rows))
  /\ (forall cols table,
        (forall pat c, pat ∈ pats_profile_id -> c ∈ cols ->
                       search pat (upper c) = false) ->
        load_profiles_db cols table = ∅
        /\ forall pid, risk_class (default (mkMeta pid pid BALANCED)
                                           (load_profiles_db cols table !! pid))
                       = BALANCED).
Proof.
  split.
  - intros rows pid. induction rows as [|row rows IH] using rev_ind.
    + unfold load_profiles. cbn. apply lookup_empty.
    + rewrite load_profiles_snoc, filter_app, filter_cons, filter_nil.
      destruct (decide (row.1 = pid)) as [E|E].
      * rewrite last_snoc. rewrite E, lookup_insert_eq. cbn. by rewrite E.
      * rewrite app_nil_r, lookup_insert_ne by exact E. exact IH.
  - intros cols table H.
    assert (He : load_profiles_db cols table = ∅).
    { unfold load_profiles_db. destruct cols as [|c cols]; [reflexivity|].
      by rewrite (guess_col_none _ _ H). }
    split; [exact He|]. intros pid. by rewrite He, lookup_empty.
Qed.

End ProfileTable.
